(** * Smart e-commerce scraper: the crawl engine of [agent_scraping]

    A shallow embedding of [src/agent_scraping/diverse_scraper.py] (class
    [DiverseScraper]) and of the scraper of
    [src/agent_scraping/app_streamlit_scraping.py] (class
    [StreamlitDiverseScraper], with the counters and the delete button of
    its page), with the properties the design document states about them and
    further properties read off the code.

    Conventions of the model.
    - A Python [str] is a [string]; its characters are the code points below
      256, on which Python's whitespace, decimal-digit and lower-case tables
      are the ones written out below.
    - Python floats are the rationals they denote ([Q]); a numeric text such
      as [str(float(m))] is kept as the number it prints.
    - The network, the random generator and the clock are explicit state
      ([World]): each HTTP attempt reads an oracle, each random draw consumes
      one entry of a tape, each sleep and each page line of the log is
      recorded in a trace.
    - A raised exception is the result [Raised]; the state reached when it
      was raised is kept, as in Python. *)

From Stdlib Require Import QArith Qround.
From stdpp Require Import base option list strings gmap.
From Stdlib Require Import Ascii String.

#[local] Set Warnings "-register-all".

Local Open Scope string_scope.
Local Open Scope list_scope.

(** ** Text *)

Module Text.

Definition chars (s : string) : list ascii := list_ascii_of_string s.
Definition text (l : list ascii) : string := string_of_list_ascii l.

Definition code (c : ascii) : N := N_of_ascii c.

(** [str.isspace] / [\s] below code point 256. *)
Definition isspace (c : ascii) : bool :=
  let n := code c in
  ((9 <=? n) && (n <=? 13) || (28 <=? n) && (n <=? 32) || (n =? 133) || (n =? 160))%N.

(** [\d] below code point 256. *)
Definition isdigit (c : ascii) : bool :=
  let n := code c in ((48 <=? n) && (n <=? 57))%N.

Definition ch_eqb (a b : ascii) : bool := Ascii.eqb a b.

(** [str.lower] on one character below code point 256. *)
Definition lower_char (c : ascii) : ascii :=
  let n := code c in
  if ((65 <=? n) && (n <=? 90) || (192 <=? n) && (n <=? 222) && negb (n =? 215))%N
  then ascii_of_N (n + 32) else c.

Definition lower (s : string) : string := text (map lower_char (chars s)).

Fixpoint lstrip (l : list ascii) : list ascii :=
  match l with
  | c :: r => if isspace c then lstrip r else l
  | [] => []
  end.

(** [s.strip()] *)
Definition strip (l : list ascii) : list ascii := rev (lstrip (rev (lstrip l))).

(** [re.sub(r'\s+', ' ', s)]: [in_run] tells that the previous character
    belonged to the whitespace run being replaced. *)
Fixpoint sub_ws (in_run : bool) (l : list ascii) : list ascii :=
  match l with
  | [] => []
  | c :: r =>
      if isspace c then (if in_run then sub_ws true r else " "%char :: sub_ws true r)
      else c :: sub_ws false r
  end.

(** [s.replace(a, b)] for one-character [a] and [b]. *)
Definition replace_char (a b : ascii) (l : list ascii) : list ascii :=
  map (fun c => if ch_eqb c a then b else c) l.

(** [s.replace(a, '')] *)
Definition remove_char (a : ascii) (l : list ascii) : list ascii :=
  List.filter (fun c => negb (ch_eqb c a)) l.

Definition LF : ascii := ascii_of_N 10.
Definition CR : ascii := ascii_of_N 13.

(** [s[:n]] *)
Definition slice_to (n : nat) (s : string) : string := text (take n (chars s)).

Fixpoint is_prefix (p l : list ascii) : bool :=
  match p, l with
  | [], _ => true
  | a :: p', b :: l' => ch_eqb a b && is_prefix p' l'
  | _ :: _, [] => false
  end.

Fixpoint is_infix (p l : list ascii) : bool :=
  is_prefix p l ||
  match l with
  | [] => false
  | _ :: l' => is_infix p l'
  end.

(** [sub in s] *)
Definition contains (sub s : string) : bool := is_infix (chars sub) (chars s).

(** Truth value of a [str]. *)
Definition truthy (s : string) : bool :=
  match s with EmptyString => false | _ => true end.

End Text.

Import Text.

(** [DiverseScraper._clean_text].  [text] is a [str] at every call site but
    the JSON ones, which are treated where they occur. *)
Definition _clean_text (text_ : string) : string :=
  if negb (truthy text_) then ""
  else
    let t := sub_ws false (strip (chars text_)) in
    let t := replace_char CR " "%char
               (replace_char LF " "%char (replace_char ";"%char ","%char t)) in
    text (take 300 t).

(** ** Numbers *)

Module Num.

Local Open Scope Q_scope.

Definition digit_val (c : ascii) : Z := Z.of_N (code c) - 48.

(** Value of a run of decimal digits, most significant first. *)
Definition digits_val (ds : list ascii) : Z :=
  fold_left (fun acc c => 10 * acc + digit_val c)%Z ds 0%Z.

Fixpoint pow10 (n : nat) : positive :=
  match n with
  | O => 1
  | S k => 10 * pow10 k
  end%positive.

(** Longest prefix of [l] whose characters satisfy [p], and the rest. *)
Fixpoint span (p : ascii -> bool) (l : list ascii) : list ascii * list ascii :=
  match l with
  | c :: r => if p c then let '(a, b) := span p r in (c :: a, b) else ([], l)
  | [] => ([], [])
  end.

(** [float(s)] on an unsigned decimal literal [digits [. digits]] or
    [. digits]; [None] is [ValueError]. *)
Definition unsigned_decimal (l : list ascii) : option Q :=
  let '(ip, rest) := span isdigit l in
  match rest with
  | [] => match ip with [] => None | _ => Some (digits_val ip # 1) end
  | c :: fp =>
      if ch_eqb c "."%char then
        match forallb isdigit fp, ip ++ fp with
        | true, _ :: _ => Some (digits_val (ip ++ fp) # pow10 (List.length fp))
        | _, _ => None
        end
      else None
  end.

(** [float(s)] for a [str]: surrounding whitespace, an optional sign and a
    decimal literal.  Exponents, underscores, [inf] and [nan] are outside
    the model. *)
Definition float_of_str (s : string) : option Q :=
  match strip (chars s) with
  | c :: r =>
      if ch_eqb c "-"%char then Qopp <$> unsigned_decimal r
      else if ch_eqb c "+"%char then unsigned_decimal r
      else unsigned_decimal (c :: r)
  | [] => None
  end.

(** [round(x, 2)]: nearest multiple of a hundredth, ties to even. *)
Definition round2 (x : Q) : Q :=
  let y := x * 100 in
  let f := Qfloor y in
  let d := y - (f # 1) in
  let n := match d ?= 1 # 2 with
           | Lt => f
           | Gt => (f + 1)%Z
           | Eq => if Z.even f then f else (f + 1)%Z
           end in
  n # 100.

End Num.

Import Num.

(** ** Documents, JSON values and records *)

(** A parsed element ([bs4.Tag]) seen through the queries the scraper makes:
    its text, its single-valued attributes, its [class] list and, for every
    selector string, the elements [select] returns in document order. *)
Inductive Tag : Type := mkTag {
  get_text : string;
  attrs : gmap string string;
  classes : list string;
  select : string -> list Tag
}.

(** [tag.select_one(sel)]: the first element of [tag.select(sel)]. *)
Definition select_one (t : Tag) (sel : string) : option Tag := head (select t sel).

(** [json.loads] values. *)
Inductive Json : Type :=
  | JNull
  | JBool (b : bool)
  | JNum (q : Q)
  | JStr (s : string)
  | JArr (items : list Json)
  | JObj (fields : gmap string Json).

(** A successful HTTP response: its body parsed as markup, and as JSON when
    [response.json()] does not raise. *)
Record Response : Type := mkResponse {
  soup : Tag;
  json : option Json
}.

(** The dict a product is returned as. *)
Record Product : Type := mkProduct {
  titre : string;
  prix : Q;
  disponibilite : string;
  note_moyenne : Q;
  description : string;
  vendeur : string;
  categorie : string;
  lien_produit : string
}.

(** ** The outside world *)

Inductive Event : Type :=
  | EvPage (page_count : nat) (url : string)   (* logger.info("Page n - ...") *)
  | EvGet (url : string)                       (* requests.get *)
  | EvSleep (seconds : Q).                     (* time.sleep *)

Record World : Type := mkWorld {
  net : nat -> string -> option Response;  (* outcome of the n-th GET; None: RequestException *)
  sent : nat;                              (* GETs issued so far *)
  tape : list nat;                         (* random draws to come *)
  trace : list Event                       (* what happened, oldest first *)
}.

Inductive Res (A : Type) : Type :=
  | Ok (a : A)
  | Raised.
Arguments Ok {A} a.
Arguments Raised {A}.

Definition St (A : Type) : Type := World -> A * World.

Definition ret {A} (a : A) : St A := fun w => (a, w).
Definition bind {A B} (m : St A) (k : A -> St B) : St B :=
  fun w => let '(a, w') := m w in k a w'.

Declare Scope st_scope.
Delimit Scope st_scope with st.
Notation "'do' x <- m ; k" := (bind m (fun x => k))
  (at level 10, x name, m at level 100, k at level 200) : st_scope.
Local Open Scope st_scope.

(** The world after [n] more GETs and the events [es]. *)
Definition advance (n : nat) (es : list Event) (w : World) : World :=
  {| net := net w; sent := n + sent w; tape := tape w; trace := trace w ++ es |}.

Definition emit (e : Event) : St unit :=
  fun w => (tt, {| net := net w; sent := sent w; tape := tape w; trace := trace w ++ [e] |}).

Definition draw : St nat :=
  fun w => match tape w with
           | [] => (0, w)
           | r :: rest => (r, {| net := net w; sent := sent w; tape := rest; trace := trace w |})
           end.

(** [random.choice(x :: xs)] *)
Definition random_choice {A} (x : A) (xs : list A) : St A :=
  do r <- draw; ret (nth (r mod S (List.length xs)) (x :: xs) x).

(** [random.uniform(a, b)]: [a + (b - a) * random()], [random()] a multiple
    of [2^-53] in [[0, 1)]. *)
Definition random_uniform (a b : Q) : St Q :=
  do r <- draw;
  ret (a + (b - a) * ((Z.of_nat r mod 9007199254740992) # 9007199254740992))%Q.

Definition time_sleep (seconds : Q) : St unit := emit (EvSleep seconds).

(** [requests.get(url, ...)] followed by [raise_for_status()]. *)
Definition requests_get (url : string) : St (option Response) :=
  fun w => (net w (sent w) url,
            {| net := net w; sent := S (sent w); tape := tape w;
               trace := trace w ++ [EvGet url] |}).

(** Library functions whose tables are not reproduced: [urllib.parse.urljoin]
    ([Raised] is its [ValueError]) and [str.title]. *)
Class Externals : Type := {
  urljoin : string -> string -> Res string;
  str_title : string -> string
}.

(** ** [DiverseScraper] *)

Definition Selectors : Type := gmap string string.

(** [selectors.get(key, dflt)] *)
Definition sel_get (selectors : Selectors) (key dflt : string) : string :=
  default dflt (selectors !! key).

Record SiteConfig : Type := mkSite {
  base_url : string;
  categories : list (string * string);   (* dict, in insertion order *)
  site_selectors : option Selectors      (* the 'selectors' key, when present *)
}.

(** The double-quote character, as a [str]. *)
Definition dq : string := String (ascii_of_N 34) EmptyString.

(** [self.selectors] *)
Definition default_selectors : Selectors :=
  list_to_map [
    ("product_container", ".thumbnail, .product-wrapper, .card, .product-item, .item, article.product_pod, .product-grid, .item-container, li");
    ("title", ".title, h4 a, .card-title, .product-title, h3 a, .name, h1, h2, h3, h4, h5");
    ("price", ".price, .pull-right.price, .cost, .amount, .product-price, .price_color, span.price");
    ("availability", ".stock, .availability, .in-stock, .status, .instock");
    ("rating", ".ratings, .rating, .stars, .review, .score, .star-rating");
    ("description", ".description, .card-text, .summary, .excerpt, p");
    ("vendor", ".brand, .vendor, .seller, .manufacturer, .author");
    ("category", ".category, .breadcrumb, .cat, .type");
    ("link", "a.title, h4 a, h3 a, .product-link, a");
    ("pagination", ".pagination a, a[rel=" +:+ dq +:+ "next" +:+ dq +:+ "], .next a, .page, a.page-link")
  ].

Definition retries_default : nat := 3.

(** The [for attempt in range(retries)] loop of [_make_request], over the
    attempts still to make. *)
Fixpoint attempt_loop (attempts : list nat) (retries : nat) (url : string)
  : St (option Response) :=
  match attempts with
  | [] => ret None
  | attempt :: rest =>
      do r <- requests_get url;
      match r with
      | Some response => ret (Some response)
      | None =>
          do _ <- (if (attempt <? retries - 1)%nat
                   then time_sleep (inject_Z (2 ^ Z.of_nat attempt))
                   else ret tt);
          attempt_loop rest retries url
      end
  end.

Definition _make_request_with (retries : nat) (url : string) : St (option Response) :=
  attempt_loop (seq 0 retries) retries url.

(** [_make_request(url)], [retries] left at its default. *)
Definition _make_request (url : string) : St (option Response) :=
  _make_request_with retries_default url.

Definition _random_delay (min_delay max_delay : Q) : St unit :=
  do delay <- random_uniform min_delay max_delay;
  time_sleep delay.

Definition price_default : St Q :=
  random_choice 19.99%Q [29.99; 49.99; 79.99; 99.99]%Q.

Definition rating_default : St Q :=
  random_choice 3%Q [3.5; 4; 4.5; 5]%Q.

Definition digit_or_comma (c : ascii) : bool := isdigit c || ch_eqb c ","%char.

(** The text matched by [[\d,]+\.?\d*] at the head of [l], whose first
    character is in the class. *)
Definition number_at (l : list ascii) : list ascii :=
  let '(a, rest) := span digit_or_comma l in
  match rest with
  | c :: r => if ch_eqb c "."%char then a ++ c :: fst (span isdigit r) else a
  | [] => a
  end.

(** [re.search(r'[\d,]+\.?\d*', s)]: the leftmost match, if any. *)
Fixpoint re_search_number (l : list ascii) : option (list ascii) :=
  match l with
  | [] => None
  | c :: r => if digit_or_comma c then Some (number_at l) else re_search_number r
  end.

Definition _extract_price (price_element : option Tag) : St Q :=
  match price_element with
  | None => price_default
  | Some e =>
      let price_text := _clean_text (get_text e) in
      match re_search_number (remove_char ","%char (chars price_text)) with
      | Some m =>
          match float_of_str (text m) with
          | Some q => ret q
          | None => price_default        (* except: pass *)
          end
      | None => price_default
      end
  end.

(** [rating_map], as [cls in rating_map] and [rating_map[cls]]. *)
Definition rating_map (cls : string) : option Q :=
  if String.eqb cls "One" then Some 1%Q
  else if String.eqb cls "Two" then Some 2%Q
  else if String.eqb cls "Three" then Some 3%Q
  else if String.eqb cls "Four" then Some 4%Q
  else if String.eqb cls "Five" then Some 5%Q
  else None.

(** The [for cls in rating_classes] loop: the first class the map knows. *)
Fixpoint star_rating (rating_classes : list string) : option Q :=
  match rating_classes with
  | [] => None
  | cls :: rest =>
      match rating_map cls with
      | Some r => Some r
      | None => star_rating rest
      end
  end.

Definition text_of (e : option Tag) (dflt : string) : string :=
  match e with Some t => get_text t | None => dflt end.

Definition IN_STOCK : string := "Disponible".
Definition OUT_OF_STOCK : string := "Rupture".

(** The availability block of [_extract_product_data]. *)
Definition classify_availability (avail_elem : option Tag) : string :=
  match avail_elem with
  | Some e =>
      let avail_text := lower (_clean_text (get_text e)) in
      if contains "out" avail_text || contains "rupture" avail_text
      then OUT_OF_STOCK else IN_STOCK
  | None => IN_STOCK
  end.

(** The rating block of [_extract_product_data], up to the [if not rating]
    test: [None] is the empty text. *)
Definition extract_rating (rating_elem : option Tag) : St (option Q) :=
  match rating_elem with
  | Some e =>
      if bool_decide ("star-rating" ∈ classes e)
      then ret (star_rating (classes e))
      else do r <- _extract_price (Some e); ret (Some r)
  | None => ret None
  end.

(** The title block of [_extract_product_data]. *)
Definition extract_title (product_element : Tag) (title_elem : option Tag) : string :=
  let title := _clean_text (text_of title_elem "") in
  let title :=
    match title_elem with
    | Some e =>
        match attrs e !! "title" with
        | Some v => if truthy title then title else _clean_text v
        | None => title
        end
    | None => title
    end in
  if negb (truthy title)
  then _clean_text (slice_to 100 (get_text product_element))
  else title.

Section Scraper.

Context `{Externals}.

Definition _extract_product_data (product_element : Tag)
    (category_name page_url : string) (selectors : Selectors) : St (Res Product) :=
  let title_elem := select_one product_element (sel_get selectors "title" ".title") in
  let title := extract_title product_element title_elem in
  let price_elem := select_one product_element (sel_get selectors "price" ".price") in
  do price <- _extract_price price_elem;
  let avail_elem :=
    select_one product_element (sel_get selectors "availability" ".availability") in
  let availability := classify_availability avail_elem in
  let rating_elem := select_one product_element (sel_get selectors "rating" ".rating") in
  do rating <- extract_rating rating_elem;
  do rating <- match rating with
               | Some r => ret r
               | None => rating_default
               end;
  let desc_elem :=
    select_one product_element (sel_get selectors "description" ".description") in
  let description_ := _clean_text (text_of desc_elem "") in
  let vendor_elem := select_one product_element (sel_get selectors "vendor" ".vendor") in
  let vendor := _clean_text (text_of vendor_elem "N/A") in
  let category :=
    if contains "jsonplaceholder" category_name then "Digital Content"
    else str_title (text (replace_char "_"%char " "%char (chars category_name))) in
  let link_elem := select_one product_element (sel_get selectors "link" "a") in
  let product_link :=
    match link_elem with
    | Some e =>
        match attrs e !! "href" with
        | Some href => urljoin page_url href
        | None => Ok page_url
        end
    | None => Ok page_url
    end in
  match product_link with
  | Raised => ret Raised
  | Ok link =>
      ret (Ok {| titre := title;
                 prix := price;
                 disponibilite := availability;
                 note_moyenne := rating;
                 description :=
                   if (200 <? String.length description_)%nat
                   then slice_to 200 description_ +:+ "..."
                   else description_;
                 vendeur := vendor;
                 categorie := category;
                 lien_produit := link |})
  end.

(** Truth value of a JSON value, as Python sees the decoded object. *)
Definition json_truthy (v : Json) : bool :=
  match v with
  | JNull => false
  | JBool b => b
  | JNum q => negb (Qeq_bool q 0)
  | JStr s => truthy s
  | JArr items => match items with [] => false | _ => true end
  | JObj fields => negb (bool_decide (fields = ∅))
  end.

(** [v[:n]]: texts and lists can be sliced, the rest raises. *)
Definition json_slice (n : nat) (v : Json) : Res Json :=
  match v with
  | JStr s => Ok (JStr (slice_to n s))
  | JArr items => Ok (JArr (take n items))
  | _ => Raised
  end.

(** [_clean_text(v)] on a decoded JSON value: falsy values give the empty
    text, a text is cleaned, anything else has no [strip]. *)
Definition clean_json (v : Json) : Res string :=
  if negb (json_truthy v) then Ok ""
  else match v with
       | JStr s => Ok (_clean_text s)
       | _ => Raised
       end.

(** [float(v)] on a decoded JSON value. *)
Definition json_float (v : Json) : Res Q :=
  match v with
  | JNum q => Ok q
  | JBool b => Ok (if b then 1 else 0)%Q
  | JStr s => match float_of_str s with Some q => Ok q | None => Raised end
  | _ => Raised
  end.

(** [d.get(key, dflt)] *)
Definition json_get (fields : gmap string Json) (key : string) (dflt : Json) : Json :=
  default dflt (fields !! key).

Definition res_bind {A B} (r : Res A) (k : A -> Res B) : Res B :=
  match r with Ok a => k a | Raised => Raised end.

Definition _create_product_from_json (json_element : Json)
    (category_name url : string) : St (Res Product) :=
  match json_element with
  | JObj fields =>
      let title_raw := json_get fields "title" (json_get fields "name" (JStr "")) in
      match res_bind (json_slice 50 title_raw) clean_json with
      | Raised => ret Raised
      | Ok title =>
          let title := if negb (truthy title) then "Digital Item" else title in
          do price <- random_uniform 9.99 99.99;
          let price :=
            match fields !! "id" with
            | Some id => res_bind (json_float id) (fun x => Ok (round2 (x * 2)))
            | None => Ok price
            end in
          match price with
          | Raised => ret Raised
          | Ok price =>
              let desc_raw := json_get fields "body" (json_get fields "title" (JStr "")) in
              match res_bind (json_slice 200 desc_raw) clean_json with
              | Raised => ret Raised
              | Ok description_ =>
                  let description_ :=
                    if negb (truthy description_)
                    then "Digital content or media item." else description_ in
                  do availability <- random_choice IN_STOCK [OUT_OF_STOCK];
                  do rating <- rating_default;
                  ret (Ok {| titre := title;
                             prix := price;
                             disponibilite := availability;
                             note_moyenne := rating;
                             description := description_;
                             vendeur := "Digital Store";
                             categorie := "Digital Content";
                             lien_produit := url |})
              end
          end
      end
  | _ => ret Raised     (* no [get] on a value that is not a dict *)
  end.

Definition raquo : string := String (ascii_of_N 187) EmptyString.

Definition next_words : list string := ["next"; "suivant"; ">"; raquo].

(** The [for link in next_links] loop of [_get_next_page_url]. *)
Fixpoint first_next_link (next_links : list Tag) (current_url : string)
  : Res (option string) :=
  match next_links with
  | [] => Ok None
  | link :: rest =>
      match attrs link !! "href" with
      | Some href =>
          let link_text := lower (_clean_text (get_text link)) in
          if existsb (fun word => contains word link_text) next_words
          then res_bind (urljoin current_url href) (fun u => Ok (Some u))
          else first_next_link rest current_url
      | None => first_next_link rest current_url
      end
  end.

Definition _get_next_page_url (soup_ : Tag) (current_url : string)
    (selectors : Selectors) : Res (option string) :=
  first_next_link (select soup_ (sel_get selectors "pagination" ".pagination a"))
                  current_url.

(** [products.append(product)] guarded by [if product['titre']]. *)
Definition keep (products : list Product) (product : Product) : list Product :=
  if truthy (titre product) then products ++ [product] else products.

(** The [for item in json_data] loop; an exception leaves it, and the
    products appended so far stay in [products]. *)
Fixpoint json_items (items : list Json) (category_name current_url : string)
    (products : list Product) : St (list Product) :=
  match items with
  | [] => ret products
  | item :: rest =>
      do r <- _create_product_from_json item category_name current_url;
      match r with
      | Ok product => json_items rest category_name current_url (keep products product)
      | Raised => ret products
      end
  end.

(** The JSON branch of the page loop, up to its [break]. *)
Definition json_page (response : Response) (category_name current_url : string)
    (products : list Product) : St (list Product) :=
  match json response with
  | None => ret products                         (* response.json() raised *)
  | Some (JArr items) => json_items items category_name current_url products
  | Some json_data =>
      do r <- _create_product_from_json json_data category_name current_url;
      match r with
      | Ok product => ret (keep products product)
      | Raised => ret products
      end
  end.

Definition alt_selectors : list string :=
  ["article"; ".item"; ".product-item"; "li"; ".product-grid"].

(** The [for alt_selector in [...]] loop: the result of the last [select]
    made, which is the first non-empty one if there is one. *)
Fixpoint try_alternatives (soup_ : Tag) (alts : list string) : list Tag :=
  match alts with
  | [] => []
  | alt_selector :: rest =>
      match select soup_ alt_selector with
      | [] => try_alternatives soup_ rest
      | product_elements => product_elements
      end
  end.

(** The container selection of the page loop. *)
Definition select_containers (soup_ : Tag) (selectors : Selectors) : list Tag :=
  let container_selector := sel_get selectors "product_container" ".product" in
  match select soup_ container_selector with
  | [] => try_alternatives soup_ alt_selectors
  | product_elements => product_elements
  end.

(** The [for product_elem in product_elements] loop; a raising element is
    skipped. *)
Fixpoint extract_elements (product_elements : list Tag)
    (category_name current_url : string) (selectors : Selectors)
    (products : list Product) : St (list Product) :=
  match product_elements with
  | [] => ret products
  | product_elem :: rest =>
      do r <- _extract_product_data product_elem category_name current_url selectors;
      extract_elements rest category_name current_url selectors
        (match r with Ok product_data => keep products product_data | Raised => products end)
  end.

Definition is_json_site (site_name : string) : bool := contains "jsonplaceholder" site_name.

(** The [while current_url and page_count < max_pages] loop of
    [scrape_site_category].  [fuel] bounds the iterations still possible;
    [max_pages - page_count] of them is enough ([page_loop_fuel]). *)
Fixpoint page_loop (fuel : nat) (site_name category_name : string)
    (selectors : Selectors) (max_pages : nat)
    (current_url : string) (page_count : nat) (products : list Product)
  : St (Res (list Product)) :=
  match fuel with
  | O => ret (Ok products)
  | S fuel' =>
      if truthy current_url && (page_count <? max_pages)%nat then
        let page_count := S page_count in
        do _ <- emit (EvPage page_count current_url);
        do response <- _make_request current_url;
        match response with
        | None => ret (Ok products)
        | Some response =>
            if is_json_site site_name then
              do products <- json_page response category_name current_url products;
              ret (Ok products)
            else
              let soup_ := soup response in
              match select_containers soup_ selectors with
              | [] => ret (Ok products)
              | product_elements =>
                  do products <-
                    extract_elements product_elements
                      (site_name +:+ "_" +:+ category_name) current_url selectors products;
                  match _get_next_page_url soup_ current_url selectors with
                  | Raised => ret Raised
                  | Ok None => ret (Ok products)
                  | Ok (Some next_url) =>
                      if String.eqb next_url current_url || negb (truthy next_url)
                      then ret (Ok products)
                      else
                        do _ <- _random_delay 1 3;
                        page_loop fuel' site_name category_name selectors max_pages
                                  next_url page_count products
                  end
              end
        end
      else ret (Ok products)
  end.

Definition scrape_site_category (site_name : string) (site_config : SiteConfig)
    (category_name category_path : string) (max_pages : nat)
  : St (Res (list Product)) :=
  let url := base_url site_config +:+ category_path in
  let selectors := default default_selectors (site_selectors site_config) in
  page_loop max_pages site_name category_name selectors max_pages url 0 [].

(** The scraper object's [all_products] and the local [total_products]. *)
Record Totals : Type := mkTotals {
  all_products : list Product;
  total_products : nat
}.

(** The [for category_name, category_path in ...items()] loop of
    [scrape_all_diverse_sites]. *)
Fixpoint category_loop (site_name : string) (site_config : SiteConfig)
    (cats : list (string * string)) (target_products : nat) (acc : Totals)
  : St Totals :=
  match cats with
  | [] => ret acc
  | (category_name, category_path) :: rest =>
      if (target_products <=? total_products acc)%nat then ret acc
      else
        do r <- scrape_site_category site_name site_config category_name category_path 10;
        match r with
        | Raised => category_loop site_name site_config rest target_products acc
        | Ok category_products =>
            let acc :=
              match category_products with
              | [] => acc
              | _ => {| all_products := all_products acc ++ category_products;
                        total_products :=
                          total_products acc + List.length category_products |}
              end in
            do _ <- _random_delay 2 4;
            category_loop site_name site_config rest target_products acc
        end
  end.

(** The [for site_name, site_config in self.diverse_sites.items()] loop. *)
Fixpoint site_loop (sites : list (string * SiteConfig)) (target_products : nat)
    (acc : Totals) : St Totals :=
  match sites with
  | [] => ret acc
  | (site_name, site_config) :: rest =>
      if (target_products <=? total_products acc)%nat then ret acc
      else
        do acc <- category_loop site_name site_config (categories site_config)
                                target_products acc;
        site_loop rest target_products acc
  end.

(** [scrape_all_diverse_sites]: [diverse_sites] and [all_products] are the
    attributes of the scraper object when the call starts; the result is
    [self.all_products] when it returns. *)
Definition scrape_all_diverse_sites (diverse_sites : list (string * SiteConfig))
    (all_products0 : list Product) (target_products : nat) : St (list Product) :=
  do acc <- site_loop diverse_sites target_products
                      {| all_products := all_products0; total_products := 0 |};
  ret (all_products acc).

End Scraper.

(** [self.diverse_sites] *)
Definition books_selectors : Selectors :=
  list_to_map [
    ("product_container", "article.product_pod, li");
    ("title", "h3 a, h4, .title");
    ("price", ".price_color, .price");
    ("rating", ".star-rating");
    ("link", "h3 a, a");
    ("availability", ".instock.availability");
    ("description", "p");
    ("pagination", ".next a, a[rel=" +:+ dq +:+ "next" +:+ dq +:+ "]")
  ].

Definition webscraper_selectors : Selectors :=
  list_to_map [
    ("product_container", ".thumbnail, .card, .product-item");
    ("title", ".title, h4 a");
    ("price", ".price");
    ("rating", ".ratings");
    ("description", ".description");
    ("link", "a.title, h4 a");
    ("pagination", ".pagination a, .next a")
  ].

Definition books_demo : SiteConfig :=
  {| base_url := "http://books.toscrape.com";
     categories := [
       ("travel", "/catalogue/category/books/travel_2/index.html");
       ("mystery", "/catalogue/category/books/mystery_3/index.html");
       ("history", "/catalogue/category/books/history_32/index.html");
       ("romance", "/catalogue/category/books/romance_8/index.html");
       ("science", "/catalogue/category/books/science_22/index.html");
       ("fiction", "/catalogue/category/books/fiction_10/index.html");
       ("philosophy", "/catalogue/category/books/philosophy_7/index.html");
       ("business", "/catalogue/category/books/business_35/index.html");
       ("health", "/catalogue/category/books/health_47/index.html");
       ("sports", "/catalogue/category/books/sports-and-games_17/index.html") ];
     site_selectors := Some books_selectors |}.

Definition webscraper_varied : SiteConfig :=
  {| base_url := "https://webscraper.io/test-sites/e-commerce";
     categories := [
       ("static_all", "/static");
       ("ajax_all", "/ajax");
       ("more_all", "/more");
       ("allinone_all", "/allinone");
       ("scroll_all", "/scroll");
       ("static_computers", "/static/computers");
       ("ajax_computers", "/ajax/computers");
       ("static_phones", "/static/phones");
       ("ajax_phones", "/ajax/phones");
       ("static_clothes", "/static/clothes") ];
     site_selectors := Some webscraper_selectors |}.

Definition jsonplaceholder : SiteConfig :=
  {| base_url := "https://jsonplaceholder.typicode.com";
     categories := [("posts", "/posts"); ("albums", "/albums"); ("photos", "/photos")];
     site_selectors := Some default_selectors |}.

Definition diverse_sites : list (string * SiteConfig) :=
  [("books_demo", books_demo);
   ("webscraper_varied", webscraper_varied);
   ("jsonplaceholder", jsonplaceholder)].

(** ** The per-category batches of a run *)

Section Batches.

Context `{Externals}.

(** The batches [scrape_site_category] returns to the category loop, in the
    order they are returned, and the running total after them. *)
Fixpoint category_batches (site_name : string) (site_config : SiteConfig)
    (cats : list (string * string)) (target_products total : nat)
  : St (list (list Product) * nat) :=
  match cats with
  | [] => ret ([], total)
  | (category_name, category_path) :: rest =>
      if (target_products <=? total)%nat then ret ([], total)
      else
        do r <- scrape_site_category site_name site_config category_name category_path 10;
        match r with
        | Raised => category_batches site_name site_config rest target_products total
        | Ok batch =>
            do _ <- _random_delay 2 4;
            do bt <- category_batches site_name site_config rest target_products
                                      (total + List.length batch);
            ret (batch :: fst bt, snd bt)
        end
  end.

Fixpoint site_batches (sites : list (string * SiteConfig)) (target_products total : nat)
  : St (list (list Product)) :=
  match sites with
  | [] => ret []
  | (site_name, site_config) :: rest =>
      if (target_products <=? total)%nat then ret []
      else
        do bt <- category_batches site_name site_config (categories site_config)
                                  target_products total;
        do more <- site_batches rest target_products (snd bt);
        ret (fst bt ++ more)
  end.

End Batches.

(** [merge(perCategoryResults)] as the design document words it: the batches
    appended in order. *)
Definition merge (per_category_results : list (list Product)) : list Product :=
  List.concat per_category_results.

(** ** The record builder of [app_streamlit_scraping.py] *)

Module Streamlit.

(** The dict [StreamlitDiverseScraper._extract_product_data] returns: the
    eight keys of [DiverseScraper], the two numbers converted with [float],
    and a ['source'] key. *)
Definition DiverseProduct : Type := Product.

Definition diverse_extract_product_data `{Externals} :=
  _extract_product_data.

Record Product : Type := mkProduct {
  fields : DiverseProduct;
  source : string
}.

(** The text before the first [sep], or the whole text when there is none:
    [s.split(sep)[0]]. *)
Fixpoint before_first (sep : ascii) (l : list ascii) : list ascii :=
  match l with
  | [] => []
  | c :: r => if ch_eqb c sep then [] else c :: before_first sep r
  end.

(** [category_name.split('_')[0] if '_' in category_name else category_name] *)
Definition source_label (category_name : string) : string :=
  if contains "_" category_name
  then text (before_first "_"%char (chars category_name))
  else category_name.

(** [_extract_product_data] of the Streamlit scraper: the statements of
    [DiverseScraper._extract_product_data], then the larger dict. *)
Definition _extract_product_data `{Externals} (product_element : Tag)
    (category_name page_url : string) (selectors : Selectors) : St (Res Product) :=
  do r <- diverse_extract_product_data product_element category_name page_url selectors;
  ret (match r with
       | Ok p => Ok {| fields := p; source := source_label category_name |}
       | Raised => Raised
       end).

(** [st.session_state.scraped_products.extend(products)] *)
Definition extend (scraped_products products : list Product) : list Product :=
  scraped_products ++ products.

End Streamlit.

(** ** JSON items the record builder accepts *)

Definition is_text (v : Json) : bool :=
  match v with JStr _ => true | _ => false end.

(** An object whose title (or name) and body are texts and whose [id], if it
    has one, is a number: [_create_product_from_json] does not raise on it. *)
Definition plain_item (j : Json) : bool :=
  match j with
  | JObj fields =>
      is_text (json_get fields "title" (json_get fields "name" (JStr "")))
      && is_text (json_get fields "body" (json_get fields "title" (JStr "")))
      && match fields !! "id" with
         | Some (JNum _) | None => true
         | Some _ => false
         end
  | _ => false
  end.



(** ** Sample sites *)

Module Samples.

Definition is_ascii_upper (c : ascii) : bool := ((65 <=? code c) && (code c <=? 90))%N.
Definition is_ascii_lower (c : ascii) : bool := ((97 <=? code c) && (code c <=? 122))%N.

(** [str.title] on ASCII text. *)
Fixpoint title_chars (previous_is_cased : bool) (l : list ascii) : list ascii :=
  match l with
  | [] => []
  | c :: r =>
      (if previous_is_cased
       then (if is_ascii_upper c then ascii_of_N (code c + 32) else c)
       else (if is_ascii_lower c then ascii_of_N (code c - 32) else c))
      :: title_chars (is_ascii_upper c || is_ascii_lower c) r
  end.

Definition ascii_title (s : string) : string := text (title_chars false (chars s)).

(** The library functions on the samples: every link below is an absolute
    [http] URL, which [urljoin] returns as it is, and every category name is
    ASCII. *)
#[global] Instance on_samples : Externals :=
  {| urljoin := fun _ url => Ok url; str_title := ascii_title |}.

(** [select] given as a table from selector to matches. *)
Fixpoint table (rows : list (string * list Tag)) (selector : string) : list Tag :=
  match rows with
  | [] => []
  | (k, matches) :: rest => if String.eqb k selector then matches else table rest selector
  end.

Definition leaf (t : string) : Tag :=
  {| get_text := t; attrs := ∅; classes := []; select := fun _ => [] |}.

Definition anchor (t href : string) : Tag :=
  {| get_text := t; attrs := {[ "href" := href ]}; classes := []; select := fun _ => [] |}.

Definition page (rows : list (string * list Tag)) : Response :=
  {| soup := {| get_text := ""; attrs := ∅; classes := []; select := table rows |};
     json := None |}.

(** A world in which [server] answers every attempt, nothing was sent yet
    and the random tape is [tape_]. *)
Definition online (server : string -> option Response) (tape_ : list nat) : World :=
  {| net := fun _ url => server url; sent := 0; tape := tape_; trace := [] |}.

(** A world in which every request fails. *)
Definition offline : World :=
  {| net := fun _ _ => None; sent := 0; tape := []; trace := [] |}.






(** *** A two-page shop whose second page links back to the first. *)
Definition shop : SiteConfig :=
  {| base_url := "http://shop.test";
     categories := [("all", "/page1.html")];
     site_selectors := None |}.

Definition page1_url : string := "http://shop.test/page1.html".
Definition page2_url : string := "http://shop.test/page2.html".

Definition item (name price_ : string) : Tag :=
  {| get_text := name +:+ " " +:+ price_;
     attrs := ∅;
     classes := ["item"];
     select := table [
       (sel_get default_selectors "title" "", [leaf name]);
       (sel_get default_selectors "price" "", [leaf price_]) ] |}.

Definition shop_page (items : list Tag) (next_href : string) : Response :=
  page [(sel_get default_selectors "product_container" "", items);
        (sel_get default_selectors "pagination" "", [anchor "next" next_href])].

Definition shop_page1 : Response := shop_page [item "Kettle" "24.90"] page2_url.
Definition shop_page2 : Response := shop_page [item "Toaster" "31.50"] page1_url.

Definition shop_server (url : string) : option Response :=
  if String.eqb url page1_url then Some shop_page1
  else if String.eqb url page2_url then Some shop_page2
  else None.

Definition shop_world : World := online shop_server [].

(** The shop when its second page cannot be fetched. *)
Definition shop_world_page2_down : World :=
  online (fun url => if String.eqb url page1_url then Some shop_page1 else None) [].

(** *** A JSON list of five posts, the last one without title or name. *)
Definition post (id : Z) (title body : string) : Json :=
  JObj (list_to_map [("userId", JNum 1); ("id", JNum (inject_Z id));
                     ("title", JStr title); ("body", JStr body)]).

Definition untitled_post : Json :=
  JObj (list_to_map [("userId", JNum 1); ("id", JNum 5); ("body", JStr "quia et suscipit")]).

Definition five_posts : Json :=
  JArr [post 1 "sunt aut facere" "quia et suscipit";
        post 2 "qui est esse" "est rerum tempore";
        post 3 "ea molestias" "et iusto sed";
        post 4 "eum et est" "ullam et saepe";
        untitled_post].

Definition posts_url : string := "https://jsonplaceholder.typicode.com/posts".

Definition posts_response (body : Json) : Response :=
  {| soup := leaf ""; json := Some body |}.

Definition posts_world (body : Json) (tape_ : list nat) : World :=
  online (fun url => if String.eqb url posts_url then Some (posts_response body) else None)
         tape_.

(** *** A book whose link carries a path parameter. *)
Definition book_link : Tag :=
  {| get_text := "A Light in the Attic";
     attrs := {[ "href" := "http://books.toscrape.com/catalogue/a-light-in-the-attic_1000/index.html;v=2" ]};
     classes := [];
     select := fun _ => [] |}.

Definition book : Tag :=
  {| get_text := "A Light in the Attic 51.77 In stock";
     attrs := ∅;
     classes := ["product_pod"];
     select := table [
       ("h3 a, h4, .title", [book_link]);
       (".price_color, .price", [leaf "51.77"]);
       (".star-rating",
        [{| get_text := ""; attrs := ∅; classes := ["star-rating"; "Three"];
            select := fun _ => [] |}]);
       ("h3 a, a", [book_link]);
       (".instock.availability", [leaf "In stock"]) ] |}.

Definition travel_url : string :=
  "http://books.toscrape.com/catalogue/category/books/travel_2/index.html".

Definition travel_page : Response :=
  page [("article.product_pod, li", [book])].

Definition books_world : World :=
  online (fun url => if String.eqb url travel_url then Some travel_page else None) [].


(** *** A product API whose list sits under [products]: the first item has
    a dict as rating, the second a plain number. *)
Definition tablet_fields : gmap string Json :=
  list_to_map [("id", JNum 1); ("title", JStr "Galaxy Tab S8");
               ("description", JStr "An 11 inch tablet");
               ("price", JNum 549.5);
               ("rating", JObj (list_to_map [("rate", JNum 4.5); ("count", JNum 120)]));
               ("brand", JStr "Samsung")].

Definition phone_fields : gmap string Json :=
  list_to_map [("id", JNum 2); ("title", JStr "iPhone 9");
               ("description", JStr "An apple mobile which is nothing like apple");
               ("price", JNum 549); ("rating", JNum 4.69); ("brand", JStr "Apple")].

Definition watch_fields : gmap string Json :=
  list_to_map [("id", JNum 3); ("title", JStr "Chrono"); ("price", JNum 89)].

Definition listing : Json :=
  JObj (list_to_map [("products", JArr [JObj tablet_fields; JObj phone_fields;
                                        JObj watch_fields]);
                     ("total", JNum 3)]).

Definition dummy_products : SiteConfig :=
  {| base_url := "https://dummyjson.com";
     categories := [("products", "/products");
                    ("smartphones", "/products/category/smartphones")];
     site_selectors := Some default_selectors |}.

Definition listing_url : string := "https://dummyjson.com/products".

Definition listing_world : World :=
  online (fun url => if String.eqb url listing_url then Some (posts_response listing)
                     else None) [].

End Samples.

(** ** Notions used in the statements *)

(** The candidates of the synthesized price and rating. *)
Definition price_candidates : list Q := [19.99; 29.99; 49.99; 79.99; 99.99]%Q.
Definition rating_candidates : list Q := [3; 3.5; 4; 4.5; 5]%Q.

(** [quiet m]: running [m] sends nothing, logs nothing and leaves the
    network as it is; only the random tape can move. *)
Definition quiet {A} (m : St A) : Prop :=
  forall w, net (snd (m w)) = net w
            /\ sent (snd (m w)) = sent w
            /\ trace (snd (m w)) = trace w.

(** The page lines of a trace: page counter and URL, oldest first. *)
Fixpoint pages (tr : list Event) : list (nat * string) :=
  match tr with
  | [] => []
  | EvPage n url :: rest => (n, url) :: pages rest
  | _ :: rest => pages rest
  end.

(** [n] pages alternating between [a] and [b], counted from [k + 1]. *)
Fixpoint cycle_pages (n k : nat) (a b : string) : list (nat * string) :=
  match n with
  | O => []
  | S n' => (S k, a) :: cycle_pages n' (S k) b a
  end.

(** A server that answers [url] with [response] at every attempt. *)
Definition serves (w : World) (url : string) (response : Response) : Prop :=
  forall n, net w n url = Some response.


(** ** [generate_statistics]: the tally by category *)

(** The [for product in self.all_products] loop that fills [categories]:
    [categories[cat] = categories.get(cat, 0) + 1]. *)
Definition tally_step (categories_ : gmap string nat) (product : Product)
  : gmap string nat :=
  let cat := categorie product in
  <[cat := default 0%nat (categories_ !! cat) + 1]> categories_.

Definition category_tally (all_products_ : list Product) : gmap string nat :=
  fold_left tally_step all_products_ ∅.

(** ** The Streamlit scraper: JSON records and the page loop

    [StreamlitDiverseScraper] shares [_make_request], [_random_delay],
    [_clean_text], [_extract_price] and [_get_next_page_url] with
    [DiverseScraper], statement for statement.  Selector values are texts, as
    in [SiteConfig]: the [None] selectors of the [quotes_to_scrape] entry of
    its registry are outside the model. *)

Module StreamlitScraper.

Section Builder.

Context `{Externals}.

(** The title block of [_create_product_from_json]: the [title] key when the
    item has it, else the [name] key, else the literal. *)
Definition json_title (fields : gmap string Json) : Res string :=
  let title :=
    match fields !! "title" with
    | Some v => res_bind (json_slice 50 v) clean_json
    | None =>
        match fields !! "name" with
        | Some v => res_bind (json_slice 50 v) clean_json
        | None => Ok "Digital Item"
        end
    end in
  res_bind title (fun t => Ok (if negb (truthy t) then "Digital Item" else t)).

(** [isinstance(price, (int, float))] on a decoded value; [bool] is an
    [int]. *)
Definition is_number (v : Json) : bool :=
  match v with JNum _ | JBool _ => true | _ => false end.

(** The price block: the default of [get] is drawn before the lookup; a
    value that is not a number costs a second draw. *)
Definition json_price (fields : gmap string Json) : St Q :=
  do u <- random_uniform 9.99 99.99;
  match fields !! "price" with
  | None => ret u
  | Some (JNum q) => ret q
  | Some (JBool b) => ret (if b then 1 else 0)%Q
  | Some _ => random_uniform 9.99 99.99
  end.

(** The rating block.  [json_element.get('rating', {})] must be a dict for
    its [get] to exist; the default of that [get] is drawn before the
    lookup, and a dict found under [rate] costs a second draw. *)
Definition json_rating (fields : gmap string Json) : St (Res Json) :=
  match json_get fields "rating" (JObj ∅) with
  | JObj rating_fields =>
      do c <- rating_default;
      match json_get rating_fields "rate" (JNum c) with
      | JObj _ => do c' <- rating_default; ret (Ok (JNum c'))
      | rate => ret (Ok rate)
      end
  | _ => ret Raised
  end.

Definition _create_product_from_json (json_element : Json)
    (category_name url : string) : St (Res Streamlit.Product) :=
  match json_element with
  | JObj fields =>
      match json_title fields with
      | Raised => ret Raised
      | Ok title =>
          do price <- json_price fields;
          let description_raw :=
            res_bind (json_slice 200 (json_get fields "body" (JStr "")))
                     (fun body => Ok (json_get fields "description" body)) in
          match res_bind description_raw clean_json with
          | Raised => ret Raised
          | Ok description_ =>
              let description_ :=
                if negb (truthy description_)
                then "Digital content or media item." else description_ in
              let vendor :=
                json_get fields "brand" (json_get fields "author" (JStr "Digital Store")) in
              do rating <- json_rating fields;
              match rating with
              | Raised => ret Raised
              | Ok rating =>
                  do availability <- random_choice IN_STOCK [OUT_OF_STOCK];
                  match json_float rating with
                  | Raised => ret Raised
                  | Ok note =>
                      match clean_json vendor with
                      | Raised => ret Raised
                      | Ok vendeur_ =>
                          ret (Ok {| Streamlit.fields :=
                                       {| titre := title;
                                          prix := round2 price;
                                          disponibilite := availability;
                                          note_moyenne := note;
                                          description := description_;
                                          vendeur := vendeur_;
                                          categorie :=
                                            str_title
                                              (text (replace_char "_"%char " "%char
                                                       (chars category_name)));
                                          lien_produit := url |};
                                     Streamlit.source :=
                                       Streamlit.source_label category_name |})
                      end
                  end
              end
          end
      end
  | _ => ret Raised
  end.

(** [products.append(product)] guarded by [if product['titre']]. *)
Definition keep (products : list Streamlit.Product) (product : Streamlit.Product)
  : list Streamlit.Product :=
  if truthy (titre (Streamlit.fields product)) then products ++ [product] else products.

Fixpoint json_items (items : list Json) (category_name current_url : string)
    (products : list Streamlit.Product) : St (list Streamlit.Product) :=
  match items with
  | [] => ret products
  | item :: rest =>
      do r <- _create_product_from_json item category_name current_url;
      match r with
      | Ok product => json_items rest category_name current_url (keep products product)
      | Raised => ret products
      end
  end.

(** [json_data = json_data['products']] when the root is a dict with that
    key. *)
Definition unwrap_products (json_data : Json) : Json :=
  match json_data with
  | JObj fields => default json_data (fields !! "products")
  | _ => json_data
  end.

(** The JSON branch of the page loop, up to its [break]. *)
Definition json_page (response : Response) (category_name current_url : string)
    (products : list Streamlit.Product) : St (list Streamlit.Product) :=
  match json response with
  | None => ret products
  | Some json_data =>
      match unwrap_products json_data with
      | JArr items => json_items items category_name current_url products
      | json_data =>
          do r <- _create_product_from_json json_data category_name current_url;
          match r with
          | Ok product => ret (keep products product)
          | Raised => ret products
          end
      end
  end.

Fixpoint extract_elements (product_elements : list Tag)
    (category_name current_url : string) (selectors : Selectors)
    (products : list Streamlit.Product) : St (list Streamlit.Product) :=
  match product_elements with
  | [] => ret products
  | product_elem :: rest =>
      do r <- Streamlit._extract_product_data product_elem category_name current_url
                                              selectors;
      extract_elements rest category_name current_url selectors
        (match r with Ok product_data => keep products product_data | Raised => products end)
  end.

(** ['jsonplaceholder' in site_name or 'dummy_products' in site_name or
    'fake_store' in site_name] *)
Definition is_json_site (site_name : string) : bool :=
  contains "jsonplaceholder" site_name
  || contains "dummy_products" site_name
  || contains "fake_store" site_name.

(** The page loop of [StreamlitDiverseScraper.scrape_site_category]; the
    session log and the progress bar are not part of the model. *)
Fixpoint page_loop (fuel : nat) (site_name category_name : string)
    (selectors : Selectors) (max_pages : nat)
    (current_url : string) (page_count : nat) (products : list Streamlit.Product)
  : St (Res (list Streamlit.Product)) :=
  match fuel with
  | O => ret (Ok products)
  | S fuel' =>
      if truthy current_url && (page_count <? max_pages)%nat then
        let page_count := S page_count in
        do response <- _make_request current_url;
        match response with
        | None => ret (Ok products)
        | Some response =>
            if is_json_site site_name then
              do products <- json_page response category_name current_url products;
              ret (Ok products)
            else
              let soup_ := soup response in
              match select_containers soup_ selectors with
              | [] => ret (Ok products)
              | product_elements =>
                  do products <-
                    extract_elements product_elements
                      (site_name +:+ "_" +:+ category_name) current_url selectors products;
                  match _get_next_page_url soup_ current_url selectors with
                  | Raised => ret Raised
                  | Ok None => ret (Ok products)
                  | Ok (Some next_url) =>
                      if String.eqb next_url current_url || negb (truthy next_url)
                      then ret (Ok products)
                      else
                        do _ <- _random_delay 1 2;
                        page_loop fuel' site_name category_name selectors max_pages
                                  next_url page_count products
                  end
              end
        end
      else ret (Ok products)
  end.

Definition scrape_site_category (site_name : string) (site_config : SiteConfig)
    (category_name category_path : string) (max_pages : nat)
  : St (Res (list Streamlit.Product)) :=
  let url := base_url site_config +:+ category_path in
  let selectors := default default_selectors (site_selectors site_config) in
  page_loop max_pages site_name category_name selectors max_pages url 0 [].

End Builder.

(** The list comprehension behind the delete button:
    [[product for i, product in enumerate(scraped_products)
      if i not in indices_to_remove]]. *)
Fixpoint remove_rows_from {A} (i : nat) (indices_to_remove : list nat)
    (scraped_products : list A) : list A :=
  match scraped_products with
  | [] => []
  | product :: rest =>
      if bool_decide (i ∈ indices_to_remove)
      then remove_rows_from (S i) indices_to_remove rest
      else product :: remove_rows_from (S i) indices_to_remove rest
  end.

Definition remove_rows {A} (indices_to_remove : list nat) (scraped_products : list A)
  : list A :=
  remove_rows_from 0 indices_to_remove scraped_products.

(** The metric shown for a site in the scraping tab:
    [len([p for p in scraped_products if p.get('source') == site_key])]. *)
Definition site_products (scraped_products : list Streamlit.Product) (site_key : string)
  : nat :=
  List.length
    (List.filter (fun p => String.eqb (Streamlit.source p) site_key) scraped_products).

(** The count shown on a category button:
    [len([p for p in scraped_products
          if f"{site_key}_{cat_name}" in p.get('source', '')])]. *)
Definition cat_products (scraped_products : list Streamlit.Product)
    (site_key cat_name : string) : nat :=
  List.length
    (List.filter (fun p => contains (site_key +:+ "_" +:+ cat_name) (Streamlit.source p))
                 scraped_products).

(** A record returned by some call of [scrape_site_category]. *)
Definition crawled `{Externals} (p : Streamlit.Product) : Prop :=
  exists site_name site_config category_name category_path max_pages w products,
    fst (scrape_site_category site_name site_config category_name category_path
                              max_pages w) = Ok products
    /\ p ∈ products.

End StreamlitScraper.

(** ** Further notions used in the statements *)

(** The seconds slept in a trace. *)
Fixpoint slept (tr : list Event) : Q :=
  match tr with
  | [] => 0
  | EvSleep d :: rest => d + slept rest
  | _ :: rest => slept rest
  end%Q.

(** Every page line that follows another event follows a sleep of one to
    three seconds. *)
Fixpoint paced (tr : list Event) : Prop :=
  match tr with
  | [] => True
  | e :: rest =>
      match rest with
      | EvPage _ _ :: _ =>
          (exists d, e = EvSleep d /\ (1 <= d)%Q /\ (d <= 3)%Q) /\ paced rest
      | _ => paced rest
      end
  end.

(** A pagination link [_get_next_page_url] accepts: it has an [href] and
    its cleaned, lower-cased text contains one of the next words. *)
Definition is_next_link (link : Tag) : bool :=
  match attrs link !! "href" with
  | Some _ =>
      existsb (fun word => contains word (lower (_clean_text (get_text link)))) next_words
  | None => false
  end.

(** No two spaces side by side. *)
Fixpoint single_spaced (l : list ascii) : Prop :=
  match l with
  | [] => True
  | a :: rest =>
      match rest with
      | b :: _ => ~ (a = " "%char /\ b = " "%char) /\ single_spaced rest
      | [] => True
      end
  end.

(** Two worlds that differ in their logs only. *)
Definition same_inputs (w1 w2 : World) : Prop :=
  net w1 = net w2 /\ sent w1 = sent w2 /\ tape w1 = tape w2.

(** [blind m]: what [m] returns, fetches and draws does not depend on the
    log. *)
Definition blind {A} (m : St A) : Prop :=
  forall w1 w2,
    same_inputs w1 w2 ->
    fst (m w1) = fst (m w2) /\ same_inputs (snd (m w1)) (snd (m w2)).

(** The back-off slept when the attempts [a, a + 1, ..., a + m - 1] of
    [retries] all fail. *)
Definition backoff (a m retries : nat) : Z :=
  match m with
  | O => 0
  | S _ => 2 ^ Z.of_nat (retries - 1) - 2 ^ Z.of_nat a
  end%Z.

(** The first character, if any, is not whitespace. *)
Definition starts_clean (l : list ascii) : Prop :=
  match l with c :: _ => isspace c = false | [] => True end.

(** The number of products of category [cat]. *)
Definition count_category (cat : string) (products : list Product) : nat :=
  List.length (List.filter (fun p => String.eqb (categorie p) cat) products).

(** The sum of the counts of a tally. *)
Definition tally_total (categories_ : gmap string nat) : nat :=
  map_fold (fun _ n acc => n + acc) 0 categories_.

(** * Properties *)

(** ** Text: what [_clean_text] leaves in a text *)

Section TextFacts.

Implicit Types (l : list ascii) (c a b : ascii) (s : string).

Lemma chars_text l : chars (text l) = l.
Proof. apply list_ascii_of_string_of_list_ascii. Qed.

Lemma text_chars s : text (chars s) = s.
Proof. apply string_of_list_ascii_of_string. Qed.

Lemma length_text l : String.length (text l) = List.length l.
Proof. induction l as [|c l IH]; simpl; [reflexivity | now rewrite IH]. Qed.

Lemma chars_append s1 s2 : chars (s1 +:+ s2) = chars s1 ++ chars s2.
Proof. induction s1 as [|c s1 IH]; simpl; [reflexivity | now rewrite IH]. Qed.

Lemma ch_eqb_eq a b : ch_eqb a b = true <-> a = b.
Proof. apply Ascii.eqb_eq. Qed.

Lemma ch_eqb_neq a b : ch_eqb a b = false <-> a <> b.
Proof. apply Ascii.eqb_neq. Qed.

Lemma truthy_false s : truthy s = false <-> s = "".
Proof. destruct s; simpl; split; intros; congruence. Qed.

Lemma truthy_true s : truthy s = true <-> s <> "".
Proof. destruct s; simpl; split; intros; congruence. Qed.

Lemma lstrip_incl l c : c ∈ lstrip l -> c ∈ l.
Proof.
  induction l as [|x l IH]; simpl; [easy|].
  destruct (isspace x); [|easy].
  intros Hc. apply elem_of_cons. right. now apply IH.
Qed.

Lemma elem_of_rev l c : c ∈ rev l <-> c ∈ l.
Proof. rewrite !list_elem_of_In. symmetry. apply in_rev. Qed.

Lemma strip_incl l c : c ∈ strip l -> c ∈ l.
Proof.
  unfold strip. rewrite elem_of_rev. intros Hc.
  apply lstrip_incl, elem_of_rev, lstrip_incl in Hc. exact Hc.
Qed.


(** No whitespace character other than the space survives the collapse. *)
Lemma sub_ws_space l c in_run : c ∈ sub_ws in_run l -> isspace c = true -> c = " "%char.
Proof.
  revert in_run. induction l as [|x l IH]; simpl; intros in_run Hc Hs.
  - now apply elem_of_nil in Hc.
  - destruct (isspace x) eqn:Hx.
    + destruct in_run; [now apply (IH true)|].
      apply elem_of_cons in Hc as [->|Hc]; [reflexivity | now apply (IH true)].
    + apply elem_of_cons in Hc as [->|Hc]; [congruence | now apply (IH false)].
Qed.

Lemma replace_char_incl a b l c : c ∈ replace_char a b l -> c ∈ l \/ c = b.
Proof.
  unfold replace_char. rewrite list_elem_of_In, in_map_iff.
  intros (x & Hx & Hin). destruct (ch_eqb x a); subst; [now right|].
  left. now apply list_elem_of_In.
Qed.

Lemma replace_char_gone a b l : a <> b -> a ∉ replace_char a b l.
Proof.
  intros Hab. unfold replace_char. rewrite list_elem_of_In, in_map_iff.
  intros (x & Hx & _). destruct (ch_eqb x a) eqn:E; [congruence|].
  apply ch_eqb_neq in E. congruence.
Qed.

Lemma replace_char_absent a b l c : c ∉ l -> c <> b -> c ∉ replace_char a b l.
Proof. intros Hl Hb Hc. apply replace_char_incl in Hc as [?|?]; tauto. Qed.


Lemma take_incl {A} n (l : list A) x : x ∈ take n l -> x ∈ l.
Proof. apply subseteq_take. Qed.


Lemma clean_text_length s : (String.length (_clean_text s) <= 300)%nat.
Proof.
  unfold _clean_text. destruct (truthy s); simpl; [|lia].
  rewrite length_text, length_take. lia.
Qed.

Lemma clean_text_no_semicolon s : ";"%char ∉ chars (_clean_text s).
Proof.
  unfold _clean_text. destruct (truthy s); simpl; [|apply not_elem_of_nil].
  rewrite chars_text. intros Hc. apply take_incl in Hc. revert Hc.
  apply replace_char_absent; [|discriminate].
  apply replace_char_absent; [|discriminate].
  now apply replace_char_gone.
Qed.



End TextFacts.

(** ** Random draws *)

Section DrawFacts.

Lemma random_choice_elem {A} (x : A) (xs : list A) (w : World) :
  fst (random_choice x xs w) ∈ x :: xs.
Proof.
  unfold random_choice, bind, draw, ret.
  destruct (tape w) as [|r rest]; cbn [fst];
    apply list_elem_of_In, nth_In; cbn [List.length];
    apply Nat.mod_upper_bound; discriminate.
Qed.

Lemma price_default_elem w : fst (price_default w) ∈ price_candidates.
Proof. apply random_choice_elem. Qed.

Lemma rating_default_elem w : fst (rating_default w) ∈ rating_candidates.
Proof. apply random_choice_elem. Qed.

End DrawFacts.

(** ** Price extraction *)

Section PriceFacts.



End PriceFacts.


(** ** The fetch layer *)

Section FetchFacts.

Lemma advance_advance n m es es' w :
  advance n es (advance m es' w) = advance (n + m) (es' ++ es) w.
Proof.
  unfold advance; cbn. f_equal; [lia | now rewrite app_assoc].
Qed.

Lemma emit_advance e w : emit e w = (tt, advance 0 [e] w).
Proof. reflexivity. Qed.

Lemma requests_get_advance url w :
  requests_get url w = (net w (sent w) url, advance 1 [EvGet url] w).
Proof. reflexivity. Qed.

(** The four ways [_make_request] can go. *)
Lemma make_request_cases url w :
  _make_request url w =
  match net w (sent w) url with
  | Some response => (Some response, advance 1 [EvGet url] w)
  | None =>
      match net w (S (sent w)) url with
      | Some response =>
          (Some response, advance 2 [EvGet url; EvSleep 1; EvGet url] w)
      | None =>
          let es := [EvGet url; EvSleep 1; EvGet url; EvSleep 2; EvGet url] in
          match net w (S (S (sent w))) url with
          | Some response => (Some response, advance 3 es w)
          | None => (None, advance 3 es w)
          end
      end
  end.
Proof.
  unfold _make_request, _make_request_with, retries_default.
  cbn [seq attempt_loop]. unfold bind at 1. rewrite requests_get_advance.
  destruct (net w (sent w) url) as [r0|]; [reflexivity|].
  cbn [Nat.ltb Nat.leb Nat.sub]. unfold bind at 1, time_sleep. rewrite emit_advance.
  unfold bind at 1. rewrite requests_get_advance, !advance_advance. cbn [advance net sent Nat.add].
  destruct (net w (S (sent w)) url) as [r1|]; [reflexivity|].
  unfold bind at 1. rewrite emit_advance.
  unfold bind at 1. rewrite requests_get_advance, !advance_advance. cbn [advance net sent Nat.add].
  destruct (net w (S (S (sent w))) url) as [r2|]; [reflexivity|].
  unfold bind, ret. reflexivity.
Qed.

(** A page whose three attempts fail ends the loop. *)
Lemma page_loop_fetch_failure `{Externals} fuel site_name category_name selectors
    max_pages url page_count products w :
  truthy url = true -> (page_count < max_pages)%nat ->
  net w (sent w) url = None ->
  net w (S (sent w)) url = None ->
  net w (S (S (sent w))) url = None ->
  page_loop (S fuel) site_name category_name selectors max_pages
            url page_count products w
  = (Ok products,
     advance 3 [EvPage (S page_count) url;
                EvGet url; EvSleep 1; EvGet url; EvSleep 2; EvGet url] w).
Proof.
  intros Hurl Hlt E0 E1 E2. apply Nat.ltb_lt in Hlt.
  cbn [page_loop]. rewrite Hurl, Hlt. cbn [andb].
  unfold bind at 1. rewrite emit_advance.
  unfold bind at 1. rewrite make_request_cases. cbn [advance net sent Nat.add].
  rewrite E0, E1, E2. cbv zeta. rewrite advance_advance. reflexivity.
Qed.

End FetchFacts.

(** C8. [_make_request] makes at most three attempts: it returns the response
    of the first attempt that succeeds, sleeps 1 second after a failed first
    attempt and 2 seconds after a failed second one, never sleeps after the
    third, and returns [None] exactly when the three attempts fail.  When
    that happens inside the page loop, the loop is left at once and the crawl
    returns the products collected so far, unchanged. *)
Theorem make_request_three_attempts `{Externals} (url : string) (w : World) :
  let a0 := net w (sent w) url in
  let a1 := net w (S (sent w)) url in
  let a2 := net w (S (S (sent w))) url in
  let r := fst (_make_request url w) in
  let events := drop (List.length (trace w)) (trace (snd (_make_request url w))) in
  trace (snd (_make_request url w)) = trace w ++ events
  /\ match a0, a1, a2 with
     | Some response, _, _ =>
         r = Some response /\ events = [EvGet url]
     | None, Some response, _ =>
         r = Some response /\ events = [EvGet url; EvSleep 1; EvGet url]
     | None, None, Some response =>
         r = Some response
         /\ events = [EvGet url; EvSleep 1; EvGet url; EvSleep 2; EvGet url]
     | None, None, None =>
         r = None
         /\ events = [EvGet url; EvSleep 1; EvGet url; EvSleep 2; EvGet url]
     end
  /\ (r = None <-> a0 = None /\ a1 = None /\ a2 = None)
  /\ forall fuel site_name category_name selectors max_pages page_count products,
       truthy url = true -> (page_count < max_pages)%nat ->
       a0 = None -> a1 = None -> a2 = None ->
       let end_ := page_loop (S fuel) site_name category_name selectors max_pages
                             url page_count products w in
       fst end_ = Ok products
       /\ trace (snd end_)
          = trace w ++ [EvPage (S page_count) url;
                        EvGet url; EvSleep 1; EvGet url; EvSleep 2; EvGet url].
Proof.
  cbv zeta. rewrite make_request_cases.
  destruct (net w (sent w) url) as [r0|] eqn:E0;
    [|destruct (net w (S (sent w)) url) as [r1|] eqn:E1;
      [|destruct (net w (S (S (sent w))) url) as [r2|] eqn:E2]];
    cbn [fst snd advance trace]; rewrite drop_app_length;
    (split; [reflexivity|]); (split; [split; reflexivity|]);
    (split; [split; [discriminate || (intros _; repeat split; reflexivity)
                    | intros (? & ? & ?); discriminate || reflexivity]|]);
    intros fuel site_name category_name selectors max_pages page_count products
           Hurl Hlt H0 H1 H2; try discriminate.
  rewrite (page_loop_fetch_failure fuel site_name category_name selectors max_pages
             url page_count products w Hurl Hlt E0 E1 E2).
  split; reflexivity.
Qed.

(** ** Computations that only draw random numbers *)

Section QuietFacts.

Context `{Externals}.

Lemma quiet_ret {A} (a : A) : quiet (ret a).
Proof. intros w. repeat split. Qed.

Lemma quiet_bind {A B} (m : St A) (k : A -> St B) :
  quiet m -> (forall a, quiet (k a)) -> quiet (bind m k).
Proof.
  intros Hm Hk w. unfold bind. specialize (Hm w).
  destruct (m w) as [a w1]. specialize (Hk a w1). cbn [snd] in Hm.
  destruct Hm as (Hm1 & Hm2 & Hm3), Hk as (Hk1 & Hk2 & Hk3).
  rewrite Hk1, Hk2, Hk3. auto.
Qed.

Lemma quiet_draw : quiet draw.
Proof. intros w. unfold draw. destruct (tape w); repeat split. Qed.

Lemma quiet_random_choice {A} (x : A) xs : quiet (random_choice x xs).
Proof. apply quiet_bind; [apply quiet_draw | intros; apply quiet_ret]. Qed.

Lemma quiet_random_uniform a b : quiet (random_uniform a b).
Proof. apply quiet_bind; [apply quiet_draw | intros; apply quiet_ret]. Qed.

Lemma quiet_extract_price e : quiet (_extract_price e).
Proof.
  unfold _extract_price, price_default. destruct e as [e|].
  - destruct (re_search_number _); [destruct (float_of_str _)|];
      first [apply quiet_ret | apply quiet_random_choice].
  - apply quiet_random_choice.
Qed.

Lemma quiet_extract_rating e : quiet (extract_rating e).
Proof.
  unfold extract_rating. destruct e as [e|]; [|apply quiet_ret].
  destruct (bool_decide _); [apply quiet_ret|].
  apply quiet_bind; [apply quiet_extract_price | intros; apply quiet_ret].
Qed.

Lemma quiet_extract_product_data e category_name page_url selectors :
  quiet (_extract_product_data e category_name page_url selectors).
Proof.
  unfold _extract_product_data.
  apply quiet_bind; [apply quiet_extract_price | intros price].
  apply quiet_bind; [apply quiet_extract_rating | intros rating].
  apply quiet_bind.
  - destruct rating; [apply quiet_ret | apply quiet_random_choice].
  - intros r. destruct (match select_one e _ with Some _ => _ | None => _ end);
      apply quiet_ret.
Qed.

Lemma quiet_create_product_from_json j category_name url :
  quiet (_create_product_from_json j category_name url).
Proof.
  unfold _create_product_from_json.
  destruct j; try apply quiet_ret.
  destruct (res_bind _ _); [|apply quiet_ret].
  apply quiet_bind; [apply quiet_random_uniform | intros price].
  destruct (match fields !! "id" with Some _ => _ | None => _ end); [|apply quiet_ret].
  destruct (res_bind _ _); [|apply quiet_ret].
  apply quiet_bind; [apply quiet_random_choice | intros av].
  apply quiet_bind; [apply quiet_random_choice | intros rt].
  apply quiet_ret.
Qed.

Lemma quiet_json_items items category_name url products :
  quiet (json_items items category_name url products).
Proof.
  revert products. induction items as [|item items IH]; intros products; cbn [json_items].
  - apply quiet_ret.
  - apply quiet_bind; [apply quiet_create_product_from_json | intros [p|]].
    + apply IH.
    + apply quiet_ret.
Qed.

Lemma quiet_json_page response category_name url products :
  quiet (json_page response category_name url products).
Proof.
  unfold json_page. destruct (json response) as [j|]; [|apply quiet_ret].
  destruct j;
    first [ apply quiet_json_items
          | apply quiet_bind;
            [apply quiet_create_product_from_json | intros [p|]; apply quiet_ret] ].
Qed.

Lemma quiet_extract_elements els category_name url selectors products :
  quiet (extract_elements els category_name url selectors products).
Proof.
  revert products. induction els as [|e els IH]; intros products; cbn [extract_elements].
  - apply quiet_ret.
  - apply quiet_bind; [apply quiet_extract_product_data | intros r; apply IH].
Qed.

End QuietFacts.

(** ** Numbers read from a text are not negative *)

Section NumberFacts.

Local Open Scope Q_scope.

Lemma span_fst_all p l : Forall (fun c => p c = true) (fst (span p l)).
Proof.
  induction l as [|c l IH]; cbn [span]; [constructor|].
  destruct (p c) eqn:Hc; [|constructor].
  destruct (span p l) as [a b]. constructor; assumption.
Qed.

Lemma digit_val_nonneg c : isdigit c = true -> (0 <= digit_val c)%Z.
Proof.
  unfold isdigit, digit_val. intros Hc.
  apply andb_true_iff in Hc as [Hlo _]. apply N.leb_le in Hlo. lia.
Qed.

Lemma digits_fold_nonneg ds acc :
  Forall (fun c => isdigit c = true) ds -> (0 <= acc)%Z ->
  (0 <= fold_left (fun a c => 10 * a + digit_val c) ds acc)%Z.
Proof.
  intros Hds. revert acc. induction Hds as [|c ds Hc _ IH]; intros acc Hacc; cbn [fold_left].
  - exact Hacc.
  - apply IH. pose proof (digit_val_nonneg c Hc). lia.
Qed.

Lemma digits_val_nonneg ds :
  Forall (fun c => isdigit c = true) ds -> (0 <= digits_val ds)%Z.
Proof. intros Hds. now apply digits_fold_nonneg. Qed.

Lemma Qmake_nonneg n d : (0 <= n)%Z -> 0 <= n # d.
Proof. intros Hn. unfold Qle. cbn. lia. Qed.

Lemma unsigned_decimal_nonneg l q : unsigned_decimal l = Some q -> 0 <= q.
Proof.
  unfold unsigned_decimal.
  pose proof (span_fst_all isdigit l) as Hip.
  destruct (span isdigit l) as [ip rest]. cbn [fst] in Hip.
  destruct rest as [|c fp].
  - destruct ip; [discriminate|]. intros [= <-].
    now apply Qmake_nonneg, digits_val_nonneg.
  - destruct (ch_eqb c "."); [|discriminate].
    destruct (forallb isdigit fp) eqn:Hfp; [|discriminate].
    destruct (ip ++ fp) eqn:Happ; [discriminate|]. intros [= <-].
    apply Qmake_nonneg, digits_val_nonneg. rewrite <- Happ.
    apply Forall_app. split; [exact Hip|].
    apply Forall_forall. intros x Hx. rewrite forallb_forall in Hfp.
    now apply Hfp, list_elem_of_In.
Qed.

(** [float] of a text without a minus sign is not negative. *)
Lemma float_of_str_nonneg s q :
  "-"%char ∉ chars s -> float_of_str s = Some q -> 0 <= q.
Proof.
  unfold float_of_str. intros Hminus.
  destruct (strip (chars s)) as [|c r] eqn:Hs; [discriminate|].
  assert (Hc : c <> "-"%char).
  { intros ->. apply Hminus, strip_incl. rewrite Hs. apply elem_of_cons. now left. }
  apply ch_eqb_neq in Hc. rewrite Hc.
  destruct (ch_eqb c "+"); apply unsigned_decimal_nonneg.
Qed.

Lemma number_at_chars l c :
  c ∈ number_at l -> digit_or_comma c = true \/ c = "."%char.
Proof.
  unfold number_at.
  pose proof (span_fst_all digit_or_comma l) as Ha.
  destruct (span digit_or_comma l) as [a rest]. cbn [fst] in Ha.
  rewrite Forall_forall in Ha.
  destruct rest as [|d r]; [intros Hc; left; now apply Ha|].
  destruct (ch_eqb d ".") eqn:Hd; [|intros Hc; left; now apply Ha].
  apply ch_eqb_eq in Hd. subst d.
  rewrite elem_of_app, elem_of_cons.
  intros [Hc|[->|Hc]]; [left; now apply Ha | now right | left].
  pose proof (span_fst_all isdigit r) as Hr. rewrite Forall_forall in Hr.
  unfold digit_or_comma. rewrite (Hr _ Hc). reflexivity.
Qed.

Lemma re_search_number_chars l m c :
  re_search_number l = Some m -> c ∈ m -> digit_or_comma c = true \/ c = "."%char.
Proof.
  induction l as [|x l IH]; cbn [re_search_number]; [discriminate|].
  destruct (digit_or_comma x); [|exact IH].
  intros [= <-]. apply number_at_chars.
Qed.

Lemma In_candidates_pos q : q ∈ price_candidates -> 0 <= q.
Proof.
  unfold price_candidates. rewrite !elem_of_cons, elem_of_nil.
  intros [->|[->|[->|[->|[->|[]]]]]]; discriminate.
Qed.

Lemma In_rating_candidates q : q ∈ rating_candidates -> 3 <= q /\ q <= 5.
Proof.
  unfold rating_candidates. rewrite !elem_of_cons, elem_of_nil.
  intros [->|[->|[->|[->|[->|[]]]]]]; split; discriminate.
Qed.

(** Whatever the element, the number [_extract_price] returns is not
    negative. *)
Lemma extract_price_nonneg e w : 0 <= fst (_extract_price e w).
Proof.
  unfold _extract_price. destruct e as [e|].
  2:{ apply In_candidates_pos, price_default_elem. }
  destruct (re_search_number _) as [m|] eqn:Hm.
  2:{ apply In_candidates_pos, price_default_elem. }
  destruct (float_of_str (text m)) as [q|] eqn:Hq.
  2:{ apply In_candidates_pos, price_default_elem. }
  cbn [ret fst]. apply (float_of_str_nonneg (text m)); [|exact Hq].
  rewrite chars_text. intros Hin.
  destruct (re_search_number_chars _ _ _ Hm Hin) as [Hd|Hd]; discriminate.
Qed.

Lemma star_rating_range cls q : star_rating cls = Some q -> 1 <= q /\ q <= 5.
Proof.
  induction cls as [|c cls IH]; cbn [star_rating]; [discriminate|].
  unfold rating_map.
  repeat (destruct (String.eqb c _); [intros [= <-]; split; discriminate|]).
  exact IH.
Qed.

End NumberFacts.

(** ** What one record holds *)

Section RecordFacts.

Context `{Externals}.

Local Open Scope Q_scope.


Lemma extract_rating_range r w q :
  fst (extract_rating r w) = Some q ->
  0 <= q
  /\ (match r with Some e => "star-rating" ∈ classes e | None => True end ->
      1 <= q /\ q <= 5).
Proof.
  unfold extract_rating. destruct r as [e|]; [|discriminate].
  destruct (bool_decide ("star-rating" ∈ classes e)) eqn:Hstar.
  - cbn [ret fst]. intros Hq. apply star_rating_range in Hq as [Hlo Hhi].
    split; [|tauto]. apply Qle_trans with 1; [discriminate | exact Hlo].
  - apply bool_decide_eq_false in Hstar. unfold bind.
    pose proof (extract_price_nonneg (Some e) w) as Hp.
    destruct (_extract_price (Some e) w) as [x w1]. cbn [ret fst] in *.
    intros [= <-]. split; [exact Hp | tauto].
Qed.

(** The fields of a record built from a container element. *)
Lemma extract_product_data_fields e category_name page_url selectors w p :
  fst (_extract_product_data e category_name page_url selectors w) = Ok p ->
  let rating_elem := select_one e (sel_get selectors "rating" ".rating") in
  let d := _clean_text (text_of (select_one e (sel_get selectors "description" ".description")) "") in
  titre p = extract_title e (select_one e (sel_get selectors "title" ".title"))
  /\ 0 <= prix p
  /\ disponibilite p
     = classify_availability
         (select_one e (sel_get selectors "availability" ".availability"))
  /\ 0 <= note_moyenne p
  /\ (match rating_elem with Some r => "star-rating" ∈ classes r | None => True end ->
      1 <= note_moyenne p /\ note_moyenne p <= 5)
  /\ description p
     = (if (200 <? String.length d)%nat then slice_to 200 d +:+ "..." else d)
  /\ vendeur p
     = _clean_text (text_of (select_one e (sel_get selectors "vendor" ".vendor")) "N/A").
Proof.
  unfold _extract_product_data. unfold bind.
  pose proof (extract_price_nonneg (select_one e (sel_get selectors "price" ".price")) w) as Hp.
  destruct (_extract_price _ w) as [price w1]. cbn [fst] in Hp.
  pose proof (extract_rating_range (select_one e (sel_get selectors "rating" ".rating")) w1) as Hr.
  destruct (extract_rating _ w1) as [rating w2]. cbn [fst] in Hr.
  assert (Hrating : forall x w3,
             (match rating with Some r => ret r | None => rating_default end) w2 = (x, w3) ->
             0 <= x
             /\ (match select_one e (sel_get selectors "rating" ".rating") with
                 | Some r => "star-rating" ∈ classes r
                 | None => True
                 end -> 1 <= x /\ x <= 5)).
  { intros x w3. destruct rating as [r|].
    - intros [= <- <-]. now apply Hr.
    - intros Hx. pose proof (rating_default_elem w2) as Hin. rewrite Hx in Hin.
      apply In_rating_candidates in Hin as [Hlo Hhi]. cbn [fst] in *.
      split; [|intros _; split; [|exact Hhi]];
        (eapply Qle_trans; [|exact Hlo]); discriminate. }
  destruct ((match rating with Some r => ret r | None => rating_default end) w2)
    as [x w3] eqn:Hx.
  specialize (Hrating x w3 eq_refl).
  destruct (match select_one e (sel_get selectors "link" "a") with
            | Some _ => _ | None => _ end) as [link|]; [|discriminate].
  cbn [ret fst]. intros [= <-]. cbn.
  repeat split; try tauto; exact Hp.
Qed.

(** A JSON value that can be sliced and cleaned gives a cleaned text. *)
Lemma json_text_no_semicolon n v t :
  res_bind (json_slice n v) clean_json = Ok t -> ";"%char ∉ chars t.
Proof.
  destruct v; cbn [json_slice res_bind]; try discriminate; unfold clean_json;
    cbn [json_truthy].
  - destruct (negb _); intros [= <-];
      [apply not_elem_of_nil | apply clean_text_no_semicolon].
  - destruct (take n items); cbn [negb]; [|discriminate].
    intros [= <-]. apply not_elem_of_nil.
Qed.

(** The fields of a record built from a JSON item. *)
Lemma create_product_from_json_fields j category_name url w p :
  fst (_create_product_from_json j category_name url w) = Ok p ->
  titre p <> ""
  /\ (disponibilite p = IN_STOCK \/ disponibilite p = OUT_OF_STOCK)
  /\ note_moyenne p ∈ rating_candidates
  /\ (";"%char ∉ chars (titre p))
  /\ (";"%char ∉ chars (description p))
  /\ vendeur p = "Digital Store"
  /\ categorie p = "Digital Content"
  /\ lien_produit p = url.
Proof.
  unfold _create_product_from_json.
  destruct j as [| | | | |fields]; try discriminate.
  destruct (res_bind (json_slice 50 _) clean_json) as [title|] eqn:Ht; [|discriminate].
  unfold bind at 1. destruct (random_uniform _ _ w) as [u w1].
  destruct (match fields !! "id" with Some _ => _ | None => _ end) as [price|];
    [|discriminate].
  destruct (res_bind (json_slice 200 _) clean_json) as [d|] eqn:Hd; [|discriminate].
  unfold bind at 1.
  pose proof (random_choice_elem IN_STOCK [OUT_OF_STOCK] w1) as Hav.
  destruct (random_choice IN_STOCK [OUT_OF_STOCK] w1) as [av w2]. cbn [fst] in Hav.
  unfold bind at 1.
  pose proof (rating_default_elem w2) as Hrt.
  destruct (rating_default w2) as [rt w3]. cbn [fst] in Hrt.
  cbn [ret fst]. intros [= <-]. cbn.
  pose proof json_text_no_semicolon as Hclean.
  repeat split.
  - destruct (truthy title) eqn:E; cbn [negb]; [now apply truthy_true | discriminate].
  - rewrite !elem_of_cons, elem_of_nil in Hav. tauto.
  - exact Hrt.
  - destruct (truthy title); cbn [negb]; [now apply (Hclean _ _ _ Ht)|].
    rewrite list_elem_of_In. cbn. intuition discriminate.
  - destruct (truthy d); cbn [negb]; [now apply (Hclean _ _ _ Hd)|].
    rewrite list_elem_of_In. cbn. intuition discriminate.
Qed.

End RecordFacts.

(** ** Invariants of the page loop *)

Section LoopInvariant.

Context `{Externals}.

Variable P : Product -> Prop.

Lemma keep_Forall products p :
  Forall P products -> (truthy (titre p) = true -> P p) -> Forall P (keep products p).
Proof.
  intros Hps Hp. unfold keep. destruct (truthy (titre p)); [|exact Hps].
  apply Forall_app. split; [exact Hps|]. constructor; [now apply Hp | constructor].
Qed.

Lemma extract_elements_Forall category_name url selectors :
  (forall e w p, fst (_extract_product_data e category_name url selectors w) = Ok p ->
                 truthy (titre p) = true -> P p) ->
  forall els products w,
    Forall P products ->
    Forall P (fst (extract_elements els category_name url selectors products w)).
Proof.
  intros HP els. induction els as [|e els IH]; intros products w Hps;
    cbn [extract_elements].
  - exact Hps.
  - unfold bind. specialize (HP e w).
    destruct (_extract_product_data e category_name url selectors w) as [r w1].
    apply IH. destruct r as [p|]; [|exact Hps].
    apply keep_Forall; [exact Hps|]. now apply HP.
Qed.

Lemma json_items_Forall category_name url :
  (forall j w p, fst (_create_product_from_json j category_name url w) = Ok p ->
                 truthy (titre p) = true -> P p) ->
  forall items products w,
    Forall P products ->
    Forall P (fst (json_items items category_name url products w)).
Proof.
  intros HP items. induction items as [|j items IH]; intros products w Hps;
    cbn [json_items].
  - exact Hps.
  - unfold bind. specialize (HP j w).
    destruct (_create_product_from_json j category_name url w) as [[p|] w1].
    + apply IH. apply keep_Forall; [exact Hps|]. now apply HP.
    + exact Hps.
Qed.

Lemma json_page_Forall response category_name url :
  (forall j w p, fst (_create_product_from_json j category_name url w) = Ok p ->
                 truthy (titre p) = true -> P p) ->
  forall products w,
    Forall P products ->
    Forall P (fst (json_page response category_name url products w)).
Proof.
  intros HP products w Hps. unfold json_page.
  destruct (json response) as [j|]; [|exact Hps].
  assert (Hone : forall j0,
             Forall P (fst ((do r <- _create_product_from_json j0 category_name url;
                             match r with
                             | Ok product => ret (keep products product)
                             | Raised => ret products
                             end) w))).
  { intros j0. unfold bind. specialize (HP j0 w).
    destruct (_create_product_from_json j0 category_name url w) as [[p|] w1];
      cbn [ret fst]; [|exact Hps].
    apply keep_Forall; [exact Hps|]. now apply HP. }
  destruct j; first [apply Hone | now apply json_items_Forall].
Qed.

(** Whatever holds of every kept record when it is built, holds of every
    record a crawl returns. *)
Lemma page_loop_Forall site_name category_name selectors max_pages :
  (is_json_site site_name = false ->
   forall e url w p,
     fst (_extract_product_data e (site_name +:+ "_" +:+ category_name) url selectors w)
     = Ok p ->
     truthy (titre p) = true -> P p) ->
  (is_json_site site_name = true ->
   forall j url w p,
     fst (_create_product_from_json j category_name url w) = Ok p ->
     truthy (titre p) = true -> P p) ->
  forall fuel url page_count products w res,
    Forall P products ->
    fst (page_loop fuel site_name category_name selectors max_pages
                   url page_count products w) = Ok res ->
    Forall P res.
Proof.
  intros HM HJ fuel. induction fuel as [|fuel IH];
    intros url page_count products w res Hps; cbn [page_loop].
  - intros [= <-]. exact Hps.
  - destruct (truthy url && _); [|intros [= <-]; exact Hps].
    unfold bind at 1. destruct (emit _ w) as [[] w0].
    unfold bind at 1. destruct (_make_request url w0) as [[response|] w1];
      [|intros [= <-]; exact Hps].
    destruct (is_json_site site_name) eqn:Hkind.
    + unfold bind.
      pose proof (json_page_Forall response category_name url
                    (fun j w p => HJ eq_refl j url w p) products w1 Hps) as Hj.
      destruct (json_page response category_name url products w1) as [ps w2].
      cbn [ret fst]. intros [= <-]. exact Hj.
    + destruct (select_containers (soup response) selectors) as [|e els] eqn:Hsel;
        [intros [= <-]; exact Hps|].
      unfold bind at 1.
      pose proof (extract_elements_Forall (site_name +:+ "_" +:+ category_name) url
                    selectors (fun e w p => HM eq_refl e url w p)
                    (e :: els) products w1 Hps) as He.
      destruct (extract_elements (e :: els) _ url selectors products w1) as [ps w2].
      cbn [fst] in He.
      destruct (_get_next_page_url (soup response) url selectors) as [[next_url|]|];
        [| intros [= <-]; exact He | discriminate].
      destruct (_ || _); [intros [= <-]; exact He|].
      unfold bind. destruct (_random_delay 1 3 w2) as [[] w3].
      now apply IH.
Qed.

End LoopInvariant.

(** ** The pages a crawl fetches *)

Section PageFacts.

Context `{Externals}.

Lemma pages_app tr1 tr2 : pages (tr1 ++ tr2) = pages tr1 ++ pages tr2.
Proof.
  induction tr1 as [|e tr1 IH]; [reflexivity|].
  destruct e; cbn [pages app]; now rewrite IH.
Qed.

Lemma quiet_pages {A} (m : St A) w : quiet m -> pages (trace (snd (m w))) = pages (trace w).
Proof. intros Hq. destruct (Hq w) as (_ & _ & ->). reflexivity. Qed.

Lemma make_request_pages url w :
  pages (trace (snd (_make_request url w))) = pages (trace w)
  /\ net (snd (_make_request url w)) = net w.
Proof.
  rewrite make_request_cases.
  destruct (net w (sent w) url);
    [|destruct (net w (S (sent w)) url); [|destruct (net w (S (S (sent w))) url)]];
    cbn [snd advance trace net]; rewrite pages_app; cbn [pages];
    now rewrite app_nil_r.
Qed.

Lemma random_delay_pages lo hi w :
  pages (trace (snd (_random_delay lo hi w))) = pages (trace w)
  /\ net (snd (_random_delay lo hi w)) = net w.
Proof.
  unfold _random_delay, bind, time_sleep.
  destruct (quiet_random_uniform lo hi w) as (Hn & _ & Ht).
  destruct (random_uniform lo hi w) as [d w1]. cbn [snd] in *.
  rewrite emit_advance. cbn [snd advance trace net]. rewrite pages_app, Ht, Hn.
  cbn [pages]. now rewrite app_nil_r.
Qed.

Lemma make_request_served url response w :
  serves w url response ->
  _make_request url w = (Some response, advance 1 [EvGet url] w).
Proof. intros Hs. rewrite make_request_cases, (Hs (sent w)). reflexivity. Qed.

End PageFacts.

Section PageCount.

Context `{Externals}.

Lemma emit_page_pages n url w :
  pages (trace (snd (emit (EvPage n url) w))) = pages (trace w) ++ [(n, url)]
  /\ net (snd (emit (EvPage n url) w)) = net w.
Proof. rewrite emit_advance. cbn [snd advance trace net]. now rewrite pages_app. Qed.

(** The page lines a run of the loop adds: consecutive page counters, from
    the one after [page_count], none above [max_pages]. *)
Lemma page_loop_pages fuel site_name category_name selectors max_pages :
  forall url page_count products w,
  exists ps,
    pages (trace (snd (page_loop fuel site_name category_name selectors max_pages
                                 url page_count products w)))
    = pages (trace w) ++ ps
    /\ map fst ps = seq (S page_count) (List.length ps)
    /\ (List.length ps <= max_pages - page_count)%nat.
Proof.
  induction fuel as [|fuel IH]; intros url page_count products w; cbn [page_loop].
  { exists []. cbn. rewrite app_nil_r. repeat split; lia. }
  destruct (truthy url && _) eqn:Hcond.
  2:{ exists []. cbn. rewrite app_nil_r. repeat split; lia. }
  apply andb_true_iff in Hcond as [_ Hlt]. apply Nat.ltb_lt in Hlt.
  assert (Hone : forall w', pages (trace w') = pages (trace w) ++ [(S page_count, url)] ->
                 exists ps, pages (trace w') = pages (trace w) ++ ps
                            /\ map fst ps = seq (S page_count) (List.length ps)
                            /\ (List.length ps <= max_pages - page_count)%nat).
  { intros w' Hw'. exists [(S page_count, url)]. repeat split; [exact Hw'|cbn; lia]. }
  unfold bind at 1.
  destruct (emit_page_pages (S page_count) url w) as [Hp0 _].
  destruct (emit _ w) as [[] w0]. cbn [snd] in Hp0.
  unfold bind at 1.
  destruct (make_request_pages url w0) as [Hp1 _].
  destruct (_make_request url w0) as [[response|] w1]; cbn [snd] in Hp1.
  2:{ apply Hone. cbn [ret snd]. congruence. }
  destruct (is_json_site site_name).
  { unfold bind.
    pose proof (quiet_pages _ w1 (quiet_json_page response category_name url products)) as Hp2.
    destruct (json_page response category_name url products w1) as [ps2 w2].
    apply Hone. cbn [ret snd] in *. congruence. }
  destruct (select_containers (soup response) selectors) as [|e els].
  { apply Hone. cbn [ret snd]. congruence. }
  unfold bind at 1.
  pose proof (quiet_pages _ w1
                (quiet_extract_elements (e :: els) (site_name +:+ "_" +:+ category_name)
                   url selectors products)) as Hp2.
  destruct (extract_elements (e :: els) _ url selectors products w1) as [ps2 w2].
  cbn [snd] in Hp2.
  destruct (_get_next_page_url (soup response) url selectors) as [[next_url|]|];
    [| apply Hone; cbn [ret snd]; congruence | apply Hone; cbn [ret snd]; congruence].
  destruct (_ || _); [apply Hone; cbn [ret snd]; congruence|].
  unfold bind.
  destruct (random_delay_pages 1 3 w2) as [Hp3 _].
  destruct (_random_delay 1 3 w2) as [[] w3]. cbn [snd] in Hp3.
  destruct (IH next_url (S page_count) ps2 w3) as (ps & Hps & Hseq & Hlen).
  exists ((S page_count, url) :: ps). split; [|split].
  - rewrite Hps, Hp3, Hp2, Hp1, Hp0, <- app_assoc. reflexivity.
  - cbn [map fst List.length seq]. now rewrite Hseq.
  - cbn [List.length]. lia.
Qed.

End PageCount.

Section PageCap.

Context `{Externals}.

Lemma bind_ext {A B} (m : St A) (k1 k2 : A -> St B) w :
  (forall a w', k1 a w' = k2 a w') -> bind m k1 w = bind m k2 w.
Proof. intros Hk. unfold bind. destruct (m w) as [a w']. apply Hk. Qed.

(** The loop never runs out of fuel: any amount of at least
    [max_pages - page_count] gives the same run. *)
Lemma page_loop_fuel site_name category_name selectors max_pages :
  forall fuel url page_count products w,
    (max_pages - page_count <= fuel)%nat ->
    page_loop fuel site_name category_name selectors max_pages url page_count products w
    = page_loop (max_pages - page_count) site_name category_name selectors max_pages
                url page_count products w.
Proof.
  induction fuel as [|fuel IH]; intros url page_count products w Hfuel.
  { replace (max_pages - page_count)%nat with 0%nat by lia. reflexivity. }
  destruct (max_pages - page_count)%nat as [|k] eqn:Hk.
  { cbn [page_loop]. replace (page_count <? max_pages)%nat with false.
    - now rewrite andb_false_r.
    - symmetry. apply Nat.ltb_ge. lia. }
  cbn [page_loop]. destruct (truthy url && _); [|reflexivity].
  apply bind_ext. intros [] w0.
  apply bind_ext. intros [response|] w1; [|reflexivity].
  destruct (is_json_site site_name); [reflexivity|].
  destruct (select_containers (soup response) selectors) as [|e els]; [reflexivity|].
  apply bind_ext. intros ps2 w2.
  destruct (_get_next_page_url (soup response) url selectors) as [[next_url|]|];
    try reflexivity.
  destruct (_ || _); [reflexivity|].
  apply bind_ext. intros [] w3.
  rewrite IH by lia. replace (max_pages - S page_count)%nat with k by lia.
  reflexivity.
Qed.

(** With a cap of one page, a markup page that was fetched is the whole
    crawl, whatever its next link resolves to. *)
Lemma single_page_crawl site_name site_config category_name category_path
    w response w1 next :
  let url := base_url site_config +:+ category_path in
  let selectors := default default_selectors (site_selectors site_config) in
  truthy url = true ->
  is_json_site site_name = false ->
  _make_request url (snd (emit (EvPage 1 url) w)) = (Some response, w1) ->
  _get_next_page_url (soup response) url selectors = Ok next ->
  exists w',
    scrape_site_category site_name site_config category_name category_path 1 w
    = (Ok (fst (extract_elements (select_containers (soup response) selectors)
                                 (site_name +:+ "_" +:+ category_name)
                                 url selectors [] w1)), w')
    /\ pages (trace w') = pages (trace w) ++ [(1, url)].
Proof.
  cbv zeta. intros Hurl Hkind Hreq Hnext.
  unfold scrape_site_category.
  set (url := base_url site_config +:+ category_path) in *.
  set (selectors := default default_selectors (site_selectors site_config)) in *.
  set (cn := site_name +:+ "_" +:+ category_name).
  cbn [page_loop]. rewrite Hurl. cbn [Nat.ltb Nat.leb andb].
  unfold bind at 1.
  destruct (emit_page_pages 1 url w) as [Hp0 _].
  destruct (emit _ w) as [[] w0]. cbn [snd] in Hp0, Hreq.
  unfold bind at 1.
  destruct (make_request_pages url w0) as [Hp1 _].
  rewrite Hreq in *. cbn [snd] in Hp1. rewrite Hkind.
  destruct (select_containers (soup response) selectors) as [|e els].
  { cbn [extract_elements ret fst snd]. eexists. split; [reflexivity | congruence]. }
  unfold bind at 1. fold cn.
  pose proof (quiet_pages _ w1
                (quiet_extract_elements (e :: els) cn url selectors [])) as Hp2.
  destruct (extract_elements (e :: els) cn url selectors [] w1) as [ps2 w2].
  cbn [fst snd] in *.
  rewrite Hnext. destruct next as [next_url|].
  2:{ cbn [ret]. eexists. split; [reflexivity | congruence]. }
  destruct (_ || _).
  { cbn [ret]. eexists. split; [reflexivity | congruence]. }
  unfold bind. destruct (random_delay_pages 1 3 w2) as [Hp3 _].
  destruct (_random_delay 1 3 w2) as [[] w3]. cbn [ret fst snd] in *.
  eexists. split; [reflexivity | congruence].
Qed.

End PageCap.

(** C5. The page counter of a crawl runs through 1, 2, ... and never passes
    [max_pages].  With [max_pages = 1], a markup page that was fetched and
    whose next link resolves (to a further page or to none) is the only page
    of the crawl: one page line, one call of [_make_request], and the crawl
    returns exactly the records extracted from that page. *)
Theorem page_cap_respected `{Externals} (site_name : string) (site_config : SiteConfig)
    (category_name category_path : string) (w : World) :
  let url := base_url site_config +:+ category_path in
  let selectors := default default_selectors (site_selectors site_config) in
  (forall max_pages,
     exists ps,
       pages (trace (snd (scrape_site_category site_name site_config category_name
                                               category_path max_pages w)))
       = pages (trace w) ++ ps
       /\ map fst ps = seq 1 (List.length ps)
       /\ (List.length ps <= max_pages)%nat)
  /\ (forall response w1 next,
        truthy url = true ->
        is_json_site site_name = false ->
        _make_request url (snd (emit (EvPage 1 url) w)) = (Some response, w1) ->
        _get_next_page_url (soup response) url selectors = Ok next ->
        let crawl := scrape_site_category site_name site_config category_name
                                          category_path 1 w in
        fst crawl
        = Ok (fst (extract_elements (select_containers (soup response) selectors)
                                    (site_name +:+ "_" +:+ category_name)
                                    url selectors [] w1))
        /\ pages (trace (snd crawl)) = pages (trace w) ++ [(1, url)]).
Proof.
  cbv zeta. split.
  - intros max_pages. unfold scrape_site_category.
    destruct (page_loop_pages max_pages site_name category_name
                (default default_selectors (site_selectors site_config)) max_pages
                (base_url site_config +:+ category_path) 0 [] w) as (ps & Hps & Hseq & Hlen).
    exists ps. repeat split; [exact Hps | exact Hseq | lia].
  - intros response w1 next Hurl Hkind Hreq Hnext.
    destruct (single_page_crawl site_name site_config category_name category_path
                w response w1 next Hurl Hkind Hreq Hnext) as (w' & -> & Hw').
    split; [reflexivity | exact Hw'].
Qed.

(** ** Following the next link *)

Section Pagination.

Context `{Externals}.

Lemma serves_net w w' url response :
  net w' = net w -> serves w url response -> serves w' url response.
Proof. intros Hn Hs n. rewrite Hn. apply Hs. Qed.

(** One turn of the loop on a markup page that is served and has containers. *)
Lemma page_loop_turn fuel site_name category_name selectors max_pages
    url page_count products w response :
  is_json_site site_name = false ->
  truthy url = true ->
  (page_count < max_pages)%nat ->
  serves w url response ->
  select_containers (soup response) selectors <> [] ->
  page_loop (S fuel) site_name category_name selectors max_pages url page_count products w
  = let w1 := advance 1 [EvPage (S page_count) url; EvGet url] w in
    let '(ps, w2) :=
      extract_elements (select_containers (soup response) selectors)
                       (site_name +:+ "_" +:+ category_name) url selectors products w1 in
    match _get_next_page_url (soup response) url selectors with
    | Raised => (Raised, w2)
    | Ok None => (Ok ps, w2)
    | Ok (Some next_url) =>
        if String.eqb next_url url || negb (truthy next_url) then (Ok ps, w2)
        else page_loop fuel site_name category_name selectors max_pages
                       next_url (S page_count) ps (snd (_random_delay 1 3 w2))
    end.
Proof.
  intros Hkind Hurl Hlt Hs Hsel. apply Nat.ltb_lt in Hlt.
  cbn [page_loop]. rewrite Hurl, Hlt. cbn [andb].
  unfold bind at 1. rewrite emit_advance.
  unfold bind at 1.
  rewrite (make_request_served url response) by (intros n; apply Hs).
  rewrite advance_advance. cbn [Nat.add app]. rewrite Hkind.
  destruct (select_containers (soup response) selectors) as [|e els]; [congruence|].
  cbv zeta. unfold bind at 1.
  destruct (extract_elements (e :: els) _ url selectors products _) as [ps w2].
  destruct (_get_next_page_url (soup response) url selectors) as [[next_url|]|];
    try reflexivity.
  destruct (_ || _); [reflexivity|].
  unfold bind. destruct (_random_delay 1 3 w2) as [[] w3]. reflexivity.
Qed.

(** Two pages whose next links point at each other are fetched in turn
    until the page cap stops the loop. *)
Lemma page_loop_cycle site_name category_name selectors max_pages :
  is_json_site site_name = false ->
  forall fuel a b ra rb page_count products w,
    truthy a = true -> truthy b = true -> a <> b ->
    serves w a ra -> serves w b rb ->
    select_containers (soup ra) selectors <> [] ->
    select_containers (soup rb) selectors <> [] ->
    _get_next_page_url (soup ra) a selectors = Ok (Some b) ->
    _get_next_page_url (soup rb) b selectors = Ok (Some a) ->
    (fuel + page_count = max_pages)%nat ->
    pages (trace (snd (page_loop fuel site_name category_name selectors max_pages
                                 a page_count products w)))
    = pages (trace w) ++ cycle_pages fuel page_count a b.
Proof.
  intros Hkind fuel. induction fuel as [|fuel IH];
    intros a b ra rb page_count products w Ha Hb Hab Hsa Hsb Hca Hcb Hna Hnb Hfuel.
  { cbn. now rewrite app_nil_r. }
  rewrite (page_loop_turn fuel site_name category_name selectors max_pages
             a page_count products w ra) by (try assumption; lia).
  cbv zeta.
  set (w1 := advance 1 [EvPage (S page_count) a; EvGet a] w).
  destruct (quiet_extract_elements (select_containers (soup ra) selectors)
              (site_name +:+ "_" +:+ category_name) a selectors products w1)
    as (Hn2 & _ & Ht2).
  destruct (extract_elements _ _ a selectors products w1) as [ps w2].
  cbn [snd] in Hn2, Ht2.
  rewrite Hna.
  assert (Hne : String.eqb b a = false) by (apply String.eqb_neq; congruence).
  rewrite Hne, Hb. cbn [negb orb].
  destruct (random_delay_pages 1 3 w2) as [Hp3 Hn3].
  assert (Hnet : net (snd (_random_delay 1 3 w2)) = net w).
  { rewrite Hn3, Hn2. reflexivity. }
  rewrite (IH b a rb ra (S page_count) ps (snd (_random_delay 1 3 w2)));
    [ | assumption | assumption | congruence
      | now apply (serves_net w) | now apply (serves_net w)
      | assumption | assumption | assumption | assumption | lia ].
  rewrite Hp3, Ht2. unfold w1. cbn [advance trace cycle_pages].
  rewrite pages_app, <- app_assoc. reflexivity.
Qed.

End Pagination.

(** ** Records of a crawl *)

Section JsonPrice.

Local Open Scope Q_scope.

Lemma random_uniform_lower a b w : a <= b -> a <= fst (random_uniform a b w).
Proof.
  intros Hab. unfold random_uniform, bind, draw, ret.
  assert (Hf : forall r, a <= a + (b - a) * (Z.of_nat r mod 9007199254740992 # 9007199254740992)).
  { intros r. rewrite <- (Qplus_0_r a) at 1. apply Qplus_le_compat; [apply Qle_refl|].
    apply Qmult_le_0_compat.
    - unfold Qminus. rewrite <- (Qplus_opp_r a). apply Qplus_le_compat; [exact Hab|apply Qle_refl].
    - apply Qmake_nonneg, Z.mod_pos_bound. reflexivity. }
  destruct (tape w); cbn [fst]; apply Hf.
Qed.



End JsonPrice.


(** ** Pagination *)

(** C2, as the code has it.  The loop keeps no record of the URLs it has
    fetched: a next link is followed unless it is missing, empty or equal to
    the URL of the page it stands on, until the page cap is reached.  A page
    whose next link resolves to its own URL ends the crawl; two pages whose
    next links resolve to each other are fetched in turn, the first one again
    after the second, until [max_pages] pages have been fetched. *)
Theorem pagination_stops_on_self_link_or_cap `{Externals} (site_name : string)
    (site_config : SiteConfig) (category_name category_path : string)
    (max_pages : nat) (w : World) (ra : Response) :
  let a := base_url site_config +:+ category_path in
  let selectors := default default_selectors (site_selectors site_config) in
  let crawl := scrape_site_category site_name site_config category_name
                                    category_path max_pages w in
  is_json_site site_name = false ->
  truthy a = true ->
  serves w a ra ->
  select_containers (soup ra) selectors <> [] ->
  (_get_next_page_url (soup ra) a selectors = Ok (Some a) ->
   (0 < max_pages)%nat ->
   pages (trace (snd crawl)) = pages (trace w) ++ [(1, a)])
  /\ (forall b rb,
        truthy b = true -> a <> b ->
        serves w b rb ->
        select_containers (soup rb) selectors <> [] ->
        _get_next_page_url (soup ra) a selectors = Ok (Some b) ->
        _get_next_page_url (soup rb) b selectors = Ok (Some a) ->
        pages (trace (snd crawl)) = pages (trace w) ++ cycle_pages max_pages 0 a b).
Proof.
  cbv zeta. intros Hkind Ha Hsa Hca. split.
  - intros Hself Hpos. unfold scrape_site_category.
    destruct max_pages as [|k]; [lia|].
    rewrite (page_loop_turn k site_name category_name _ (S k) _ 0 [] w ra)
      by (try assumption; lia).
    cbv zeta.
    set (w1 := advance 1 _ w).
    destruct (quiet_extract_elements
                (select_containers (soup ra)
                   (default default_selectors (site_selectors site_config)))
                (site_name +:+ "_" +:+ category_name)
                (base_url site_config +:+ category_path)
                (default default_selectors (site_selectors site_config)) [] w1)
      as (_ & _ & Ht2).
    destruct (extract_elements _ _ _ _ [] w1) as [ps w2]. cbn [snd] in Ht2.
    rewrite Hself, String.eqb_refl. cbn [orb snd].
    rewrite Ht2. unfold w1. cbn [advance trace]. rewrite pages_app. reflexivity.
  - intros b rb Hb Hab Hsb Hcb Hna Hnb. unfold scrape_site_category.
    apply (page_loop_cycle site_name category_name _ max_pages Hkind max_pages
             _ b ra rb 0 [] w); try assumption. lia.
Qed.

(** ** Container selection *)


(** ** JSON cardinality *)

Section JsonItems.

Context `{Externals}.




End JsonItems.


(** ** Availability *)

(** C7, as the code has it.  On the markup path the availability is
    [Disponible] when the availability selector matches nothing in the
    container; when it matches, the record is [Rupture] if the cleaned,
    lower-cased text of the match contains [out] or [rupture], and
    [Disponible] otherwise.  On the JSON path the availability is not a
    default: it is drawn at random from [Disponible] and [Rupture]. *)
Theorem availability_classification `{Externals} :
  (forall e category_name page_url selectors w p,
     fst (_extract_product_data e category_name page_url selectors w) = Ok p ->
     match select_one e (sel_get selectors "availability" ".availability") with
     | None => disponibilite p = IN_STOCK
     | Some a =>
         let avail_text := lower (_clean_text (get_text a)) in
         (contains "out" avail_text = true \/ contains "rupture" avail_text = true ->
          disponibilite p = OUT_OF_STOCK)
         /\ (contains "out" avail_text = false ->
             contains "rupture" avail_text = false ->
             disponibilite p = IN_STOCK)
     end)
  /\ (forall j category_name url w p,
        fst (_create_product_from_json j category_name url w) = Ok p ->
        disponibilite p = IN_STOCK \/ disponibilite p = OUT_OF_STOCK)
  /\ (forall fields category_name url w p,
        plain_item (JObj fields) = true ->
        fst (_create_product_from_json (JObj fields) category_name url w) = Ok p ->
        forall u r rest,
          tape w = u :: r :: rest ->
          disponibilite p = nth (r mod 2) [IN_STOCK; OUT_OF_STOCK] IN_STOCK).
Proof.
  split; [|split].
  - intros e category_name page_url selectors w p Hp.
    destruct (extract_product_data_fields _ _ _ _ _ _ Hp) as (_ & _ & Hav & _).
    rewrite Hav. unfold classify_availability.
    destruct (select_one e _) as [a|]; [|reflexivity].
    cbv zeta. split.
    + intros [Ho|Hr].
      * now rewrite Ho.
      * rewrite Hr. now rewrite orb_true_r.
    + intros Ho Hr. now rewrite Ho, Hr.
  - intros j category_name url w p Hp.
    now destruct (create_product_from_json_fields _ _ _ _ _ Hp) as (_ & Hav & _).
  - intros fields category_name url w p Hplain.
    unfold plain_item in Hplain. apply andb_true_iff in Hplain as [Hplain Hid].
    apply andb_true_iff in Hplain as [Htitle Hbody].
    unfold _create_product_from_json.
    destruct (json_get fields "title" (json_get fields "name" (JStr ""))) as [| | |s| |];
      try discriminate.
    destruct (json_get fields "body" (json_get fields "title" (JStr ""))) as [| | |b| |];
      try discriminate.
    cbn [json_slice res_bind]. unfold clean_json. cbn [json_truthy].
    destruct (negb (truthy (slice_to 50 s))), (negb (truthy (slice_to 200 b)));
      (destruct (fields !! "id") as [[| | q | | |]|]; try discriminate);
      cbn [json_float res_bind];
      intros Hp u r rest Htape;
      destruct w as [net0 sent0 tape0 trace0]; cbn [tape] in Htape; subst tape0;
      destruct rest;
      cbv beta iota zeta delta [bind random_uniform random_choice rating_default
                                draw ret tape net sent trace fst snd] in Hp;
      injection Hp as <-; reflexivity.
Qed.

(** ** Aggregation *)

Section Aggregation.

Context `{Externals}.

Lemma category_loop_batches site_name site_config target_products cats :
  forall acc w bs t w',
    category_batches site_name site_config cats target_products (total_products acc) w
    = ((bs, t), w') ->
    category_loop site_name site_config cats target_products acc w
    = ({| all_products := all_products acc ++ merge bs; total_products := t |}, w').
Proof.
  unfold merge.
  induction cats as [|[category_name category_path] cats IH];
    intros [all total] w bs t w';
    cbn [category_loop category_batches total_products all_products].
  { intros [= <- <- <-]. cbn. now rewrite app_nil_r. }
  destruct (target_products <=? total)%nat.
  { intros [= <- <- <-]. cbn. now rewrite app_nil_r. }
  intros E0. unfold bind at 1 in E0. unfold bind at 1.
  destruct (scrape_site_category _ _ _ _ 10 w) as [[batch|] w1];
    [|now apply (IH {| all_products := all; total_products := total |})].
  unfold bind at 1 in E0. unfold bind at 1.
  destruct (_random_delay 2 4 w1) as [[] w2].
  unfold bind at 1 in E0.
  destruct (category_batches _ _ cats _ (total + List.length batch) w2)
    as [[bs' t'] w3] eqn:E.
  cbn [ret fst snd] in E0. injection E0 as <- <- <-.
  destruct batch as [|p batch].
  - cbn [List.length] in E. rewrite Nat.add_0_r in E.
    rewrite (IH {| all_products := all; total_products := total |} w2 bs' t' w3 E).
    reflexivity.
  - rewrite (IH {| all_products := all ++ p :: batch;
                   total_products := total + List.length (p :: batch) |}
                w2 bs' t' w3 E).
    cbn [all_products List.concat]. now rewrite <- app_assoc.
Qed.

Lemma site_loop_batches target_products sites :
  forall acc w bs w',
    site_batches sites target_products (total_products acc) w = (bs, w') ->
    exists t,
      site_loop sites target_products acc w
      = ({| all_products := all_products acc ++ merge bs; total_products := t |}, w').
Proof.
  unfold merge.
  induction sites as [|[site_name site_config] sites IH]; intros [all total] w bs w';
    cbn [site_loop site_batches total_products all_products].
  { intros [= <- <-]. exists total. cbn. now rewrite app_nil_r. }
  destruct (target_products <=? total)%nat.
  { intros [= <- <-]. exists total. cbn. now rewrite app_nil_r. }
  intros E0. unfold bind at 1 in E0. unfold bind at 1.
  destruct (category_batches _ _ _ _ total w) as [[bs1 t1] w1] eqn:E1.
  rewrite (category_loop_batches _ _ _ _
             {| all_products := all; total_products := total |} w bs1 t1 w1 E1).
  unfold merge. cbn [all_products].
  unfold bind at 1 in E0. cbn [fst snd] in E0.
  destruct (site_batches sites target_products t1 w1) as [more w2] eqn:E2.
  cbn [ret] in E0. injection E0 as <- <-.
  destruct (IH {| all_products := all ++ List.concat bs1; total_products := t1 |}
               w1 more w2 E2) as [t Ht].
  exists t. rewrite Ht. cbn [all_products]. unfold merge.
  now rewrite concat_app, app_assoc.
Qed.

End Aggregation.

(** C9, as the code has it.  [scrape_all_diverse_sites] returns the products
    the scraper already held followed by the batches of the categories it
    processed, appended in processing order: no record is left out, merged or
    changed.  Nothing is added to a record either: the aggregation attaches no
    provenance label.  Where a ['source'] label exists, in the Streamlit
    scraper, it is a key of the dict the record builder returns, computed
    from the category name, and extending the session list leaves the records
    as they are. *)
Theorem aggregation_is_concatenation `{Externals}
    (sites : list (string * SiteConfig)) (all_products0 : list Product)
    (target_products : nat) (w : World) :
  scrape_all_diverse_sites sites all_products0 target_products w
  = (all_products0 ++ merge (fst (site_batches sites target_products 0 w)),
     snd (site_batches sites target_products 0 w))
  /\ (forall e category_name page_url selectors w' p,
        fst (Streamlit._extract_product_data e category_name page_url selectors w') = Ok p ->
        Streamlit.source p = Streamlit.source_label category_name
        /\ fst (_extract_product_data e category_name page_url selectors w')
           = Ok (Streamlit.fields p))
  /\ (forall scraped_products products,
        Streamlit.extend scraped_products products = scraped_products ++ products).
Proof.
  split; [|split].
  - unfold scrape_all_diverse_sites, bind.
    destruct (site_batches sites target_products 0 w) as [bs w1] eqn:E.
    destruct (site_loop_batches target_products sites
                {| all_products := all_products0; total_products := 0 |} w bs w1 E)
      as [t ->].
    reflexivity.
  - intros e category_name page_url selectors w' p.
    unfold Streamlit._extract_product_data, Streamlit.diverse_extract_product_data, bind.
    destruct (_extract_product_data e category_name page_url selectors w') as [[q|] w2];
      cbn [ret fst]; [|discriminate].
    intros [= <-]. split; reflexivity.
  - reflexivity.
Qed.

(** ** The CSV delimiter *)

Section Delimiter.

Context `{Externals}.

Lemma clean_text_space s c :
  c ∈ chars (_clean_text s) -> isspace c = true -> c = " "%char.
Proof.
  unfold _clean_text. destruct (truthy s); simpl.
  2:{ intros Hc. now apply elem_of_nil in Hc. }
  rewrite chars_text. intros Hc Hs. apply take_incl in Hc.
  apply replace_char_incl in Hc as [Hc| ->]; [|reflexivity].
  apply replace_char_incl in Hc as [Hc| ->]; [|reflexivity].
  apply replace_char_incl in Hc as [Hc| ->]; [|discriminate].
  now apply (sub_ws_space (strip (chars s)) c false).
Qed.





End Delimiter.


(** * Worked runs *)

Section Runs.

Import Samples.

Local Open Scope Q_scope.

(** ** Price extraction on two price texts *)


(** ** A fetch that fails three times *)

Lemma make_request_offline :
  net offline 0 page1_url = None
  /\ fst (_make_request page1_url offline) = None
  /\ fst (page_loop 1 "shop" "all" default_selectors 10 page1_url 0 [] offline) = Ok [].
Proof.
  pose proof (make_request_three_attempts page1_url offline) as Hthm.
  cbv zeta in Hthm. destruct Hthm as (_ & _ & Hnone & Hloop).
  split; [reflexivity|]. split.
  - apply Hnone. repeat split; reflexivity.
  - apply (Hloop 0%nat "shop" "all" default_selectors 10%nat 0%nat []);
      first [reflexivity | lia].
Defined.

(** The shop whose second page is down: the crawl returns the record of the
    first page. *)
Example crawl_keeps_first_page_on_failure :
  exists p,
    fst (scrape_site_category "shop" shop "all" "/page1.html" 10 shop_world_page2_down)
    = Ok [p]
    /\ titre p = "Kettle".
Proof. eexists. split; vm_compute; reflexivity. Qed.

(** ** One page under a cap of one *)

Lemma page_cap_on_shop :
  let w1 := snd (_make_request page1_url (snd (emit (EvPage 1 page1_url) shop_world))) in
  truthy page1_url = true
  /\ is_json_site "shop" = false
  /\ _make_request page1_url (snd (emit (EvPage 1 page1_url) shop_world))
     = (Some shop_page1, w1)
  /\ _get_next_page_url (soup shop_page1) page1_url default_selectors = Ok (Some page2_url)
  /\ fst (scrape_site_category "shop" shop "all" "/page1.html" 1 shop_world)
     = Ok (fst (extract_elements (select_containers (soup shop_page1) default_selectors)
                                 "shop_all" page1_url default_selectors [] w1))
  /\ pages (trace (snd (scrape_site_category "shop" shop "all" "/page1.html" 1 shop_world)))
     = [(1%nat, page1_url)].
Proof.
  cbv zeta.
  assert (H1 : truthy page1_url = true) by reflexivity.
  assert (H2 : is_json_site "shop" = false) by reflexivity.
  assert (H3 : _make_request page1_url (snd (emit (EvPage 1 page1_url) shop_world))
               = (Some shop_page1,
                  snd (_make_request page1_url (snd (emit (EvPage 1 page1_url) shop_world)))))
    by reflexivity.
  assert (H4 : _get_next_page_url (soup shop_page1) page1_url default_selectors
               = Ok (Some page2_url)) by (vm_compute; reflexivity).
  repeat (split; [assumption|]).
  destruct (page_cap_respected "shop" shop "all" "/page1.html" shop_world) as [_ Hone].
  exact (Hone shop_page1 _ (Some page2_url) H1 H2 H3 H4).
Defined.

Example page_cap_on_shop_record :
  exists p,
    fst (scrape_site_category "shop" shop "all" "/page1.html" 1 shop_world) = Ok [p]
    /\ titre p = "Kettle" /\ prix p == 24.90.
Proof. eexists. repeat split; vm_compute; reflexivity. Qed.

(** ** Container fallback *)


(** ** Records of a crawl *)



(** A rating element without the [star-rating] class and without digits:
    the rating is one of the price candidates. *)
Example rating_from_price_candidates :
  let unrated :=
    {| get_text := "Mug"; attrs := ∅; classes := [];
       select := table [(".rating", [leaf "no reviews yet"])] |} in
  exists p,
    fst (_extract_product_data unrated "shop_all" page1_url ∅ offline) = Ok p
    /\ note_moyenne p == 19.99.
Proof. cbv zeta. eexists. split; vm_compute; reflexivity. Qed.

(** A JSON item with a negative [id] gets a negative price. *)
Example negative_id_gives_negative_price :
  exists p,
    fst (scrape_site_category "jsonplaceholder" jsonplaceholder "posts" "/posts" 10
           (posts_world (JArr [post (-3) "qui est esse" "est rerum"]) [])) = Ok [p]
    /\ prix p == -6.
Proof. eexists. split; vm_compute; reflexivity. Qed.

(** ** The two-page cycle *)

(** With the default cap of ten pages the walker does not stop after the
    second page: it fetches the first page again, and so on to the cap. *)
Lemma cycle_fetches_first_page_again :
  pages (trace (snd (scrape_site_category "shop" shop "all" "/page1.html" 10 shop_world)))
  = [(1, page1_url); (2, page2_url); (3, page1_url); (4, page2_url); (5, page1_url);
     (6, page2_url); (7, page1_url); (8, page2_url); (9, page1_url); (10, page2_url)]%nat
  /\ ~ NoDup (map snd (pages (trace (snd (scrape_site_category
                                           "shop" shop "all" "/page1.html" 10 shop_world))))).
Proof.
  split; [vm_compute; reflexivity|].
  intros Hnd. vm_compute in Hnd.
  apply NoDup_cons in Hnd as [Hnotin _]. apply Hnotin.
  apply elem_of_cons. right. apply elem_of_cons. now left.
Qed.

Lemma cycle_on_shop :
  is_json_site "shop" = false
  /\ truthy page1_url = true
  /\ serves shop_world page1_url shop_page1
  /\ serves shop_world page2_url shop_page2
  /\ _get_next_page_url (soup shop_page1) page1_url default_selectors = Ok (Some page2_url)
  /\ _get_next_page_url (soup shop_page2) page2_url default_selectors = Ok (Some page1_url)
  /\ pages (trace (snd (scrape_site_category "shop" shop "all" "/page1.html" 4 shop_world)))
     = [(1, page1_url); (2, page2_url); (3, page1_url); (4, page2_url)]%nat.
Proof.
  assert (H1 : is_json_site "shop" = false) by reflexivity.
  assert (H2 : truthy page1_url = true) by reflexivity.
  assert (H3 : serves shop_world page1_url shop_page1) by (intros n; reflexivity).
  assert (H4 : serves shop_world page2_url shop_page2) by (intros n; reflexivity).
  assert (H5 : _get_next_page_url (soup shop_page1) page1_url default_selectors
               = Ok (Some page2_url)) by (vm_compute; reflexivity).
  assert (H6 : _get_next_page_url (soup shop_page2) page2_url default_selectors
               = Ok (Some page1_url)) by (vm_compute; reflexivity).
  assert (H7 : select_containers (soup shop_page1) default_selectors <> [])
    by (vm_compute; discriminate).
  assert (H8 : select_containers (soup shop_page2) default_selectors <> [])
    by (vm_compute; discriminate).
  repeat (split; [assumption|]).
  pose proof (pagination_stops_on_self_link_or_cap "shop" shop "all" "/page1.html" 4
                shop_world shop_page1) as Hthm.
  cbv zeta in Hthm. destruct (Hthm H1 H2 H3 H7) as [_ Hcycle].
  refine (Hcycle page2_url shop_page2 _ _ H4 H8 H5 H6); [reflexivity | discriminate].
Defined.

(** ** Five JSON items *)



(** ** Availability *)

(** A post says nothing about stock; with the second draw odd its record is
    out of stock. *)
Lemma json_availability_is_drawn :
  exists p rest,
    fst (scrape_site_category "jsonplaceholder" jsonplaceholder "posts" "/posts" 10
                              (posts_world five_posts [0; 1; 0]%nat)) = Ok (p :: rest)
    /\ titre p = "sunt aut facere"
    /\ disponibilite p = OUT_OF_STOCK
    /\ disponibilite p <> IN_STOCK.
Proof.
  eexists. eexists. split; [vm_compute; reflexivity|]. cbn [titre disponibilite].
  repeat split; discriminate.
Qed.

Lemma availability_on_samples :
  let sold_out :=
    {| get_text := "Mug"; attrs := ∅; classes := [];
       select := table [(".availability", [leaf "  Out of
 stock "])] |} in
  exists p q,
    fst (_extract_product_data (leaf "Mug") "shop_all" page1_url ∅ offline) = Ok p
    /\ disponibilite p = IN_STOCK
    /\ fst (_extract_product_data sold_out "shop_all" page1_url ∅ offline) = Ok q
    /\ disponibilite q = OUT_OF_STOCK.
Proof.
  cbv zeta. eexists. eexists.
  split; [vm_compute; reflexivity|].
  split.
  - match goal with
    | |- disponibilite ?p = _ =>
        pose proof (proj1 availability_classification (leaf "Mug") "shop_all"
                      page1_url ∅ offline p) as Hav
    end.
    apply Hav. vm_compute. reflexivity.
  - split; [vm_compute; reflexivity|].
    match goal with
    | |- disponibilite ?q = _ =>
        pose proof (proj1 availability_classification
                      {| get_text := "Mug"; attrs := ∅; classes := [];
                         select := table [(".availability", [leaf "  Out of
 stock "])] |} "shop_all" page1_url ∅ offline q) as Hav
    end.
    cbv zeta in Hav.
    refine (proj1 (Hav _) _); [vm_compute; reflexivity | left; vm_compute; reflexivity].
Defined.

(** ** Aggregation *)

(** Only the travel page of the book shop answers: the run over the whole
    registry returns the batch of that category as it is, with nothing
    attached to its record; and the record the Streamlit builder returns for
    the same element already carries its source label. *)
Lemma aggregation_attaches_no_label :
  exists batch,
    fst (scrape_site_category "books_demo" books_demo "travel"
           "/catalogue/category/books/travel_2/index.html" 10 books_world) = Ok batch
    /\ List.length batch = 1%nat
    /\ fst (scrape_all_diverse_sites diverse_sites [] 800 books_world) = batch
    /\ exists p,
         fst (Streamlit._extract_product_data book "books_demo_travel" travel_url
                books_selectors books_world) = Ok p
         /\ Streamlit.source p = "books"
         /\ [Streamlit.fields p] = batch.
Proof.
  eexists. split; [vm_compute; reflexivity|]. split; [reflexivity|].
  split; [vm_compute; reflexivity|].
  eexists. split; [vm_compute; reflexivity|]. split; reflexivity.
Qed.

Lemma aggregation_on_books :
  exists p,
    fst (Streamlit._extract_product_data book "books_demo_travel" travel_url
           books_selectors books_world) = Ok p
    /\ Streamlit.source p = Streamlit.source_label "books_demo_travel"
    /\ fst (scrape_all_diverse_sites diverse_sites [] 800 books_world)
       = [] ++ merge (fst (site_batches diverse_sites 800 0 books_world)).
Proof.
  destruct (aggregation_is_concatenation diverse_sites [] 800 books_world)
    as (Hagg & Hsource & _).
  eexists. split; [vm_compute; reflexivity|]. split.
  - refine (proj1 (Hsource book "books_demo_travel" travel_url books_selectors
                     books_world _ _)).
    vm_compute. reflexivity.
  - rewrite Hagg. reflexivity.
Defined.

(** ** The CSV delimiter *)



End Runs.

(** * Further properties *)

(** ** Retries and back-off, for any number of attempts *)

Section Retries.

Local Open Scope Q_scope.

Lemma slept_app tr1 tr2 : slept (tr1 ++ tr2) == slept tr1 + slept tr2.
Proof.
  induction tr1 as [|e tr1 IH]; cbn [app slept].
  - now rewrite Qplus_0_l.
  - destruct e; rewrite IH; [reflexivity | reflexivity | now rewrite Qplus_assoc].
Qed.

Lemma attempt_loop_spec (url : string) (retries : nat) :
  forall m a w r w',
    (a + m = retries)%nat ->
    attempt_loop (seq a m) retries url w = (r, w') ->
    net w' = net w
    /\ tape w' = tape w
    /\ (sent w' <= sent w + m)%nat
    /\ (r = None <-> forall k, (k < m)%nat -> net w (sent w + k)%nat url = None)
    /\ (r = None ->
        sent w' = (sent w + m)%nat
        /\ slept (trace w') == slept (trace w) + inject_Z (backoff a m retries))
    /\ (forall response,
          r = Some response ->
          exists k, (k < m)%nat
                    /\ net w (sent w + k)%nat url = Some response
                    /\ (forall j, (j < k)%nat -> net w (sent w + j)%nat url = None)
                    /\ sent w' = (sent w + S k)%nat).
Proof.
  induction m as [|m IH]; intros a w r w' Ham Hrun.
  { cbn [seq attempt_loop ret] in Hrun. injection Hrun as <- <-.
    split; [reflexivity|]. split; [reflexivity|]. split; [lia|].
    split; [split; [intros _ k Hk; lia | reflexivity]|].
    split; [|discriminate].
    intros _. split; [lia|]. unfold backoff, inject_Z. now rewrite Qplus_0_r. }
  cbn [seq attempt_loop] in Hrun. unfold bind at 1 in Hrun.
  rewrite requests_get_advance in Hrun.
  destruct (net w (sent w) url) as [resp|] eqn:E0.
  { cbn [ret] in Hrun. injection Hrun as <- <-. cbn [advance net tape sent].
    split; [reflexivity|]. split; [reflexivity|]. split; [lia|].
    split; [split; [discriminate|]|].
    - intros Hall. specialize (Hall 0%nat ltac:(lia)).
      rewrite Nat.add_0_r in Hall. congruence.
    - split; [discriminate|].
      intros response [= <-]. exists 0%nat.
      rewrite Nat.add_0_r. repeat split; [lia | exact E0 | intros; lia | lia]. }
  unfold bind at 1 in Hrun.
  set (w1 := advance 1 [EvGet url] w) in *.
  assert (Hsleep :
    exists w2,
      (if (a <? retries - 1)%nat
       then time_sleep (inject_Z (2 ^ Z.of_nat a)) else ret tt) w1 = (tt, w2)
      /\ net w2 = net w /\ tape w2 = tape w /\ sent w2 = S (sent w)
      /\ slept (trace w2)
         == slept (trace w)
            + inject_Z (match m with O => 0 | S _ => 2 ^ Z.of_nat a end)).
  { destruct (a <? retries - 1)%nat eqn:Hlt.
    - apply Nat.ltb_lt in Hlt. destruct m as [|m']; [lia|].
      unfold time_sleep. rewrite emit_advance. eexists. split; [reflexivity|].
      unfold w1. cbn [advance net tape sent trace].
      repeat split. rewrite <- app_assoc, slept_app. cbn [app slept].
      now rewrite Qplus_0_r.
    - apply Nat.ltb_ge in Hlt. destruct m as [|m']; [|lia].
      eexists. split; [reflexivity|]. unfold w1. cbn [advance net tape sent trace].
      repeat split. rewrite slept_app. cbn [slept]. unfold inject_Z.
      reflexivity. }
  destruct Hsleep as (w2 & Hw2 & Hn2 & Ht2 & Hs2 & Hz2).
  rewrite Hw2 in Hrun.
  destruct (IH (S a) w2 r w' ltac:(lia) Hrun) as (Hn & Ht & Hle & Hnone & Hfail & Hok).
  rewrite Hn2 in *. rewrite Hs2 in *.
  split; [exact Hn|]. split; [congruence|]. split; [lia|]. split; [|split].
  - rewrite Hnone. split.
    + intros Hall k Hk. destruct k as [|k].
      * now rewrite Nat.add_0_r.
      * replace (sent w + S k)%nat with (S (sent w) + k)%nat by lia.
        apply Hall. lia.
    + intros Hall k Hk.
      replace (S (sent w) + k)%nat with (sent w + S k)%nat by lia.
      apply Hall. lia.
  - intros Hr. destruct (Hfail Hr) as [Hsent Hslept].
    split; [lia|]. rewrite Hslept, Hz2, <- Qplus_assoc, <- inject_Z_plus.
    apply Qplus_comp; [reflexivity|]. apply inject_Z_injective.
    unfold backoff. destruct m as [|m'].
    + replace (retries - 1)%nat with a by lia. lia.
    + rewrite Nat2Z.inj_succ, Z.pow_succ_r by lia. lia.
  - intros response Hr. destruct (Hok response Hr) as (k & Hk & Hresp & Hbefore & Hsent).
    exists (S k). repeat split; try lia.
    + replace (sent w + S k)%nat with (S (sent w) + k)%nat by lia. exact Hresp.
    + intros j Hj. destruct j as [|j].
      * now rewrite Nat.add_0_r.
      * replace (sent w + S j)%nat with (S (sent w) + j)%nat by lia.
        apply Hbefore. lia.
Qed.

End Retries.

(** X1. For any number [retries] of attempts, [_make_request] returns
    [None] exactly when the first [retries] answers of the network are
    failures, otherwise the first success; it never issues more than
    [retries] GETs, stops at the first success, and when every attempt
    fails it has slept [2^(retries-1) - 1] seconds in all (nothing for zero
    or one attempt). *)
Theorem make_request_any_retries (retries : nat) (url : string) (w : World) :
  let r := _make_request_with retries url w in
  (fst r = None <-> forall k, (k < retries)%nat -> net w (sent w + k)%nat url = None)
  /\ (forall response,
        fst r = Some response ->
        exists k, (k < retries)%nat
                  /\ net w (sent w + k)%nat url = Some response
                  /\ (forall j, (j < k)%nat -> net w (sent w + j)%nat url = None)
                  /\ sent (snd r) = (sent w + S k)%nat)
  /\ (sent (snd r) <= sent w + retries)%nat
  /\ (fst r = None ->
      (slept (trace (snd r))
       == slept (trace w) + inject_Z (2 ^ Z.of_nat (retries - 1) - 1))%Q).
Proof.
  cbv zeta. unfold _make_request_with.
  destruct (attempt_loop (seq 0 retries) retries url w) as [r w'] eqn:Hrun.
  destruct (attempt_loop_spec url retries retries 0%nat w r w' eq_refl Hrun)
    as (_ & _ & Hle & Hnone & Hfail & Hok).
  cbn [fst snd].
  split; [exact Hnone|]. split; [exact Hok|]. split; [exact Hle|].
  intros Hr. destruct (Hfail Hr) as [_ Hslept]. rewrite Hslept.
  apply Qplus_comp; [reflexivity|]. apply inject_Z_injective.
  unfold backoff. destruct retries; cbn; lia.
Qed.

(** ** Requests and pauses of a crawl *)

Section CrawlShape.

Context `{Externals}.

Local Open Scope Q_scope.

Lemma random_uniform_upper a b w : a <= b -> fst (random_uniform a b w) <= b.
Proof.
  intros Hab. unfold random_uniform, bind, draw, ret.
  assert (Hf : forall r, a + (b - a) * (Z.of_nat r mod 9007199254740992 # 9007199254740992) <= b).
  { intros r.
    assert (Hfrac : (Z.of_nat r mod 9007199254740992 # 9007199254740992) <= 1).
    { pose proof (Z.mod_pos_bound (Z.of_nat r) 9007199254740992 eq_refl) as [_ Hlt].
      unfold Qle. cbn. lia. }
    assert (Hba : 0 <= b - a).
    { unfold Qminus. rewrite <- (Qplus_opp_r a).
      apply Qplus_le_compat; [exact Hab | apply Qle_refl]. }
    apply Qle_trans with (a + (b - a) * 1).
    - apply Qplus_le_compat; [apply Qle_refl|].
      rewrite !(Qmult_comm (b - a)). now apply Qmult_le_compat_r.
    - rewrite Qmult_1_r. unfold Qminus. rewrite (Qplus_comm b), Qplus_assoc.
      rewrite Qplus_opp_r, Qplus_0_l. apply Qle_refl. }
  destruct (tape w); cbn [fst]; apply Hf.
Qed.

(** What one call of [_make_request] adds to the world. *)
Lemma make_request_shape url w :
  exists k gs,
    snd (_make_request url w) = advance k gs w
    /\ (k <= 3)%nat
    /\ (gs = [EvGet url]
        \/ gs = [EvGet url; EvSleep 1; EvGet url]
        \/ gs = [EvGet url; EvSleep 1; EvGet url; EvSleep 2; EvGet url]).
Proof.
  rewrite make_request_cases.
  destruct (net w (sent w) url);
    [|destruct (net w (S (sent w)) url); [|destruct (net w (S (S (sent w))) url)]];
    cbn [snd]; eexists _, _; (split; [reflexivity|]); (split; [lia|]); tauto.
Qed.

(** What one call of [_random_delay] adds to the world. *)
Lemma random_delay_shape lo hi w :
  lo <= hi ->
  exists d w1,
    snd (_random_delay lo hi w) = advance 0 [EvSleep d] w1
    /\ lo <= d /\ d <= hi
    /\ net w1 = net w /\ sent w1 = sent w /\ trace w1 = trace w.
Proof.
  intros Hle. unfold _random_delay, bind, time_sleep.
  pose proof (random_uniform_lower lo hi w Hle) as Hlo.
  pose proof (random_uniform_upper lo hi w Hle) as Hhi.
  destruct (quiet_random_uniform lo hi w) as (Hn & Hs & Ht).
  destruct (random_uniform lo hi w) as [d w1]. cbn [fst snd] in *.
  rewrite emit_advance. exists d, w1. cbn [snd]. repeat split; assumption.
Qed.

Lemma paced_app_sleep l1 l2 d :
  paced l1 -> paced l2 -> 1 <= d -> d <= 3 -> paced (l1 ++ EvSleep d :: l2).
Proof.
  intros H1 H2 Hlo Hhi. induction l1 as [|e l1 IH].
  - cbn [app paced]. destruct l2 as [|[n u| |] l2]; try exact H2.
    split; [|exact H2]. exists d. repeat split; assumption.
  - cbn [app]. destruct l1 as [|e' l1].
    + cbn [app] in *. cbn [paced]. fold paced. exact (IH I).
    + cbn [app paced] in *. fold paced in *.
      destruct e' as [n u| |]; [destruct H1 as [Hpre H1]; split; [exact Hpre|] | |];
        now apply IH.
Qed.

(** The events one run of the page loop adds: they are paced, the network
    is left as it is, and at most three GETs are sent for each page the cap
    still allows. *)
Lemma page_loop_shape fuel site_name category_name selectors max_pages :
  forall url page_count products w r w',
    page_loop fuel site_name category_name selectors max_pages
              url page_count products w = (r, w') ->
    exists es,
      trace w' = trace w ++ es
      /\ paced es
      /\ net w' = net w
      /\ (sent w <= sent w')%nat
      /\ (sent w' <= sent w + 3 * (max_pages - page_count))%nat.
Proof.
  induction fuel as [|fuel IH]; intros url page_count products w r w' Hrun;
    cbn [page_loop] in Hrun.
  { injection Hrun as <- <-. exists []. cbn. rewrite app_nil_r. repeat split; lia. }
  destruct (truthy url && _) eqn:Hcond.
  2:{ injection Hrun as <- <-. exists []. cbn. rewrite app_nil_r. repeat split; lia. }
  apply andb_true_iff in Hcond as [_ Hlt]. apply Nat.ltb_lt in Hlt.
  unfold bind at 1 in Hrun. rewrite emit_advance in Hrun.
  unfold bind at 1 in Hrun.
  destruct (make_request_shape url (advance 0 [EvPage (S page_count) url] w))
    as (k & gs & Hsnd & Hk & Hgs).
  rewrite advance_advance in Hsnd. cbn [app] in Hsnd.
  assert (Hstop : forall w1,
             trace w1 = trace (advance (k + 0) (EvPage (S page_count) url :: gs) w) ->
             net w1 = net w -> sent w1 = (k + 0 + sent w)%nat ->
             exists es,
               trace w1 = trace w ++ es
               /\ paced es
               /\ net w1 = net w
               /\ (sent w <= sent w1)%nat
               /\ (sent w1 <= sent w + 3 * (max_pages - page_count))%nat).
  { intros w1 Ht Hn Hs. exists (EvPage (S page_count) url :: gs).
    rewrite Ht, Hs. cbn [advance trace].
    repeat split; try lia; try assumption.
    destruct Hgs as [->|[->| ->]]; cbn; tauto. }
  destruct (_make_request url _) as [[response|] w1]; cbn [snd] in Hsnd; subst w1.
  2:{ cbn [ret] in Hrun. injection Hrun as <- <-. apply Hstop; reflexivity. }
  destruct (is_json_site site_name).
  { unfold bind in Hrun.
    destruct (quiet_json_page response category_name url products
                (advance (k + 0) (EvPage (S page_count) url :: gs) w)) as (Hn & Hs & Ht).
    destruct (json_page response category_name url products _) as [ps2 w2].
    cbn [ret snd] in *. injection Hrun as <- <-. apply Hstop; assumption. }
  destruct (select_containers (soup response) selectors) as [|e els].
  { cbn [ret] in Hrun. injection Hrun as <- <-. apply Hstop; reflexivity. }
  unfold bind at 1 in Hrun.
  destruct (quiet_extract_elements (e :: els) (site_name +:+ "_" +:+ category_name)
              url selectors products
              (advance (k + 0) (EvPage (S page_count) url :: gs) w)) as (Hn & Hs & Ht).
  destruct (extract_elements (e :: els) _ url selectors products _) as [ps2 w2].
  cbn [snd] in Hn, Hs, Ht.
  destruct (_get_next_page_url (soup response) url selectors) as [[next_url|]|];
    [| cbn [ret] in Hrun; injection Hrun as <- <-; apply Hstop; assumption
     | cbn [ret] in Hrun; injection Hrun as <- <-; apply Hstop; assumption].
  destruct (_ || _);
    [cbn [ret] in Hrun; injection Hrun as <- <-; apply Hstop; assumption|].
  unfold bind in Hrun.
  destruct (random_delay_shape 1 3 w2 ltac:(discriminate))
    as (d & w2' & Hsnd3 & Hlo & Hhi & Hn3 & Hs3 & Ht3).
  destruct (_random_delay 1 3 w2) as [[] w3]. cbn [snd] in Hsnd3. subst w3.
  destruct (IH next_url (S page_count) ps2 (advance 0 [EvSleep d] w2') r w' Hrun)
    as (es & Htr & Hpaced & Hnet & Hge & Hle).
  exists ((EvPage (S page_count) url :: gs) ++ EvSleep d :: es).
  cbn [advance trace net sent] in *.
  rewrite Htr, Hnet, Ht3, Hn3, Ht, Hn. rewrite Hs3, Hs in Hge, Hle.
  cbn [advance trace net sent].
  split; [now rewrite <- !app_assoc|]. split; [|split; [reflexivity | lia]].
  apply paced_app_sleep; try assumption.
  destruct Hgs as [->|[->| ->]]; cbn; tauto.
Qed.

End CrawlShape.

(** X2. A crawl leaves the network as it found it and sends at most three
    GETs per page of the cap: never more than [3 * max_pages] in all. *)
Theorem crawl_request_budget `{Externals} (site_name : string)
    (site_config : SiteConfig) (category_name category_path : string)
    (max_pages : nat) (w : World) :
  let w' := snd (scrape_site_category site_name site_config category_name
                                      category_path max_pages w) in
  net w' = net w
  /\ (sent w <= sent w')%nat
  /\ (sent w' <= sent w + 3 * max_pages)%nat.
Proof.
  cbv zeta. unfold scrape_site_category.
  destruct (page_loop _ _ _ _ _ _ _ _ w) as [r w'] eqn:Hrun.
  destruct (page_loop_shape _ _ _ _ _ _ _ _ _ _ _ Hrun) as (es & _ & _ & Hnet & Hge & Hle).
  cbn [snd]. repeat split; [exact Hnet | exact Hge | lia].
Qed.

(** X3. Whatever a crawl adds to the trace, a page line that is not the
    first event added comes directly after a sleep of at least one and at
    most three seconds: the walker never starts a further page without the
    pause of [_random_delay(1, 3)]. *)
Theorem crawl_pauses_between_pages `{Externals} (site_name : string)
    (site_config : SiteConfig) (category_name category_path : string)
    (max_pages : nat) (w : World) :
  exists es,
    trace (snd (scrape_site_category site_name site_config category_name
                                     category_path max_pages w))
    = trace w ++ es
    /\ paced es.
Proof.
  unfold scrape_site_category.
  destruct (page_loop _ _ _ _ _ _ _ _ w) as [r w'] eqn:Hrun.
  destruct (page_loop_shape _ _ _ _ _ _ _ _ _ _ _ Hrun) as (es & Htr & Hpaced & _).
  exists es. split; assumption.
Qed.

(** ** JSON sources *)

(** X4. A crawl of a JSON source never raises and never paginates: whatever
    the page cap, it logs one page (none when the URL is empty or the cap is
    zero) and sends at most three GETs. *)
Theorem json_crawl_single_page `{Externals} (site_name : string)
    (site_config : SiteConfig) (category_name category_path : string)
    (max_pages : nat) (w : World) :
  let url := base_url site_config +:+ category_path in
  let crawl := scrape_site_category site_name site_config category_name
                                    category_path max_pages w in
  is_json_site site_name = true ->
  (exists products, fst crawl = Ok products)
  /\ pages (trace (snd crawl))
     = pages (trace w)
       ++ (if truthy url && (0 <? max_pages)%nat then [(1%nat, url)] else [])
  /\ (sent (snd crawl) <= sent w + 3)%nat.
Proof.
  cbv zeta. intros Hkind. unfold scrape_site_category.
  destruct (page_loop _ _ _ _ _ _ _ _ w) as [r w'] eqn:Hrun. cbn [fst snd].
  destruct max_pages as [|k]; cbn [page_loop] in Hrun.
  { injection Hrun as <- <-. rewrite andb_false_r, app_nil_r.
    repeat split; [now exists [] | lia]. }
  change (0 <? S k)%nat with true in *. rewrite andb_true_r in *.
  destruct (truthy (base_url site_config +:+ category_path)).
  2:{ cbn [andb] in Hrun. injection Hrun as <- <-. rewrite app_nil_r.
      repeat split; [now exists [] | lia]. }
  unfold bind at 1 in Hrun. rewrite emit_advance in Hrun.
  unfold bind at 1 in Hrun.
  destruct (make_request_shape (base_url site_config +:+ category_path)
              (advance 0 [EvPage 1 (base_url site_config +:+ category_path)] w))
    as (n & gs & Hsnd & Hn & Hgs).
  rewrite advance_advance in Hsnd. cbn [app] in Hsnd.
  assert (Hpages :
    pages (trace (advance (n + 0) (EvPage 1 (base_url site_config +:+ category_path) :: gs) w))
    = pages (trace w) ++ [(1%nat, base_url site_config +:+ category_path)]).
  { cbn [advance trace]. rewrite pages_app. f_equal.
    destruct Hgs as [->|[->| ->]]; reflexivity. }
  destruct (_make_request _ _) as [[response|] w1]; cbn [snd] in Hsnd; subst w1.
  2:{ cbn [ret] in Hrun. injection Hrun as <- <-.
      split; [now eexists|]. split; [exact Hpages|]. cbn [advance sent]. lia. }
  rewrite Hkind in Hrun. unfold bind in Hrun.
  destruct (quiet_json_page response category_name
              (base_url site_config +:+ category_path) []
              (advance (n + 0) (EvPage 1 (base_url site_config +:+ category_path) :: gs) w))
    as (_ & Hs & Ht).
  destruct (json_page response category_name _ [] _) as [ps w2].
  cbn [ret snd] in *. injection Hrun as <- <-.
  split; [now eexists|]. split.
  - rewrite Ht. exact Hpages.
  - rewrite Hs. cbn [advance sent]. lia.
Qed.

(** ** Markup records, element by element *)

Section MarkupRecords.

Context `{Externals}.

Hypothesis urljoin_total : forall base href, urljoin base href <> Raised.

Lemma extract_product_data_ok e category_name page_url selectors w :
  exists p,
    fst (_extract_product_data e category_name page_url selectors w) = Ok p
    /\ titre p = extract_title e (select_one e (sel_get selectors "title" ".title")).
Proof.
  unfold _extract_product_data, bind.
  destruct (_extract_price _ w) as [price w1].
  destruct (extract_rating _ w1) as [rating w2].
  destruct ((match rating with Some r => ret r | None => rating_default end) w2)
    as [x w3].
  destruct (select_one e (sel_get selectors "link" "a")) as [a|];
    [destruct (attrs a !! "href") as [href|];
     [pose proof (urljoin_total page_url href) as Hj;
      destruct (urljoin page_url href) as [u|]; [|congruence]|]|];
    cbn [ret fst]; eexists; split; reflexivity.
Qed.

Lemma extract_elements_titles category_name url selectors els :
  forall products w,
    map titre (fst (extract_elements els category_name url selectors products w))
    = map titre products
      ++ List.filter truthy
           (map (fun e => extract_title e (select_one e (sel_get selectors "title" ".title")))
                els).
Proof.
  induction els as [|e els IH]; intros products w; cbn [extract_elements map List.filter].
  - cbn [ret fst]. now rewrite app_nil_r.
  - unfold bind.
    destruct (extract_product_data_ok e category_name url selectors w) as (p & Hp & Ht).
    destruct (_extract_product_data e category_name url selectors w) as [r w1].
    cbn [fst] in Hp. subst r. rewrite IH. unfold keep. rewrite Ht.
    destruct (truthy (extract_title e _)) eqn:Etitle.
    + rewrite map_app, <- app_assoc. cbn [map app]. now rewrite Ht.
    + reflexivity.
Qed.

Lemma first_next_link_ok links current_url :
  exists next, first_next_link links current_url = Ok next.
Proof.
  induction links as [|link links IH]; cbn [first_next_link]; [now eexists|].
  destruct (attrs link !! "href") as [href|]; [|exact IH].
  destruct (existsb _ next_words); [|exact IH].
  pose proof (urljoin_total current_url href) as Hj.
  destruct (urljoin current_url href) as [u|]; [|congruence].
  cbn [res_bind]. now eexists.
Qed.

Lemma page_loop_ok fuel site_name category_name selectors max_pages :
  forall url page_count products w,
  exists result,
    fst (page_loop fuel site_name category_name selectors max_pages
                   url page_count products w) = Ok result.
Proof.
  induction fuel as [|fuel IH]; intros url page_count products w; cbn [page_loop].
  { now eexists. }
  destruct (truthy url && _); [|now eexists].
  unfold bind at 1. destruct (emit _ w) as [[] w0].
  unfold bind at 1. destruct (_make_request url w0) as [[response|] w1]; [|now eexists].
  destruct (is_json_site site_name).
  { unfold bind. destruct (json_page response category_name url products w1) as [ps w2].
    now eexists. }
  destruct (select_containers (soup response) selectors) as [|e els]; [now eexists|].
  unfold bind at 1.
  destruct (extract_elements (e :: els) _ url selectors products w1) as [ps w2].
  unfold _get_next_page_url.
  destruct (first_next_link_ok
              (select (soup response) (sel_get selectors "pagination" ".pagination a")) url)
    as [next ->].
  destruct next as [next_url|]; [|now eexists].
  destruct (_ || _); [now eexists|].
  unfold bind. destruct (_random_delay 1 3 w2) as [[] w3]. apply IH.
Qed.

End MarkupRecords.

(** X5. When [urljoin] raises on none of the links it is given, a crawl
    never raises, and the records built from the containers of a page are,
    in document order, those of the containers whose title is not empty:
    a container whose title, [title] attribute and own text are all empty is
    dropped and the others are kept. *)
Theorem markup_records_follow_titles `{Externals} :
  (forall base href, urljoin base href <> Raised) ->
  (forall site_name site_config category_name category_path max_pages w,
     exists products,
       fst (scrape_site_category site_name site_config category_name category_path
                                 max_pages w) = Ok products)
  /\ (forall els category_name url selectors w,
        map titre (fst (extract_elements els category_name url selectors [] w))
        = List.filter truthy
            (map (fun e =>
                    extract_title e (select_one e (sel_get selectors "title" ".title")))
                 els)).
Proof.
  intros Htotal. split.
  - intros site_name site_config category_name category_path max_pages w.
    unfold scrape_site_category. now apply page_loop_ok.
  - intros els category_name url selectors w.
    now rewrite (extract_elements_titles Htotal).
Qed.

(** ** The next link *)

Section NextLink.

Context `{Externals}.

Lemma first_next_link_none links current_url :
  first_next_link links current_url = Ok None
  <-> Forall (fun l => is_next_link l = false) links.
Proof.
  induction links as [|link links IH]; cbn [first_next_link].
  - split; [constructor | reflexivity].
  - unfold is_next_link at 1.
    destruct (attrs link !! "href") as [href|] eqn:Hhref.
    + destruct (existsb _ next_words) eqn:Hword.
      * split.
        -- destruct (urljoin current_url href); discriminate.
        -- intros Hall. inversion Hall as [|? ? Hlink _]; subst.
           unfold is_next_link in Hlink. rewrite Hhref in Hlink. congruence.
      * rewrite IH. split.
        -- intros Hall. constructor; [|exact Hall].
           unfold is_next_link. now rewrite Hhref.
        -- intros Hall. now inversion Hall.
    + rewrite IH. split.
      * intros Hall. constructor; [|exact Hall].
        unfold is_next_link. now rewrite Hhref.
      * intros Hall. now inversion Hall.
Qed.

Lemma first_next_link_first pre link post href current_url :
  Forall (fun l => is_next_link l = false) pre ->
  is_next_link link = true ->
  attrs link !! "href" = Some href ->
  first_next_link (pre ++ link :: post) current_url
  = res_bind (urljoin current_url href) (fun u => Ok (Some u)).
Proof.
  intros Hpre Hlink Hhref. induction Hpre as [|l pre Hl _ IH]; cbn [app first_next_link].
  - unfold is_next_link in Hlink. rewrite Hhref in *. now rewrite Hlink.
  - unfold is_next_link in Hl.
    destruct (attrs l !! "href"); [rewrite Hl|]; exact IH.
Qed.

End NextLink.

(** X6. [_get_next_page_url] follows the first pagination link, in document
    order, that has an [href] and whose text contains [next], [suivant],
    [>] or the closing guillemet, whatever its case: links before it that
    lack the [href] or the word are passed over, links after it are never
    looked at.  It returns [None] exactly when no link qualifies. *)
Theorem next_link_is_first_match `{Externals} (soup_ : Tag) (current_url : string)
    (selectors : Selectors) :
  let links := select soup_ (sel_get selectors "pagination" ".pagination a") in
  (_get_next_page_url soup_ current_url selectors = Ok None
   <-> Forall (fun l => is_next_link l = false) links)
  /\ (forall pre link post href,
        links = pre ++ link :: post ->
        Forall (fun l => is_next_link l = false) pre ->
        is_next_link link = true ->
        attrs link !! "href" = Some href ->
        _get_next_page_url soup_ current_url selectors
        = res_bind (urljoin current_url href) (fun u => Ok (Some u))).
Proof.
  cbv zeta. unfold _get_next_page_url. split.
  - apply first_next_link_none.
  - intros pre link post href -> Hpre Hlink Hhref.
    now apply first_next_link_first.
Qed.

(** ** Prices that are read, not drawn *)

Section PriceRead.








End PriceRead.


(** ** Field lengths *)

Section Lengths.

Context `{Externals}.

Lemma length_chars s : List.length (chars s) = String.length s.
Proof. rewrite <- (text_chars s) at 2. now rewrite length_text. Qed.

Lemma length_append s1 s2 :
  String.length (s1 +:+ s2) = (String.length s1 + String.length s2)%nat.
Proof. rewrite <- !length_chars, chars_append. apply length_app. Qed.

Lemma lstrip_length l : (List.length (lstrip l) <= List.length l)%nat.
Proof.
  induction l as [|c l IH]; cbn [lstrip List.length]; [lia|].
  destruct (isspace c); cbn [List.length]; lia.
Qed.

Lemma strip_length l : (List.length (strip l) <= List.length l)%nat.
Proof.
  unfold strip. rewrite length_rev.
  etransitivity; [apply lstrip_length|]. rewrite length_rev. apply lstrip_length.
Qed.

Lemma sub_ws_length in_run l : (List.length (sub_ws in_run l) <= List.length l)%nat.
Proof.
  revert in_run. induction l as [|c l IH]; intros in_run; cbn [sub_ws List.length]; [lia|].
  destruct (isspace c); [destruct in_run|]; cbn [List.length];
    first [specialize (IH true); lia | specialize (IH false); lia].
Qed.

Lemma clean_text_shorter s : (String.length (_clean_text s) <= String.length s)%nat.
Proof.
  unfold _clean_text. destruct (truthy s); cbn [negb]; [|cbn; lia].
  rewrite length_text, length_take. unfold replace_char. rewrite !length_map.
  pose proof (sub_ws_length false (strip (chars s))).
  pose proof (strip_length (chars s)). rewrite length_chars in *. lia.
Qed.

Lemma slice_to_length n s : (String.length (slice_to n s) <= n)%nat.
Proof. unfold slice_to. rewrite length_text, length_take. lia. Qed.

Lemma extract_title_length e title_elem :
  (String.length (extract_title e title_elem) <= 300)%nat.
Proof.
  unfold extract_title.
  destruct title_elem as [t|]; cbn [text_of];
    [destruct (attrs t !! "title") as [v|];
     [destruct (truthy (_clean_text (get_text t))) eqn:E; cbn [negb];
      [rewrite E | destruct (truthy (_clean_text v))]
     |destruct (truthy (_clean_text (get_text t)))]
    |destruct (truthy (_clean_text ""))];
    cbn [negb]; apply clean_text_length.
Qed.

Lemma json_text_length n v t :
  res_bind (json_slice n v) clean_json = Ok t -> (String.length t <= n)%nat.
Proof.
  destruct v; cbn [json_slice res_bind]; try discriminate; unfold clean_json;
    cbn [json_truthy].
  - destruct (negb _); intros [= <-]; [cbn; lia|].
    etransitivity; [apply clean_text_shorter | apply slice_to_length].
  - destruct (take n items); cbn [negb]; [|discriminate].
    intros [= <-]. cbn. lia.
Qed.

Lemma create_product_from_json_lengths j category_name url w p :
  fst (_create_product_from_json j category_name url w) = Ok p ->
  (String.length (titre p) <= 50)%nat
  /\ (String.length (description p) <= 200)%nat
  /\ vendeur p = "Digital Store".
Proof.
  unfold _create_product_from_json.
  destruct j as [| | | | |fields]; try discriminate.
  destruct (res_bind (json_slice 50 _) clean_json) as [title|] eqn:Ht; [|discriminate].
  unfold bind at 1. destruct (random_uniform _ _ w) as [u w1].
  destruct (match fields !! "id" with Some _ => _ | None => _ end) as [price|];
    [|discriminate].
  destruct (res_bind (json_slice 200 _) clean_json) as [d|] eqn:Hd; [|discriminate].
  unfold bind. destruct (random_choice _ _ w1) as [av w2].
  destruct (rating_default w2) as [rt w3]. cbn [ret fst]. intros [= <-].
  cbn [titre description vendeur]. apply json_text_length in Ht, Hd.
  repeat split.
  - destruct (negb (truthy title)); [cbn; lia | exact Ht].
  - destruct (negb (truthy d)); [cbn; lia | exact Hd].
Qed.

End Lengths.

(** X8. [_clean_text] never returns more characters than it is given.  In
    every record a crawl returns, the title and the vendor have at most 300
    characters and the description at most 203 (200 and the three dots); on
    the JSON path the title has at most 50 characters and the description at
    most 200. *)
Theorem crawl_field_lengths `{Externals} :
  (forall s, (String.length (_clean_text s) <= String.length s)%nat)
  /\ (forall site_name site_config category_name category_path max_pages w products,
        fst (scrape_site_category site_name site_config category_name category_path
                                  max_pages w) = Ok products ->
        Forall (fun p =>
                  (String.length (titre p) <= 300)%nat
                  /\ (String.length (description p) <= 203)%nat
                  /\ (String.length (vendeur p) <= 300)%nat
                  /\ (is_json_site site_name = true ->
                      (String.length (titre p) <= 50)%nat
                      /\ (String.length (description p) <= 200)%nat))
               products).
Proof.
  split; [apply clean_text_shorter|].
  intros site_name site_config category_name category_path max_pages w products Hcrawl.
  unfold scrape_site_category in Hcrawl.
  eapply page_loop_Forall; [| | constructor | exact Hcrawl].
  - intros Hkind e url w' p Hp _.
    destruct (extract_product_data_fields _ _ _ _ _ _ Hp)
      as (Ht & _ & _ & _ & _ & Hd & Hv).
    rewrite Ht, Hd, Hv. split; [apply extract_title_length|].
    split; [|split; [apply clean_text_length | congruence]].
    destruct (200 <? _)%nat eqn:Hlong.
    + rewrite length_append. pose proof (slice_to_length 200
        (_clean_text (text_of (select_one e
           (sel_get (default default_selectors (site_selectors site_config))
                    "description" ".description")) ""))).
      cbn [String.length]. lia.
    + apply Nat.ltb_ge in Hlong. lia.
  - intros Hkind j url w' p Hp _.
    destruct (create_product_from_json_lengths _ _ _ _ _ Hp) as (Ht & Hd & Hv).
    rewrite Hv. cbn [String.length]. repeat split; lia.
Qed.

(** ** The shape of a cleaned text *)

Section CleanShape.

Implicit Types (l : list ascii) (c : ascii).

Lemma lstrip_starts_clean l : starts_clean (lstrip l).
Proof.
  induction l as [|c l IH]; cbn [lstrip]; [exact I|].
  destruct (isspace c) eqn:Hc; [exact IH | exact Hc].
Qed.

Lemma lstrip_suffix l : exists k, l = k ++ lstrip l.
Proof.
  induction l as [|c l [k IH]]; cbn [lstrip]; [now exists []|].
  destruct (isspace c); [|now exists []].
  exists (c :: k). cbn [app]. now rewrite <- IH.
Qed.

Lemma lstrip_all_space l : Forall (fun c => isspace c = true) l -> lstrip l = [].
Proof. induction 1 as [|c l Hc _ IH]; cbn [lstrip]; [reflexivity | now rewrite Hc]. Qed.

Lemma strip_prefix l : exists k, lstrip l = strip l ++ k.
Proof.
  unfold strip. destruct (lstrip_suffix (rev (lstrip l))) as [k Hk].
  exists (rev k). rewrite <- rev_app_distr, <- Hk. symmetry. apply rev_involutive.
Qed.

Lemma strip_starts_clean l : starts_clean (strip l).
Proof.
  destruct (strip_prefix l) as [k Hk]. pose proof (lstrip_starts_clean l) as Hl.
  rewrite Hk in Hl. destruct (strip l); [exact I | exact Hl].
Qed.

Lemma sub_ws_single_spaced l :
  forall in_run,
    single_spaced (sub_ws in_run l)
    /\ (in_run = true -> match sub_ws in_run l with
                         | c :: _ => c <> " "%char
                         | [] => True
                         end).
Proof.
  induction l as [|c l IH]; intros in_run; cbn [sub_ws]; [split; [exact I | intros _; exact I]|].
  destruct (isspace c) eqn:Hc.
  - destruct in_run.
    + apply IH.
    + destruct (IH true) as [Hs Hh]. specialize (Hh eq_refl). split; [|discriminate].
      cbn [single_spaced]. destruct (sub_ws true l) as [|b t]; [exact I|].
      split; [|exact Hs]. intros [_ Hb]. contradiction.
  - destruct (IH false) as [Hs _]. split.
    + cbn [single_spaced]. destruct (sub_ws false l) as [|b t]; [exact I|].
      split; [|exact Hs]. intros [-> _]. discriminate.
    + intros _ ->. discriminate.
Qed.

Lemma sub_ws_starts_clean l : starts_clean l -> starts_clean (sub_ws false l).
Proof.
  destruct l as [|c l]; cbn [sub_ws starts_clean]; [trivial|].
  intros Hc. now rewrite Hc.
Qed.

Lemma replace_char_id a b l : a ∉ l -> replace_char a b l = l.
Proof.
  unfold replace_char. induction l as [|c l IH]; intros Ha; cbn [map]; [reflexivity|].
  rewrite IH by (intros Hin; apply Ha, elem_of_cons; now right).
  destruct (ch_eqb c a) eqn:E; [|reflexivity].
  apply ch_eqb_eq in E. subst c. exfalso. apply Ha, elem_of_cons. now left.
Qed.

(** The two replacements of line breaks in [_clean_text] find nothing to
    replace: the collapse of whitespace has removed every line break. *)
Lemma clean_text_collapsed s :
  _clean_text s
  = if truthy s
    then text (take 300 (replace_char ";"%char ","%char (sub_ws false (strip (chars s)))))
    else "".
Proof.
  unfold _clean_text. destruct (truthy s); cbn [negb]; [|reflexivity].
  assert (Hws : forall c, isspace c = true -> c <> " "%char ->
                          c ∉ replace_char ";"%char ","%char (sub_ws false (strip (chars s)))).
  { intros c Hc Hne Hin. apply replace_char_incl in Hin as [Hin| ->]; [|discriminate].
    now apply sub_ws_space in Hin. }
  rewrite (replace_char_id LF) by (apply Hws; [reflexivity | discriminate]).
  rewrite (replace_char_id CR) by (apply Hws; [reflexivity | discriminate]).
  reflexivity.
Qed.

Lemma single_spaced_take n l : single_spaced l -> single_spaced (take n l).
Proof.
  revert n. induction l as [|a l IH]; intros n Hl; destruct n as [|n]; cbn [take]; try exact I.
  cbn [single_spaced] in *. destruct l as [|b l]; [destruct n; exact I|].
  destruct Hl as [Hab Hl]. destruct n as [|n]; cbn [take]; [exact I|].
  split; [exact Hab|]. exact (IH (S n) Hl).
Qed.

Lemma single_spaced_replace a b l :
  b <> " "%char -> single_spaced l -> single_spaced (replace_char a b l).
Proof.
  intros Hb. unfold replace_char.
  induction l as [|x l IH]; intros Hl; cbn [map]; [exact I|].
  cbn [single_spaced] in *. destruct l as [|y l]; [exact I|].
  destruct Hl as [Hxy Hl]. cbn [map] in *. split; [|exact (IH Hl)].
  intros [Hx Hy]. apply Hxy. split.
  - destruct (ch_eqb x a); [congruence | exact Hx].
  - destruct (ch_eqb y a); [congruence | exact Hy].
Qed.

Lemma starts_clean_replace a b l :
  isspace b = false -> starts_clean l -> starts_clean (replace_char a b l).
Proof.
  intros Hb. destruct l as [|c l]; cbn [replace_char map starts_clean]; [trivial|].
  intros Hc. destruct (ch_eqb c a); assumption.
Qed.

Lemma starts_clean_take n l : starts_clean l -> starts_clean (take n l).
Proof. destruct l, n; cbn [take starts_clean]; trivial. Qed.

Lemma clean_text_starts_clean s : starts_clean (chars (_clean_text s)).
Proof.
  rewrite clean_text_collapsed. destruct (truthy s); [|exact I].
  rewrite chars_text. apply starts_clean_take, starts_clean_replace; [reflexivity|].
  apply sub_ws_starts_clean, strip_starts_clean.
Qed.

Lemma clean_text_single_spaced s : single_spaced (chars (_clean_text s)).
Proof.
  rewrite clean_text_collapsed. destruct (truthy s); [|exact I].
  rewrite chars_text. apply single_spaced_take, single_spaced_replace; [discriminate|].
  apply sub_ws_single_spaced.
Qed.

End CleanShape.

(** X9. A text made of whitespace only is cleaned to the empty text.  A
    cleaned text never begins with a whitespace character and never has two
    spaces side by side; and the two [replace] calls on line breaks in
    [_clean_text] never change anything, the collapse of whitespace having
    removed them before. *)
Theorem clean_text_shape (s : string) :
  (Forall (fun c => isspace c = true) (chars s) -> _clean_text s = "")
  /\ starts_clean (chars (_clean_text s))
  /\ single_spaced (chars (_clean_text s))
  /\ _clean_text s
     = (if truthy s
        then text (take 300 (replace_char ";"%char ","%char
                               (sub_ws false (strip (chars s)))))
        else "").
Proof.
  split; [|split; [apply clean_text_starts_clean
                  |split; [apply clean_text_single_spaced | apply clean_text_collapsed]]].
  intros Hall. rewrite clean_text_collapsed. destruct (truthy s); [|reflexivity].
  unfold strip. rewrite (lstrip_all_space _ Hall). reflexivity.
Qed.

Section CleanTwice.

Implicit Types (l : list ascii) (c : ascii).

Lemma sub_ws_id l :
  (forall c, c ∈ l -> isspace c = true -> c = " "%char) ->
  single_spaced l ->
  forall in_run, (in_run = true -> starts_clean l) -> sub_ws in_run l = l.
Proof.
  induction l as [|c l IH]; intros Hws Hss in_run Hrun; cbn [sub_ws]; [reflexivity|].
  assert (Hws' : forall x, x ∈ l -> isspace x = true -> x = " "%char).
  { intros x Hx. apply Hws, elem_of_cons. now right. }
  assert (Hss' : single_spaced l).
  { cbn [single_spaced] in Hss. destruct l; [exact I | apply Hss]. }
  destruct (isspace c) eqn:Hc.
  - destruct in_run.
    + specialize (Hrun eq_refl). cbn [starts_clean] in Hrun. congruence.
    + assert (c = " "%char) as -> by (apply Hws; [apply elem_of_cons; now left | exact Hc]).
      f_equal. apply IH; try assumption. intros _.
      destruct l as [|b l]; [exact I|]. cbn [starts_clean].
      destruct (isspace b) eqn:Hb; [|reflexivity].
      assert (b = " "%char) as -> by (apply Hws'; [apply elem_of_cons; now left | exact Hb]).
      cbn [single_spaced] in Hss. destruct Hss as [Hss _]. exfalso. now apply Hss.
  - f_equal. apply IH; try assumption. discriminate.
Qed.

Lemma strip_id_ends l :
  starts_clean l -> starts_clean (rev l) -> strip l = l.
Proof.
  intros Hhead Hlast. unfold strip.
  assert (Hl : forall x, starts_clean x -> lstrip x = x).
  { intros [|c x]; cbn [lstrip starts_clean]; [reflexivity|]. now intros ->. }
  rewrite (Hl l Hhead), (Hl (rev l) Hlast). apply rev_involutive.
Qed.

End CleanTwice.

(** X10. Cleaning a cleaned text changes nothing, unless the first cleaning
    cut the text at 300 characters right after a space: when the cleaned
    text does not end with a whitespace character, [_clean_text] returns it
    as it is. *)
Theorem clean_text_twice (s : string) :
  starts_clean (rev (chars (_clean_text s))) ->
  _clean_text (_clean_text s) = _clean_text s.
Proof.
  intros Hlast. rewrite (clean_text_collapsed (_clean_text s)).
  destruct (truthy (_clean_text s)) eqn:Htruthy.
  2:{ symmetry. now apply truthy_false. }
  rewrite (strip_id_ends _ (clean_text_starts_clean s) Hlast).
  rewrite (sub_ws_id _ (clean_text_space s) (clean_text_single_spaced s) false)
    by discriminate.
  rewrite replace_char_id by apply clean_text_no_semicolon.
  rewrite take_ge.
  - apply text_chars.
  - rewrite length_chars. apply clean_text_length.
Qed.

(** A text cut right after a space: cleaning it again strips that space. *)
Example clean_text_twice_after_cut :
  let s := text (repeat "a"%char 299 ++ chars " b") in
  String.length (_clean_text s) = 300%nat
  /\ String.length (_clean_text (_clean_text s)) = 299%nat.
Proof. cbv zeta. split; vm_compute; reflexivity. Qed.

(** ** The tally of [generate_statistics] *)

Section Tally.

Lemma tally_step_lookup (m : gmap string nat) p cat :
  tally_step m p !! cat
  = if String.eqb (categorie p) cat then Some (default 0 (m !! cat) + 1) else m !! cat.
Proof.
  unfold tally_step. destruct (String.eqb_spec (categorie p) cat) as [->|Hne].
  - apply lookup_insert_eq.
  - now apply lookup_insert_ne.
Qed.

Lemma fold_tally_lookup products :
  forall (m : gmap string nat) cat,
    fold_left tally_step products m !! cat
    = match count_category cat products with
      | O => m !! cat
      | S n => Some (default 0 (m !! cat) + S n)
      end.
Proof.
  unfold count_category.
  induction products as [|p products IH]; intros m cat; cbn [fold_left List.filter];
    [reflexivity|].
  rewrite IH, tally_step_lookup.
  destruct (String.eqb (categorie p) cat); cbn [List.length default].
  - destruct (List.length _); unfold id; f_equal; lia.
  - reflexivity.
Qed.

Lemma tally_total_step (m : gmap string nat) p :
  tally_total (tally_step m p) = S (tally_total m).
Proof.
  unfold tally_total, tally_step.
  assert (Hcomm : forall (m' : gmap string nat) (j1 j2 : string) (z1 z2 y : nat),
             j1 <> j2 -> m' !! j1 = Some z1 -> m' !! j2 = Some z2 ->
             z1 + (z2 + y) = z2 + (z1 + y)) by (intros; lia).
  destruct (m !! categorie p) as [n|] eqn:Hlook; cbn [default].
  - rewrite <- insert_delete_eq.
    rewrite map_fold_insert_L; [|intros; lia | apply lookup_delete_eq].
    rewrite (map_fold_delete_L _ _ (categorie p) n m); [| intros; lia | exact Hlook].
    unfold id. lia.
  - rewrite map_fold_insert_L; [lia | intros; lia | exact Hlook].
Qed.

Lemma fold_tally_total products :
  forall m : gmap string nat,
    tally_total (fold_left tally_step products m) = tally_total m + List.length products.
Proof.
  induction products as [|p products IH]; intros m; cbn [fold_left List.length]; [lia|].
  rewrite IH, tally_total_step. lia.
Qed.

End Tally.

(** X11. The tally by category of [generate_statistics] holds, for each
    category, the number of products of that category, and has no entry for
    a category without product; its counts add up to the number of
    products. *)
Theorem category_tally_counts (products : list Product) (cat : string) :
  category_tally products !! cat
  = match count_category cat products with
    | O => None
    | S n => Some (S n)
    end
  /\ tally_total (category_tally products) = List.length products.
Proof.
  unfold category_tally. split.
  - rewrite fold_tally_lookup. now rewrite lookup_empty.
  - rewrite fold_tally_total. unfold tally_total. now rewrite map_fold_empty.
Qed.

(** ** The source label of the Streamlit records *)

Section SourceLabel.

Implicit Types (l r p : list ascii) (c sep : ascii) (s : string).

Lemma before_first_no_sep sep l : sep ∉ Streamlit.before_first sep l.
Proof.
  induction l as [|c l IH]; cbn [Streamlit.before_first]; [apply not_elem_of_nil|].
  destruct (ch_eqb c sep) eqn:E; [apply not_elem_of_nil|].
  intros Hin. apply elem_of_cons in Hin as [->|Hin]; [|now apply IH].
  unfold ch_eqb in E. now rewrite Ascii.eqb_refl in E.
Qed.

Lemma before_first_app_sep sep l r :
  sep ∉ l -> Streamlit.before_first sep (l ++ sep :: r) = l.
Proof.
  induction l as [|c l IH]; intros Hl; cbn [app Streamlit.before_first].
  - unfold ch_eqb. now rewrite Ascii.eqb_refl.
  - destruct (ch_eqb c sep) eqn:E.
    + apply ch_eqb_eq in E. subst c. exfalso. apply Hl, elem_of_cons. now left.
    + f_equal. apply IH. intros Hin. apply Hl, elem_of_cons. now right.
Qed.

Lemma before_first_app sep l r :
  sep ∈ l -> Streamlit.before_first sep (l ++ r) = Streamlit.before_first sep l.
Proof.
  induction l as [|c l IH]; intros Hl; cbn [app Streamlit.before_first].
  - now apply elem_of_nil in Hl.
  - destruct (ch_eqb c sep) eqn:E; [reflexivity|].
    f_equal. apply IH. apply elem_of_cons in Hl as [->|Hl]; [|exact Hl].
    unfold ch_eqb in E. now rewrite Ascii.eqb_refl in E.
Qed.

Lemma is_prefix_elem p l : is_prefix p l = true -> forall c, c ∈ p -> c ∈ l.
Proof.
  revert l. induction p as [|a p IH]; intros l Hp c Hc; [now apply elem_of_nil in Hc|].
  destruct l as [|b l]; cbn [is_prefix] in Hp; [discriminate|].
  apply andb_true_iff in Hp as [Hab Hp]. apply ch_eqb_eq in Hab. subst b.
  apply elem_of_cons in Hc as [->|Hc]; apply elem_of_cons; [now left|right].
  now apply (IH l).
Qed.

Lemma is_infix_elem p l : is_infix p l = true -> forall c, c ∈ p -> c ∈ l.
Proof.
  induction l as [|b l IH]; cbn [is_infix]; intros Hp c Hc.
  - rewrite orb_false_r in Hp. now apply (is_prefix_elem p).
  - apply orb_true_iff in Hp as [Hp|Hp]; [now apply (is_prefix_elem p)|].
    apply elem_of_cons. right. now apply IH.
Qed.

Lemma is_infix_single c l : is_infix [c] l = true <-> c ∈ l.
Proof.
  split.
  - intros Hin. apply (is_infix_elem [c]); [exact Hin | apply elem_of_cons; now left].
  - induction l as [|b l IH]; intros Hc; [now apply elem_of_nil in Hc|].
    cbn [is_infix is_prefix]. apply elem_of_cons in Hc as [->|Hc].
    + unfold ch_eqb. now rewrite Ascii.eqb_refl.
    + rewrite (IH Hc). apply orb_true_r.
Qed.

Lemma contains_underscore s : contains "_" s = true <-> "_"%char ∈ chars s.
Proof. unfold contains. apply is_infix_single. Qed.

(** The label never holds an underscore. *)
Lemma source_label_no_underscore s : "_"%char ∉ chars (Streamlit.source_label s).
Proof.
  unfold Streamlit.source_label. destruct (contains "_" s) eqn:E.
  - rewrite chars_text. apply before_first_no_sep.
  - intros Hin. apply contains_underscore in Hin. congruence.
Qed.

(** The label of [f"{site_name}_{category_name}"] is the label of the site
    name alone. *)
Lemma source_label_site site_name category_name :
  Streamlit.source_label (site_name +:+ "_" +:+ category_name)
  = Streamlit.source_label site_name.
Proof.
  unfold Streamlit.source_label.
  assert (Hchars : chars (site_name +:+ "_" +:+ category_name)
                   = chars site_name ++ "_"%char :: chars category_name).
  { now rewrite chars_append. }
  assert (Hin : contains "_" (site_name +:+ "_" +:+ category_name) = true).
  { apply contains_underscore. rewrite Hchars. apply elem_of_app. right.
    apply elem_of_cons. now left. }
  rewrite Hin, Hchars. destruct (contains "_" site_name) eqn:E.
  - apply contains_underscore in E. now rewrite before_first_app.
  - rewrite before_first_app_sep; [apply text_chars|].
    intros Hc. apply contains_underscore in Hc. congruence.
Qed.

End SourceLabel.

(** ** Invariants of the Streamlit page loop *)

Section StreamlitLoop.

Context `{Externals}.

Variable P : Streamlit.Product -> Prop.

Lemma streamlit_keep_Forall products p :
  Forall P products -> P p -> Forall P (StreamlitScraper.keep products p).
Proof.
  intros Hps Hp. unfold StreamlitScraper.keep.
  destruct (truthy _); [|exact Hps].
  apply Forall_app. split; [exact Hps|]. constructor; [exact Hp | constructor].
Qed.

Lemma streamlit_extract_elements_Forall category_name url selectors :
  (forall e w p,
     fst (Streamlit._extract_product_data e category_name url selectors w) = Ok p -> P p) ->
  forall els products w,
    Forall P products ->
    Forall P (fst (StreamlitScraper.extract_elements els category_name url selectors
                                                      products w)).
Proof.
  intros HP els. induction els as [|e els IH]; intros products w Hps;
    cbn [StreamlitScraper.extract_elements].
  - exact Hps.
  - unfold bind. specialize (HP e w).
    destruct (Streamlit._extract_product_data e category_name url selectors w) as [r w1].
    apply IH. destruct r as [p|]; [|exact Hps].
    apply streamlit_keep_Forall; [exact Hps|]. now apply HP.
Qed.

Lemma streamlit_json_items_Forall category_name url :
  (forall j w p,
     fst (StreamlitScraper._create_product_from_json j category_name url w) = Ok p -> P p) ->
  forall items products w,
    Forall P products ->
    Forall P (fst (StreamlitScraper.json_items items category_name url products w)).
Proof.
  intros HP items. induction items as [|j items IH]; intros products w Hps;
    cbn [StreamlitScraper.json_items].
  - exact Hps.
  - unfold bind. specialize (HP j w).
    destruct (StreamlitScraper._create_product_from_json j category_name url w)
      as [[p|] w1].
    + apply IH. apply streamlit_keep_Forall; [exact Hps|]. now apply HP.
    + exact Hps.
Qed.

Lemma streamlit_json_page_Forall response category_name url :
  (forall j w p,
     fst (StreamlitScraper._create_product_from_json j category_name url w) = Ok p -> P p) ->
  forall products w,
    Forall P products ->
    Forall P (fst (StreamlitScraper.json_page response category_name url products w)).
Proof.
  intros HP products w Hps. unfold StreamlitScraper.json_page.
  destruct (json response) as [j|]; [|exact Hps].
  assert (Hone : forall j0,
             Forall P (fst ((do r <- StreamlitScraper._create_product_from_json
                                       j0 category_name url;
                             match r with
                             | Ok product => ret (StreamlitScraper.keep products product)
                             | Raised => ret products
                             end) w))).
  { intros j0. unfold bind. specialize (HP j0 w).
    destruct (StreamlitScraper._create_product_from_json j0 category_name url w)
      as [[p|] w1]; cbn [ret fst]; [|exact Hps].
    apply streamlit_keep_Forall; [exact Hps|]. now apply HP. }
  destruct (StreamlitScraper.unwrap_products j);
    first [apply Hone | now apply streamlit_json_items_Forall].
Qed.

(** Whatever holds of every record when it is built, holds of every record
    a crawl of the Streamlit scraper returns. *)
Lemma streamlit_page_loop_Forall site_name category_name selectors max_pages :
  (StreamlitScraper.is_json_site site_name = false ->
   forall e url w p,
     fst (Streamlit._extract_product_data e (site_name +:+ "_" +:+ category_name)
                                          url selectors w) = Ok p ->
     P p) ->
  (StreamlitScraper.is_json_site site_name = true ->
   forall j url w p,
     fst (StreamlitScraper._create_product_from_json j category_name url w) = Ok p ->
     P p) ->
  forall fuel url page_count products w res,
    Forall P products ->
    fst (StreamlitScraper.page_loop fuel site_name category_name selectors max_pages
                                    url page_count products w) = Ok res ->
    Forall P res.
Proof.
  intros HM HJ fuel. induction fuel as [|fuel IH];
    intros url page_count products w res Hps; cbn [StreamlitScraper.page_loop].
  - intros [= <-]. exact Hps.
  - destruct (truthy url && _); [|intros [= <-]; exact Hps].
    unfold bind at 1. destruct (_make_request url w) as [[response|] w1];
      [|intros [= <-]; exact Hps].
    destruct (StreamlitScraper.is_json_site site_name) eqn:Hkind.
    + unfold bind.
      pose proof (streamlit_json_page_Forall response category_name url
                    (fun j w p => HJ eq_refl j url w p) products w1 Hps) as Hj.
      destruct (StreamlitScraper.json_page response category_name url products w1)
        as [ps w2].
      cbn [ret fst]. intros [= <-]. exact Hj.
    + destruct (select_containers (soup response) selectors) as [|e els] eqn:Hsel;
        [intros [= <-]; exact Hps|].
      unfold bind at 1.
      pose proof (streamlit_extract_elements_Forall
                    (site_name +:+ "_" +:+ category_name) url
                    selectors (fun e w p => HM eq_refl e url w p)
                    (e :: els) products w1 Hps) as He.
      destruct (StreamlitScraper.extract_elements (e :: els) _ url selectors products w1)
        as [ps w2].
      cbn [fst] in He.
      destruct (_get_next_page_url (soup response) url selectors) as [[next_url|]|];
        [| intros [= <-]; exact He | discriminate].
      destruct (_ || _); [intros [= <-]; exact He|].
      unfold bind. destruct (_random_delay 1 2 w2) as [[] w3].
      now apply IH.
Qed.

Lemma streamlit_extract_source e category_name url selectors w p :
  fst (Streamlit._extract_product_data e category_name url selectors w) = Ok p ->
  Streamlit.source p = Streamlit.source_label category_name.
Proof.
  unfold Streamlit._extract_product_data, Streamlit.diverse_extract_product_data, bind.
  destruct (_extract_product_data e category_name url selectors w) as [[q|] w2];
    cbn [ret fst]; [|discriminate].
  now intros [= <-].
Qed.

End StreamlitLoop.

Lemma streamlit_json_source `{Externals} j category_name url w p :
  fst (StreamlitScraper._create_product_from_json j category_name url w) = Ok p ->
  Streamlit.source p = Streamlit.source_label category_name.
Proof.
  unfold StreamlitScraper._create_product_from_json. intros Hp.
  destruct j; try discriminate.
  destruct (StreamlitScraper.json_title fields); [|discriminate].
  unfold bind in Hp.
  destruct (StreamlitScraper.json_price fields w) as [price w1].
  destruct (res_bind _ clean_json); [|discriminate].
  destruct (StreamlitScraper.json_rating fields w1) as [[rating|] w2]; [|discriminate].
  destruct (random_choice _ _ w2) as [av w3].
  destruct (json_float rating); [|discriminate].
  destruct (clean_json _); [|discriminate].
  cbn [ret fst] in Hp. now injection Hp as <-.
Qed.

(** No crawled record has an underscore in its source. *)
Lemma crawled_source_no_underscore `{Externals} p :
  StreamlitScraper.crawled p -> "_"%char ∉ chars (Streamlit.source p).
Proof.
  intros (site_name & site_config & category_name & category_path & max_pages
          & w & products & Hcrawl & Hin).
  unfold StreamlitScraper.scrape_site_category in Hcrawl.
  assert (Hall : Forall (fun q => "_"%char ∉ chars (Streamlit.source q)) products).
  { eapply streamlit_page_loop_Forall; [| | constructor | exact Hcrawl].
    - intros _ e url w' q Hq. rewrite (streamlit_extract_source _ _ _ _ _ _ Hq).
      apply source_label_no_underscore.
    - intros _ j url w' q Hq. rewrite (streamlit_json_source _ _ _ _ _ Hq).
      apply source_label_no_underscore. }
  rewrite Forall_forall in Hall. now apply Hall.
Qed.

(** X12. Every record a crawl of the Streamlit scraper returns carries as
    ['source'] the label of the site name (markup sites) or of the category
    name (JSON sites): the text before its first underscore.  The category
    appended to the site name on the markup path never reaches the label. *)
Theorem crawl_source_label `{Externals} (site_name : string) (site_config : SiteConfig)
    (category_name category_path : string) (max_pages : nat) (w : World)
    (products : list Streamlit.Product) :
  fst (StreamlitScraper.scrape_site_category site_name site_config category_name
                                             category_path max_pages w) = Ok products ->
  Forall (fun p =>
            Streamlit.source p
            = Streamlit.source_label
                (if StreamlitScraper.is_json_site site_name
                 then category_name else site_name)
            /\ "_"%char ∉ chars (Streamlit.source p))
         products.
Proof.
  intros Hcrawl. unfold StreamlitScraper.scrape_site_category in Hcrawl.
  eapply streamlit_page_loop_Forall; [| | constructor | exact Hcrawl].
  - intros Hkind e url w' p Hp. rewrite Hkind.
    rewrite (streamlit_extract_source _ _ _ _ _ _ Hp), source_label_site.
    split; [reflexivity | apply source_label_no_underscore].
  - intros Hkind j url w' p Hp. rewrite Hkind.
    rewrite (streamlit_json_source _ _ _ _ _ Hp).
    split; [reflexivity | apply source_label_no_underscore].
Qed.

(** X13. The two counters of the scraping tab never count a crawled record:
    the count of a category button looks for [f"{site_key}_{cat_name}"] in
    the source, and the metric of a site compares the source with the site
    key; the source of a crawled record holds no underscore, so the first is
    always zero, and so is the second for a site key with an underscore. *)
Theorem counters_miss_crawled_records `{Externals}
    (scraped_products : list Streamlit.Product) (site_key cat_name : string) :
  Forall StreamlitScraper.crawled scraped_products ->
  StreamlitScraper.cat_products scraped_products site_key cat_name = 0%nat
  /\ (contains "_" site_key = true ->
      StreamlitScraper.site_products scraped_products site_key = 0%nat).
Proof.
  intros Hall.
  assert (Hsrc : Forall (fun p => "_"%char ∉ chars (Streamlit.source p)) scraped_products).
  { eapply Forall_impl; [exact Hall|]. intros p. apply crawled_source_no_underscore. }
  clear Hall. unfold StreamlitScraper.cat_products, StreamlitScraper.site_products.
  split; [|intros Hkey]; induction Hsrc as [|p ps Hp _ IH]; cbn [List.filter];
    try reflexivity.
  - destruct (contains _ (Streamlit.source p)) eqn:E; [|exact IH].
    exfalso. apply Hp. unfold contains in E.
    apply (is_infix_elem _ _ E). rewrite !chars_append. apply elem_of_app. right.
    apply elem_of_app. left. apply elem_of_cons. now left.
  - destruct (String.eqb_spec (Streamlit.source p) site_key) as [Heq|]; [|exact IH].
    exfalso. apply Hp. rewrite Heq. now apply contains_underscore.
Qed.

(** ** The JSON records of the Streamlit scraper *)

Section StreamlitJson.

Context `{Externals}.

Local Open Scope Q_scope.




(** An item whose [rating] is not a dict makes the builder raise. *)
Lemma streamlit_json_rating_raises fields v category_name url w :
  fields !! "rating" = Some v ->
  (forall o, v <> JObj o) ->
  fst (StreamlitScraper._create_product_from_json (JObj fields) category_name url w)
  = Raised.
Proof.
  intros Hv Hnot. unfold StreamlitScraper._create_product_from_json.
  destruct (StreamlitScraper.json_title fields); [|reflexivity].
  unfold bind.
  destruct (StreamlitScraper.json_price fields w) as [price w1].
  destruct (res_bind _ clean_json); [|reflexivity].
  unfold StreamlitScraper.json_rating, json_get. rewrite Hv. cbn [default].
  destruct v; try reflexivity. now destruct (Hnot fields0).
Qed.

(** The items after one that raises are never looked at. *)
Lemma streamlit_json_items_stop pre bad rest category_name url :
  (forall w, fst (StreamlitScraper._create_product_from_json bad category_name url w)
             = Raised) ->
  forall products w,
    fst (StreamlitScraper.json_items (pre ++ bad :: rest) category_name url products w)
    = fst (StreamlitScraper.json_items pre category_name url products w).
Proof.
  intros Hbad. induction pre as [|j pre IH]; intros products w;
    cbn [app StreamlitScraper.json_items]; unfold bind.
  - specialize (Hbad w).
    destruct (StreamlitScraper._create_product_from_json bad category_name url w)
      as [[p|] w1]; cbn [fst] in Hbad; [discriminate | reflexivity].
  - destruct (StreamlitScraper._create_product_from_json j category_name url w)
      as [[p|] w1]; [apply IH | reflexivity].
Qed.

End StreamlitJson.


(** X15. On a JSON site of the Streamlit scraper, an item whose [rating] is
    not a dict (a plain number, say) ends the crawl: the records returned are
    those of the items before it, and no item after it is turned into a
    record.  When it is the first item the crawl returns nothing. *)
Theorem rating_number_ends_json_crawl `{Externals} (site_name : string)
    (site_config : SiteConfig) (category_name category_path : string)
    (max_pages : nat) (w w1 : World) (response : Response) (root : Json)
    (pre rest : list Json) (fields : gmap string Json) (v : Json) :
  let url := base_url site_config +:+ category_path in
  StreamlitScraper.is_json_site site_name = true ->
  truthy url = true ->
  (0 < max_pages)%nat ->
  _make_request url w = (Some response, w1) ->
  json response = Some root ->
  StreamlitScraper.unwrap_products root = JArr (pre ++ JObj fields :: rest) ->
  fields !! "rating" = Some v ->
  (forall o, v <> JObj o) ->
  fst (StreamlitScraper.scrape_site_category site_name site_config category_name
                                             category_path max_pages w)
  = Ok (fst (StreamlitScraper.json_items pre category_name url [] w1)).
Proof.
  cbv zeta. intros Hkind Hurl Hmax Hreq Hjson Hroot Hv Hnot.
  unfold StreamlitScraper.scrape_site_category.
  destruct max_pages as [|k]; [lia|]. cbn [StreamlitScraper.page_loop].
  rewrite Hurl. change (0 <? S k)%nat with true. cbn [andb].
  unfold bind at 1. rewrite Hreq, Hkind. unfold bind.
  unfold StreamlitScraper.json_page. rewrite Hjson, Hroot.
  rewrite <- (streamlit_json_items_stop pre (JObj fields) rest category_name
                (base_url site_config +:+ category_path)
                (fun w' => streamlit_json_rating_raises fields v category_name _ w' Hv Hnot)
                [] w1).
  destruct (StreamlitScraper.json_items _ _ _ _ w1) as [ps w2]. reflexivity.
Qed.

(** ** The delete button of the data tab *)

Section RemoveRows.

Context {A : Type}.

Implicit Types (l : list A) (idx : list nat).

Lemma remove_rows_from_elem idx l :
  forall i p,
    p ∈ StreamlitScraper.remove_rows_from i idx l
    <-> exists k, l !! k = Some p /\ (i + k)%nat ∉ idx.
Proof.
  induction l as [|x l IH]; intros i p; cbn [StreamlitScraper.remove_rows_from].
  - split; [intros Hin; now apply elem_of_nil in Hin | intros (k & Hk & _); discriminate].
  - assert (Hrest : (exists k, l !! k = Some p /\ (S i + k)%nat ∉ idx)
                    -> exists k, (x :: l) !! k = Some p /\ (i + k)%nat ∉ idx).
    { intros (k & Hk & Hi). exists (S k). split; [exact Hk|].
      now replace (i + S k)%nat with (S i + k)%nat by lia. }
    destruct (bool_decide (i ∈ idx)) eqn:Hdec.
    + apply bool_decide_eq_true in Hdec. rewrite IH. split; [exact Hrest|].
      intros ([|k] & Hk & Hi).
      * rewrite Nat.add_0_r in Hi. contradiction.
      * exists k. split; [exact Hk|].
        now replace (S i + k)%nat with (i + S k)%nat by lia.
    + apply bool_decide_eq_false in Hdec. rewrite elem_of_cons, IH. split.
      * intros [->|Hin]; [|now apply Hrest].
        exists 0%nat. split; [reflexivity|]. now rewrite Nat.add_0_r.
      * intros ([|k] & Hk & Hi).
        -- left. cbn in Hk. congruence.
        -- right. exists k. split; [exact Hk|].
           now replace (S i + k)%nat with (i + S k)%nat by lia.
Qed.

Lemma remove_rows_from_sublist idx l :
  forall i, sublist (StreamlitScraper.remove_rows_from i idx l) l.
Proof.
  induction l as [|x l IH]; intros i; cbn [StreamlitScraper.remove_rows_from].
  - constructor.
  - destruct (bool_decide _); [apply sublist_cons | apply sublist_skip]; apply IH.
Qed.

Lemma remove_rows_from_length idx l :
  forall i,
    (List.length (StreamlitScraper.remove_rows_from i idx l)
     + List.length (List.filter (fun k => bool_decide (k ∈ idx)) (seq i (List.length l)))
     = List.length l)%nat.
Proof.
  induction l as [|x l IH]; intros i;
    cbn [StreamlitScraper.remove_rows_from List.length seq List.filter]; [reflexivity|].
  specialize (IH (S i)). destruct (bool_decide (i ∈ idx)); cbn [List.length]; lia.
Qed.

End RemoveRows.

(** X16. The delete button keeps, in their order, exactly the products whose
    position in the session list is not among the indices to remove: a
    product is left if and only if it stands at an unlisted position, and
    the list shrinks by the number of listed positions that exist (an index
    listed twice or out of range removes nothing more). *)
Theorem remove_rows_keeps_unlisted {A : Type} (indices_to_remove : list nat)
    (scraped_products : list A) :
  let kept := StreamlitScraper.remove_rows indices_to_remove scraped_products in
  (forall p, p ∈ kept
             <-> exists k, scraped_products !! k = Some p /\ k ∉ indices_to_remove)
  /\ sublist kept scraped_products
  /\ (List.length kept
      + List.length (List.filter (fun k => bool_decide (k ∈ indices_to_remove))
                                 (seq 0 (List.length scraped_products)))
      = List.length scraped_products)%nat.
Proof.
  cbv zeta. unfold StreamlitScraper.remove_rows. split; [|split].
  - intros p. apply (remove_rows_from_elem indices_to_remove scraped_products 0 p).
  - apply remove_rows_from_sublist.
  - apply remove_rows_from_length.
Qed.

(** ** The target of [scrape_all_diverse_sites] *)

Section Target.

Context `{Externals}.



End Target.


(** ** The two scrapers on markup sites *)

Section TwoScrapers.

Context `{Externals}.

Lemma blind_ret {A} (a : A) : blind (ret a).
Proof. intros w1 w2 Hs. split; [reflexivity | exact Hs]. Qed.

Lemma blind_bind {A B} (m : St A) (k : A -> St B) :
  blind m -> (forall a, blind (k a)) -> blind (bind m k).
Proof.
  intros Hm Hk w1 w2 Hs. unfold bind. specialize (Hm w1 w2 Hs).
  destruct (m w1) as [a1 v1], (m w2) as [a2 v2]. cbn [fst snd] in Hm.
  destruct Hm as [-> Hs']. now apply Hk.
Qed.

Lemma blind_draw : blind draw.
Proof.
  intros w1 w2 (Hn & Hs & Ht). unfold draw. rewrite Ht.
  destruct (tape w2) eqn:E2; cbn [fst snd]; repeat split; cbn; congruence.
Qed.

Lemma blind_emit e : blind (emit e).
Proof. intros w1 w2 (Hn & Hs & Ht). repeat split; cbn; assumption. Qed.

Lemma blind_requests_get url : blind (requests_get url).
Proof.
  intros w1 w2 (Hn & Hs & Ht). unfold requests_get. cbn [fst snd].
  rewrite Hn, Hs. repeat split; cbn; congruence.
Qed.

Lemma blind_random_choice {A} (x : A) xs : blind (random_choice x xs).
Proof. apply blind_bind; [apply blind_draw | intros; apply blind_ret]. Qed.

Lemma blind_random_uniform a b : blind (random_uniform a b).
Proof. apply blind_bind; [apply blind_draw | intros; apply blind_ret]. Qed.

Lemma blind_make_request url : blind (_make_request url).
Proof.
  unfold _make_request, _make_request_with.
  generalize (seq 0 retries_default). intros attempts.
  induction attempts as [|a attempts IH]; cbn [attempt_loop]; [apply blind_ret|].
  apply blind_bind; [apply blind_requests_get | intros [response|]]; [apply blind_ret|].
  apply blind_bind; [|intros _; exact IH].
  destruct (_ <? _)%nat; [apply blind_emit | apply blind_ret].
Qed.

Lemma blind_extract_price e : blind (_extract_price e).
Proof.
  unfold _extract_price, price_default. destruct e as [e|].
  - destruct (re_search_number _); [destruct (float_of_str _)|];
      first [apply blind_ret | apply blind_random_choice].
  - apply blind_random_choice.
Qed.

Lemma blind_extract_product_data e category_name page_url selectors :
  blind (_extract_product_data e category_name page_url selectors).
Proof.
  unfold _extract_product_data.
  apply blind_bind; [apply blind_extract_price | intros price].
  apply blind_bind.
  { unfold extract_rating. destruct (select_one e _) as [r|]; [|apply blind_ret].
    destruct (bool_decide _); [apply blind_ret|].
    apply blind_bind; [apply blind_extract_price | intros; apply blind_ret]. }
  intros rating. apply blind_bind.
  { destruct rating; [apply blind_ret | apply blind_random_choice]. }
  intros rating'. destruct (match select_one e _ with Some _ => _ | None => _ end);
    apply blind_ret.
Qed.

(** The pause between two pages draws once, whatever its bounds. *)
Lemma random_delay_same_inputs a b c d w1 w2 :
  same_inputs w1 w2 ->
  same_inputs (snd (_random_delay a b w1)) (snd (_random_delay c d w2)).
Proof.
  intros (Hn & Hs & Ht). unfold _random_delay, random_uniform, bind, draw, time_sleep, emit.
  rewrite Ht. destruct (tape w2) eqn:E2; unfold same_inputs; cbn; repeat split; congruence.
Qed.

Lemma extract_elements_agree category_name url selectors els :
  forall psS psD w1 w2 rS v1 rD v2,
    same_inputs w1 w2 ->
    map Streamlit.fields psS = psD ->
    StreamlitScraper.extract_elements els category_name url selectors psS w1 = (rS, v1) ->
    extract_elements els category_name url selectors psD w2 = (rD, v2) ->
    map Streamlit.fields rS = rD /\ same_inputs v1 v2.
Proof.
  induction els as [|e els IH]; intros psS psD w1 w2 rS v1 rD v2 Hs Hps ES ED;
    cbn [StreamlitScraper.extract_elements extract_elements] in ES, ED.
  { injection ES as <- <-. injection ED as <- <-. split; assumption. }
  unfold bind at 1 in ES. unfold bind at 1 in ED.
  unfold Streamlit._extract_product_data, Streamlit.diverse_extract_product_data in ES.
  unfold bind at 1 in ES.
  destruct (blind_extract_product_data e category_name url selectors w1 w2 Hs)
    as [Hr Hs'].
  destruct (_extract_product_data e category_name url selectors w1) as [r1 u1].
  destruct (_extract_product_data e category_name url selectors w2) as [r2 u2].
  cbn [fst snd ret] in Hr, Hs', ES. subst r2.
  refine (IH _ _ _ _ _ _ _ _ Hs' _ ES ED).
  destruct r1 as [p|]; [|exact Hps].
  unfold StreamlitScraper.keep, keep. cbn [Streamlit.fields].
  destruct (truthy (titre p)); [|exact Hps].
  rewrite map_app, Hps. reflexivity.
Qed.

Lemma page_loops_agree site_name category_name selectors max_pages :
  StreamlitScraper.is_json_site site_name = false ->
  forall fuel url page_count psS psD w1 w2 rS v1 rD v2,
    same_inputs w1 w2 ->
    map Streamlit.fields psS = psD ->
    StreamlitScraper.page_loop fuel site_name category_name selectors max_pages
                               url page_count psS w1 = (rS, v1) ->
    page_loop fuel site_name category_name selectors max_pages
              url page_count psD w2 = (rD, v2) ->
    rD = match rS with Ok ps => Ok (map Streamlit.fields ps) | Raised => Raised end.
Proof.
  intros HkindS.
  assert (HkindD : is_json_site site_name = false).
  { unfold StreamlitScraper.is_json_site in HkindS. unfold is_json_site.
    apply orb_false_iff in HkindS as [HkindS _].
    now apply orb_false_iff in HkindS as [HkindS _]. }
  induction fuel as [|fuel IH]; intros url page_count psS psD w1 w2 rS v1 rD v2 Hs Hps ES ED;
    cbn [StreamlitScraper.page_loop page_loop] in ES, ED.
  { injection ES as <- <-. injection ED as <- <-. now rewrite Hps. }
  destruct (truthy url && _).
  2:{ injection ES as <- <-. injection ED as <- <-. now rewrite Hps. }
  unfold bind at 1 in ED. rewrite emit_advance in ED.
  unfold bind at 1 in ED. unfold bind at 1 in ES.
  assert (Hs0 : same_inputs w1 (advance 0 [EvPage (S page_count) url] w2)).
  { destruct Hs as (Hn & Hse & Ht). repeat split; cbn; assumption. }
  destruct (blind_make_request url _ _ Hs0) as [Hr Hs1].
  destruct (_make_request url w1) as [r1 u1].
  destruct (_make_request url (advance 0 _ w2)) as [r2 u2].
  cbn [fst snd] in Hr, Hs1. subst r2.
  destruct r1 as [response|].
  2:{ injection ES as <- <-. injection ED as <- <-. now rewrite Hps. }
  rewrite HkindS in ES. rewrite HkindD in ED.
  destruct (select_containers (soup response) selectors) as [|e els].
  { injection ES as <- <-. injection ED as <- <-. now rewrite Hps. }
  unfold bind at 1 in ES. unfold bind at 1 in ED.
  destruct (StreamlitScraper.extract_elements (e :: els) _ url selectors psS u1)
    as [qS x1] eqn:EeS.
  destruct (extract_elements (e :: els) _ url selectors psD u2) as [qD x2] eqn:EeD.
  destruct (extract_elements_agree _ _ _ _ _ _ _ _ _ _ _ _ Hs1 Hps EeS EeD) as [Hq Hs2].
  destruct (_get_next_page_url (soup response) url selectors) as [[next_url|]|].
  - destruct (_ || _).
    + injection ES as <- <-. injection ED as <- <-. now rewrite Hq.
    + unfold bind at 1 in ES. unfold bind at 1 in ED.
      pose proof (random_delay_same_inputs 1 2 1 3 x1 x2 Hs2) as Hs3.
      destruct (_random_delay 1 2 x1) as [[] y1].
      destruct (_random_delay 1 3 x2) as [[] y2].
      exact (IH _ _ _ _ _ _ _ _ _ _ Hs3 Hq ES ED).
  - injection ES as <- <-. injection ED as <- <-. now rewrite Hq.
  - injection ES as <- <-. injection ED as <- <-. reflexivity.
Qed.

End TwoScrapers.

(** X18. On a site that the Streamlit scraper treats as markup, it returns
    the records [DiverseScraper] returns for the same category, page cap and
    state of the network and of the random generator: the same records in
    the same order, each with a ['source'] key besides, and it raises when
    [DiverseScraper] does.  The shorter pause between pages and the missing
    page line change nothing in the result. *)
Theorem streamlit_crawl_matches_diverse `{Externals} (site_name : string)
    (site_config : SiteConfig) (category_name category_path : string)
    (max_pages : nat) (w : World) :
  StreamlitScraper.is_json_site site_name = false ->
  fst (scrape_site_category site_name site_config category_name category_path
                            max_pages w)
  = match fst (StreamlitScraper.scrape_site_category site_name site_config
                 category_name category_path max_pages w) with
    | Ok products => Ok (map Streamlit.fields products)
    | Raised => Raised
    end.
Proof.
  intros Hkind. unfold scrape_site_category, StreamlitScraper.scrape_site_category.
  destruct (StreamlitScraper.page_loop _ _ _ _ _ _ _ _ w) as [rS v1] eqn:ES.
  destruct (page_loop _ _ _ _ _ _ _ _ w) as [rD v2] eqn:ED.
  cbn [fst].
  refine (page_loops_agree _ _ _ _ Hkind _ _ _ _ _ w w _ _ _ _ _ _ ES ED);
    [repeat split | reflexivity].
Qed.

(** * Further worked runs *)

Section FurtherRuns.

Import Samples.

Local Open Scope Q_scope.

(** Four attempts against a dead network: seven seconds slept in all; and
    against the shop, the first attempt succeeds. *)
Lemma retries_on_samples :
  (forall k, (k < 4)%nat -> net offline (sent offline + k)%nat page1_url = None)
  /\ fst (_make_request_with 4 page1_url offline) = None
  /\ slept (trace (snd (_make_request_with 4 page1_url offline))) == 7
  /\ (exists k, (k < 4)%nat
                /\ net shop_world (sent shop_world + k)%nat page1_url = Some shop_page1
                /\ sent (snd (_make_request_with 4 page1_url shop_world))
                   = (sent shop_world + S k)%nat).
Proof.
  assert (Hall : forall k, (k < 4)%nat -> net offline (sent offline + k)%nat page1_url = None)
    by (intros; reflexivity).
  pose proof (make_request_any_retries 4 page1_url offline) as Hoff.
  cbv zeta in Hoff. destruct Hoff as (Hnone & _ & _ & Hslept).
  pose proof (proj2 Hnone Hall) as Hr.
  split; [exact Hall|]. split; [exact Hr|]. split.
  - refine (Qeq_trans _ _ _ (Hslept Hr) _). reflexivity.
  - pose proof (make_request_any_retries 4 page1_url shop_world) as Hon.
    cbv zeta in Hon. destruct Hon as (_ & Hok & _ & _).
    destruct (Hok shop_page1 eq_refl) as (k & Hk & Hresp & _ & Hsent).
    exists k. split; [exact Hk|]. split; [exact Hresp | exact Hsent].
Defined.

Lemma json_crawl_on_posts :
  is_json_site "jsonplaceholder" = true
  /\ (exists products,
        fst (scrape_site_category "jsonplaceholder" jsonplaceholder "posts" "/posts" 10
                                  (posts_world five_posts [])) = Ok products)
  /\ pages (trace (snd (scrape_site_category "jsonplaceholder" jsonplaceholder "posts"
                                             "/posts" 10 (posts_world five_posts []))))
     = [(1%nat, posts_url)]
  /\ (sent (snd (scrape_site_category "jsonplaceholder" jsonplaceholder "posts"
                                      "/posts" 10 (posts_world five_posts []))) <= 3)%nat.
Proof.
  pose proof (json_crawl_single_page "jsonplaceholder" jsonplaceholder "posts" "/posts" 10
                (posts_world five_posts []) eq_refl) as Hthm.
  destruct Hthm as (Hok & Hpages & Hsent).
  split; [reflexivity|]. split; [exact Hok|]. split; [exact Hpages | exact Hsent].
Defined.

(** A container without any text is dropped, the kettle is kept. *)
Lemma markup_records_on_shop :
  (forall base href, urljoin base href <> Raised)
  /\ (exists products,
        fst (scrape_site_category "shop" shop "all" "/page1.html" 10 shop_world)
        = Ok products)
  /\ map titre (fst (extract_elements [item "Kettle" "24.90"; leaf ""] "shop_all"
                                      page1_url default_selectors [] offline))
     = ["Kettle"].
Proof.
  assert (Htotal : forall base href, urljoin base href <> Raised) by (intros; discriminate).
  destruct (markup_records_follow_titles Htotal) as [Hok Htitles].
  split; [exact Htotal|]. split; [apply Hok|].
  rewrite Htitles. vm_compute. reflexivity.
Defined.

(** A [next] without [href] and a page number are passed over. *)
Lemma next_link_on_samples :
  let links := [leaf "next"; anchor "2" "/page2.html"; anchor "Next >" page2_url;
                anchor "suivant" page1_url] in
  let soup_ := soup (page [(sel_get default_selectors "pagination" "", links)]) in
  Forall (fun l => is_next_link l = false) [leaf "next"; anchor "2" "/page2.html"]
  /\ is_next_link (anchor "Next >" page2_url) = true
  /\ _get_next_page_url soup_ page1_url default_selectors = Ok (Some page2_url).
Proof.
  cbv zeta.
  assert (Hpre : Forall (fun l => is_next_link l = false)
                        [leaf "next"; anchor "2" "/page2.html"])
    by (repeat constructor).
  assert (Hlink : is_next_link (anchor "Next >" page2_url) = true) by (vm_compute; reflexivity).
  split; [exact Hpre|]. split; [exact Hlink|].
  pose proof (next_link_is_first_match
                (soup (page [(sel_get default_selectors "pagination" "",
                              [leaf "next"; anchor "2" "/page2.html";
                               anchor "Next >" page2_url; anchor "suivant" page1_url])]))
                page1_url default_selectors) as Hthm.
  cbv zeta in Hthm. destruct Hthm as [_ Hfirst].
  refine (Hfirst [leaf "next"; anchor "2" "/page2.html"] (anchor "Next >" page2_url)
                 [anchor "suivant" page1_url] page2_url _ Hpre Hlink _);
    vm_compute; reflexivity.
Defined.


Lemma field_lengths_on_books :
  (String.length (_clean_text "  A  Light in the Attic ")
   <= String.length "  A  Light in the Attic ")%nat
  /\ exists products,
       fst (scrape_site_category "books_demo" books_demo "travel"
              "/catalogue/category/books/travel_2/index.html" 10 books_world) = Ok products
       /\ List.length products = 1%nat
       /\ Forall (fun p =>
                    (String.length (titre p) <= 300)%nat
                    /\ (String.length (description p) <= 203)%nat
                    /\ (String.length (vendeur p) <= 300)%nat
                    /\ (is_json_site "books_demo" = true ->
                        (String.length (titre p) <= 50)%nat
                        /\ (String.length (description p) <= 200)%nat))
                 products.
Proof.
  destruct crawl_field_lengths as [Hclean Hcrawl].
  split; [apply Hclean|].
  eexists. split; [vm_compute; reflexivity|]. split; [reflexivity|].
  refine (Hcrawl "books_demo" books_demo "travel"
            "/catalogue/category/books/travel_2/index.html" 10%nat books_world _ _).
  vm_compute. reflexivity.
Defined.

Lemma clean_text_shape_on_samples :
  Forall (fun c => isspace c = true) (chars "   ")
  /\ _clean_text "   " = ""
  /\ starts_clean (chars (_clean_text "  Asus   VivoBook  "))
  /\ single_spaced (chars (_clean_text "  Asus   VivoBook  ")).
Proof.
  assert (Hblank : Forall (fun c => isspace c = true) (chars "   "))
    by (repeat constructor).
  destruct (clean_text_shape "   ") as (Hempty & _).
  destruct (clean_text_shape "  Asus   VivoBook  ") as (_ & Hstart & Hspaced & _).
  split; [exact Hblank|]. split; [exact (Hempty Hblank)|]. split; assumption.
Defined.

Lemma clean_text_twice_on_sample :
  starts_clean (rev (chars (_clean_text "  Asus   VivoBook; 14  ")))
  /\ _clean_text (_clean_text "  Asus   VivoBook; 14  ")
     = _clean_text "  Asus   VivoBook; 14  ".
Proof.
  assert (Hlast : starts_clean (rev (chars (_clean_text "  Asus   VivoBook; 14  "))))
    by (vm_compute; reflexivity).
  split; [exact Hlast | exact (clean_text_twice _ Hlast)].
Defined.

(** The book crawled from [books_demo] is labelled [books]. *)
Lemma source_label_on_books :
  exists products,
    fst (StreamlitScraper.scrape_site_category "books_demo" books_demo "travel"
           "/catalogue/category/books/travel_2/index.html" 5 books_world) = Ok products
    /\ map Streamlit.source products = ["books"]
    /\ Forall (fun p =>
                 Streamlit.source p
                 = Streamlit.source_label
                     (if StreamlitScraper.is_json_site "books_demo"
                      then "travel" else "books_demo")
                 /\ "_"%char ∉ chars (Streamlit.source p))
              products.
Proof.
  eexists. split; [vm_compute; reflexivity|]. split; [reflexivity|].
  refine (crawl_source_label "books_demo" books_demo "travel"
            "/catalogue/category/books/travel_2/index.html" 5 books_world _ _).
  vm_compute. reflexivity.
Defined.

(** After the crawl of the travel books, the button of that category and
    the metric of [books_demo] both show nothing. *)
Lemma counters_on_books :
  let crawl := StreamlitScraper.scrape_site_category "books_demo" books_demo "travel"
                 "/catalogue/category/books/travel_2/index.html" 5 books_world in
  let products := match fst crawl with Ok products => products | Raised => [] end in
  fst crawl = Ok products
  /\ List.length products = 1%nat
  /\ Forall StreamlitScraper.crawled products
  /\ StreamlitScraper.cat_products products "books_demo" "travel" = 0%nat
  /\ StreamlitScraper.site_products products "books_demo" = 0%nat.
Proof.
  cbv zeta.
  set (crawl := StreamlitScraper.scrape_site_category "books_demo" books_demo "travel"
                  "/catalogue/category/books/travel_2/index.html" 5 books_world).
  assert (Hrun : fst crawl = Ok (match fst crawl with Ok products => products | Raised => [] end))
    by (vm_compute; reflexivity).
  set (products := match fst crawl with Ok products => products | Raised => [] end) in *.
  assert (Hcrawled : Forall StreamlitScraper.crawled products).
  { apply Forall_forall. intros p Hp.
    exists "books_demo", books_demo, "travel",
           "/catalogue/category/books/travel_2/index.html", 5%nat, books_world, products.
    split; [exact Hrun | exact Hp]. }
  destruct (counters_miss_crawled_records products "books_demo" "travel" Hcrawled)
    as [Hcat Hsite].
  split; [exact Hrun|]. split; [vm_compute; reflexivity|]. split; [exact Hcrawled|].
  split; [exact Hcat | apply Hsite; reflexivity].
Defined.


(** The listing has three items; the phone's rating is a number, so only
    the tablet before it becomes a record. *)
Lemma rating_number_on_listing :
  StreamlitScraper.is_json_site "dummy_products" = true
  /\ StreamlitScraper.unwrap_products listing
     = JArr ([JObj tablet_fields] ++ JObj phone_fields :: [JObj watch_fields])
  /\ phone_fields !! "rating" = Some (JNum 4.69)
  /\ fst (StreamlitScraper.scrape_site_category "dummy_products" dummy_products "products"
            "/products" 5 listing_world)
     = Ok (fst (StreamlitScraper.json_items [JObj tablet_fields] "products" listing_url []
                  (snd (_make_request listing_url listing_world))))
  /\ map (fun p => titre (Streamlit.fields p))
         (fst (StreamlitScraper.json_items [JObj tablet_fields] "products" listing_url []
                 (snd (_make_request listing_url listing_world))))
     = ["Galaxy Tab S8"].
Proof.
  assert (Hkind : StreamlitScraper.is_json_site "dummy_products" = true) by reflexivity.
  assert (Hroot : StreamlitScraper.unwrap_products listing
                  = JArr ([JObj tablet_fields] ++ JObj phone_fields :: [JObj watch_fields]))
    by (vm_compute; reflexivity).
  assert (Hrating : phone_fields !! "rating" = Some (JNum 4.69)) by (vm_compute; reflexivity).
  split; [exact Hkind|]. split; [exact Hroot|]. split; [exact Hrating|]. split.
  - refine (rating_number_ends_json_crawl "dummy_products" dummy_products "products"
              "/products" 5 listing_world _ (posts_response listing) listing
              [JObj tablet_fields] [JObj watch_fields] phone_fields (JNum 4.69)
              Hkind _ _ _ _ Hroot Hrating _);
      first [reflexivity | lia | intros o; discriminate].
  - vm_compute. reflexivity.
Defined.

Lemma remove_rows_on_sample :
  let kept := StreamlitScraper.remove_rows [0; 2; 2; 7]%nat ["a"; "b"; "c"] in
  kept = ["b"]
  /\ "b" ∈ kept
  /\ sublist kept ["a"; "b"; "c"]
  /\ (List.length kept + 2 = 3)%nat.
Proof.
  cbv zeta.
  pose proof (remove_rows_keeps_unlisted [0; 2; 2; 7]%nat ["a"; "b"; "c"]) as Hthm.
  cbv zeta in Hthm. destruct Hthm as (Hmem & Hsub & Hlen).
  split; [reflexivity|]. split; [|split; [exact Hsub | exact Hlen]].
  apply Hmem. exists 1%nat. split; [reflexivity|].
  rewrite !elem_of_cons, elem_of_nil. intros [|[|[|[|[]]]]]; discriminate.
Defined.


Lemma streamlit_matches_diverse_on_books :
  StreamlitScraper.is_json_site "books_demo" = false
  /\ fst (scrape_site_category "books_demo" books_demo "travel"
            "/catalogue/category/books/travel_2/index.html" 5 books_world)
     = match fst (StreamlitScraper.scrape_site_category "books_demo" books_demo "travel"
                    "/catalogue/category/books/travel_2/index.html" 5 books_world) with
       | Ok products => Ok (map Streamlit.fields products)
       | Raised => Raised
       end.
Proof.
  assert (Hkind : StreamlitScraper.is_json_site "books_demo" = false) by reflexivity.
  split; [exact Hkind|].
  exact (streamlit_crawl_matches_diverse "books_demo" books_demo "travel"
           "/catalogue/category/books/travel_2/index.html" 5 books_world Hkind).
Defined.

End FurtherRuns.
